(* ===== verification/_CoqProject ===== *)
-Q . S2P
Prelude.v
Systeme.v
Tri.v
Noeud.v
Validation.v
Frequences.v
Tas.v
TasOrdre.v
Construction.v
Glouton.v
Optimalite.v
Codes.v
Affichage.v
Encodage.v
Decodage.v
Pipeline.v
Compression.v
Borne.v
Prefixe.v
Sauvegarde.v
Programme.v
App.v
Tests.v
Demonstrations.v
