(* ===== verification/Prelude.v ===== *)
(** * A verification development of the Huffman coder NinflasLeila/-Huffman_Tree

    ** The program

    The repository holds two implementations of Huffman coding in Python.
    - The top-level package [src/]: [analyse_frequences.py] (the class
      [Noeud], [lire_fichier], [calculer_frequences], [creer_noeuds_feuilles],
      [afficher_frequences], [analyser_fichier], unit tests and a
      demonstration), [construction_arbre.py] ([construire_arbre_huffman],
      [afficher_arbre], unit tests, a demonstration) and [encodage.py] (the
      checker [verifier_arbre_huffman], the code generator
      [generer_codes_huffman], [encoder_texte], the saving of the encoded
      text, three checks asserted by its main block).
    - The package [src/huffman/]: [analyse_frequences] ([dict(Counter)]),
      [construire_arbre], [generer_codes], [encoder], [decoder],
      [calculer_stats], [main], which reads [test.txt], encodes and decodes
      it, prints the tables and statistics and writes the encoded text, and
      the Streamlit page [app.py], which shows the same for an uploaded
      file with a Graphviz drawing of the tree.
    Both build the tree with Python's [heapq], merging the two trees of
    least frequency until one is left, and label left edges ['0'] and right
    edges ['1'].

    ** The files (library [S2P], in dependency order)
    - [Prelude]: Python's exceptions and the result monad [Resultat]
      (a [raise] is [Erreur e]); dicts as insertion-ordered association
      lists ([dict_get], [dict_set] for [d[k] = v], [dict_eqb] for [==],
      with [dict_eqb_correct]); list indexing and [pop] raising
      [IndexError]; the hint database [huffman]; the tactic [dans_liste].
    - [Systeme]: the world a script runs in ([Monde]: files by path and the
      lines printed), the monad [IO] of computations on it that may raise,
      [print] ([imprimer]), [open(...).read()] with universal newlines
      ([lire]), [open(..., "w").write] ([ecrire]), [try/except]
      ([rattraper]), [assert] ([affirmer]); a printed line is the list of
      the pieces of its f-string; the interface [Caracteres] of the
      characters of a text; the predicate [imprime m l] (m only prints l)
      and the tactics [imprime_calcul] and [avancer] that run a script.
    - [Tri]: Python's stable [sorted] with a key and [reverse], and the
      theorem that it returns the one ordered, order-keeping permutation.
    - [Noeud]: the class [Noeud] of both packages as one record, [est_feuille],
      [__lt__] ([noeud_lt]), and the specification of trees: leaves,
      weights, the well-formedness predicate [arbre_valide].
    - [Validation]: [verifier_arbre_huffman], [verifier_codes_caracteres],
      [verifier_propriete_prefixe], [verifier_texte_encode_non_vide], each
      proved equivalent to the property it decides.
    - [Frequences]: [calculer_frequences], [dict(Counter(texte))] and
      [creer_noeuds_feuilles]; both counters give the same dict, with distinct
      keys, mapping each character to its number of occurrences.
    - [Tas]: the interface [Tas]/[TasLois] (heapify, heappush, heappop and
      their laws on the multiset of elements) and [Heapq], a line-by-line
      model of CPython's [Lib/heapq.py], which satisfies it.
    - [TasOrdre]: the heap order of [Heapq] on CPython's array layout:
      [heapify] establishes it, [heappush] and [heappop] keep it, and
      [heappop] returns a minimum, for any strict weak order ([OrdreFaible],
      which [Noeud.__lt__] is); the interface [TasMin] that states it.
    - [Construction]: the merge loop [boucle_fusion] and both builders,
      proved against the interface only: with any [TasLois] the loop ends
      with one tree, whose leaves are the input leaves, with coherent and
      positive frequencies, and the two builders agree.
    - [Glouton]: with a [TasMin] queue, every turn of the merge loop is
      Huffman's greedy step (two trees of least frequency are merged).
    - [Optimalite]: weighted binary trees [arbre] and their cost (weighted
      path length); the exchange argument (a deepest pair of sibling
      leaves can carry the two least weights) shows every greedy run
      reaches a tree of least cost, hence so do both builders.
    - [Codes]: [parcourir_noeud]/[generer_codes_huffman] and
      [parcourir]/[generer_codes]: the tables are the root-to-leaf paths
      [chemins] of the tree (with [code or "0"] in [src/huffman/]), and
      they are prefix-free.
    - [Affichage]: [lire_fichier], [afficher_frequences], [analyser_fichier],
      [__repr__] and [afficher_arbre] of [src/], and the reading and
      printing functions of [src/huffman/], as [IO] computations.
    - [Encodage]: [encoder] ([KeyError] on a character without code),
      [recuperer_arbre_huffman], [encoder_texte].
    - [Decodage]: [decoder] as a step function [etape_decoder] folded over
      the bits; decoding inverts encoding on trees with an internal root,
      and its behaviours on bad input (a lone leaf, a truncated code, a
      character other than ['0'] and ['1']).
    - [Pipeline]: the pure core of [main] of [src/huffman/main.py] and the
      main block of [src/encodage.py], end to end.
    - [Compression]: the length of [encoder(texte, codes)] is the cost of
      the code tree weighted by the counts of the text, so the program's
      encoding is as short as any encoding by the paths of a code tree.
    - [Borne]: a balanced code tree of depth [⌈log2 n⌉] over the [n]
      characters of a text ([equilibre], recursion on the depth bound), so
      the program's encoding has at most [⌈log2 n⌉] bits per character.
    - [Prefixe]: the decoding tree [arbre_de_table] of any binary
      prefix-free table, built by splitting the table on its first bit, so
      that every such table is compared with the program's codes.
    - [Sauvegarde]: [sauvegarder_texte_encode] as an [IO] run (the encoded
      file written, [test.txt] read back, the sizes and the verdict
      printed), its file name, and [calculer_stats].
    - [Programme]: [main] of [src/huffman/main.py] as an [IO] run: the file
      read, every line printed, the file written.
    - [App]: the page [src/huffman/app.py] as the list of elements it shows
      (the writer monad [Page]), with [visualiser_arbre] threading its
      shared counter and graph through the recursive calls, and the code
      length statistics ([min], [max], [mean]).
    - [Tests]: the unit tests of both modules as [IO] runs (their prints,
      [assert] as [AssertionError], dict equality as Python's [==]).
    - [Demonstrations]: the [__main__] blocks of [src/analyse_frequences.py]
      and [src/construction_arbre.py] as [IO] runs.

    ** What the theorems show
    - Round trip: [Decodage.decoder_encoder], [Pipeline.main_correct] and
      [Programme.main_io_correct]: every text with two distinct characters
      decodes to itself, and the run of [main] prints the check [True] and
      writes the encoded text.
    - Functional correctness of each stage: [analyser_frequences_correct],
      [construire_arbre_huffman_correct], [construire_arbre_correct],
      [generer_codes_huffman_correct], [generer_codes_correct],
      [generer_codes_prefixe], [encoder_KeyError] and the equivalences of
      the checkers.
    - Huffman's algorithm: [construire_arbres_gloutons], both builders are
      runs of the greedy algorithm when [heapq] is a priority queue, which
      [TasOrdre] proves CPython's is.
    - Optimality: [construire_arbres_optimaux] (the built trees have least
      weighted path length among trees with the same leaf weights) and
      [encodage_optimal] (no code tree over the characters of the text
      encodes it in fewer bits than the program's codes) and
      [Prefixe.encodage_optimal_prefixe] (nor does any table of distinct
      binary codes that is prefix-free, the program's check
      [verifier_propriete_prefixe] returning [True]).
    - Bounds: [Borne.encodage_borne] (at most [⌈log2 n⌉] bits per
      character), [App.app_taux_positif] (the rate [app.py] shows is not
      negative for at most 256 distinct characters),
      [App.app_longueurs_codes] (the minimum, maximum and mean code length
      the page shows are those of the table, between 1 and [n - 1]).
    - Display: [afficher_frequences_texte] (the table: one line per
      character, by decreasing count, percentages summing to 100),
      [afficher_arbre_correct] (one line per node, each leaf indented by
      its depth), [visualiser_arbre_correct] and [app_graphe_codes] (the
      drawn graph numbers the nodes in preorder and its edge labels spell
      the codes of the table).
    - Termination: the merge loop removes one tree per turn
      ([boucle_fusion_tours]).
    - Error paths, each an exception of the model: [main_un_caractere]
      ([AttributeError] on a one-character text), [main_encodage_un_caractere]
      (the failed assertion), [decoder_tronque] and [decoder_normaliser]
      (inputs accepted without error), [main_io_erreurs] (a missing file,
      an empty text), [lire_fichier_correct] ([TypeError] for a file that
      is not UTF-8) and [demo_analyse_correct] (which does not catch it).
    - [nom_fichier_compresse_correct]: the file name built with
      [rfind('.')], and what it does to a name without a dot.
    Each theorem with hypotheses has a witness [<name>_witness] that applies
    it to a concrete input ([aabbc], [xxxx], a world with or without
    [test.txt], ...) with CPython's [heapq].

    ** Fuel and bounds
    Every loop of the code is structural here except the loops of
    [heapq] and the merge loop.  [Heapq.siftdown_boucle] gets fuel [pos]
    (the position decreases at each turn), [Heapq.siftup_boucle] gets
    [len(heap)] (the position increases); [Heapq.siftdown_fuel] and
    [Heapq.siftup_fuel] show more fuel changes nothing, so the fuel is
    never the reason they stop.  [boucle_fusion] gets [len(heap)], and
    [boucle_fusion_tours] shows [len(heap) - 1] turns leave one tree.
    [Borne.equilibre] recurses on a depth bound [k]; [equilibre_spec] shows
    any [k] with [n <= 2^k] is enough, and [⌈log2 n⌉] is the least one.

    ** Not modelled
    How Python renders numbers, dicts and f-string alignments in decimal
    text, and how Streamlit and Graphviz lay out and draw the page: a
    printed line keeps the values and format specifications, a page the
    list of its elements; the layout calls of [app.py] (columns, expanders,
    page configuration) are left out.  The one-character text, whose code
    ['0'] is not a path of its tree, is left out of the optimality
    theorems.  The theorems of
    [Construction] rely only on what [heapq] does to the multiset of
    elements ([TasLois]); [Glouton] adds the heap order ([TasMin]); the
    witnesses run the model of [heapq] itself. *)

From stdpp Require Import base list sets strings.
From Stdlib Require Import ZArith Ascii.

#[export] Set Warnings "-register-all".

(** ** Python exceptions and the result monad

    The code raises Python exceptions on its failure paths ([heap[0]] on an
    empty list, [codes[char]] on a missing key, [None.char], the explicit
    [raise ValueError]).  A computation that may raise is a [Resultat]. *)

Inductive Exception : Type :=
  | IndexError
  | KeyError
  | ValueError
  | AttributeError
  | ZeroDivisionError
  | AssertionError
  | FileNotFoundError
  | UnicodeDecodeError
  | TypeError.

#[export] Instance Exception_eq_dec : EqDecision Exception.
Proof. solve_decision. Defined.

Inductive Resultat (X : Type) : Type :=
  | Ok (x : X)
  | Erreur (e : Exception).
Arguments Ok {X} x.
Arguments Erreur {X} e.

#[export] Instance Resultat_ret : MRet Resultat := fun _ x => Ok x.
#[export] Instance Resultat_bind : MBind Resultat :=
  fun _ _ f m => match m with Ok x => f x | Erreur e => Erreur e end.

Declare Scope py_scope.
Delimit Scope py_scope with py.
Open Scope py_scope.

(** [raise e]: the Python statement, as a value of the monad. *)
Notation "'raise' e" := (Erreur e) (at level 10) : py_scope.

(** [of_option e o]: a Python access that raises [e] where [o] is [None]. *)
Definition of_option {X} (e : Exception) (o : option X) : Resultat X :=
  match o with Some x => Ok x | None => Erreur e end.

Lemma bind_Ok {X Y} (m : Resultat X) (f : X -> Resultat Y) (y : Y) :
  (x ← m; f x) = Ok y <-> exists x, m = Ok x /\ f x = Ok y.
Proof. destruct m; simpl; split; [eauto|intros (?&[= ->]&?); done|done|by intros (?&?&?)]. Qed.

Lemma bind_ret {X Y} (x : X) (f : X -> Resultat Y) : (y ← Ok x; f y) = f x.
Proof. reflexivity. Qed.

Lemma bind_Erreur {X Y} (e : Exception) (f : X -> Resultat Y) :
  (y ← Erreur e; f y) = Erreur e.
Proof. reflexivity. Qed.

(** ** Python strings of bits

    Codes and encoded texts are Python [str] values made of the characters
    ['0'] and ['1']; a [str] is a list of characters. *)

Abbreviation chaine := (list ascii).
(** A Python [str] literal, as the list of its characters. *)
Abbreviation lettres := String.list_ascii_of_string.
Abbreviation b0 := "0"%char.
Abbreviation b1 := "1"%char.

(** ** Python dictionaries

    A Python [dict] iterates in insertion order, and the order matters here:
    [frequences.items()] fixes the initial heap, hence the tie-breaking of
    the tree builder.  A dict is therefore an association list in insertion
    order; [d[k] = v] replaces the value in place when [k] is present and
    appends the pair otherwise. *)

Definition dict (K V : Type) := list (K * V).

Section Dict.
Context {K V : Type} `{EqDecision K}.

(** [d.get(k)], [k in d] *)
Fixpoint dict_get (d : dict K V) (k : K) : option V :=
  match d with
  | [] => None
  | (k', v) :: d' => if decide (k = k') then Some v else dict_get d' k
  end.

(** [d[k] = v] *)
Fixpoint dict_set (d : dict K V) (k : K) (v : V) : dict K V :=
  match d with
  | [] => [(k, v)]
  | (k', v') :: d' => if decide (k = k') then (k', v) :: d' else (k', v') :: dict_set d' k v
  end.

Definition dict_keys (d : dict K V) : list K := map fst d.
Definition dict_values (d : dict K V) : list V := map snd d.

Lemma dict_get_set_eq d k v : dict_get (dict_set d k v) k = Some v.
Proof. induction d as [|[k' v'] d IH]; simpl; repeat (case_decide; simpl); congruence. Qed.

Lemma dict_get_set_ne d k k' v :
  k <> k' -> dict_get (dict_set d k v) k' = dict_get d k'.
Proof.
  intros Hne. induction d as [|[k0 v0] d IH]; simpl; repeat (case_decide; simpl); congruence.
Qed.

Lemma dict_get_Some_In d k v : dict_get d k = Some v -> (k, v) ∈ d.
Proof.
  induction d as [|[k' v'] d IH]; simpl; [done|].
  case_decide; [intros [= <-]; subst; left|intros; right; auto].
Qed.

Lemma dict_get_None d k : dict_get d k = None <-> k ∉ dict_keys d.
Proof.
  unfold dict_keys. induction d as [|[k' v'] d IH]; simpl; [set_solver|].
  rewrite elem_of_cons. case_decide; subst; naive_solver.
Qed.

Lemma dict_keys_set_in d k v :
  k ∈ dict_keys d -> dict_keys (dict_set d k v) = dict_keys d.
Proof.
  induction d as [|[k' v'] d IH]; simpl; [set_solver|].
  rewrite elem_of_cons. case_decide; simpl; [done|].
  intros [->|Hk]; [done|]. by rewrite IH.
Qed.

Lemma dict_keys_set_notin d k v :
  k ∉ dict_keys d -> dict_keys (dict_set d k v) = dict_keys d ++ [k].
Proof.
  induction d as [|[k' v'] d IH]; simpl; [done|].
  rewrite elem_of_cons. case_decide; simpl; [naive_solver|].
  intros Hk. rewrite IH; naive_solver.
Qed.

Lemma dict_keys_set_NoDup d k v :
  NoDup (dict_keys d) -> NoDup (dict_keys (dict_set d k v)).
Proof.
  destruct (decide (k ∈ dict_keys d)).
  - by rewrite dict_keys_set_in.
  - rewrite dict_keys_set_notin by done. intros. apply NoDup_app.
    split_and!; [done| |apply NoDup_singleton]. set_solver.
Qed.

Lemma dict_length_set d k v :
  length (dict_set d k v) = length d + (if decide (k ∈ dict_keys d) then 0 else 1).
Proof.
  induction d as [|[k' v'] d IH]; simpl; [done|].
  repeat case_decide; simpl; rewrite ?IH; set_solver.
Qed.
Lemma dict_set_notin d k v : k ∉ dict_keys d -> dict_set d k v = d ++ [(k, v)].
Proof.
  unfold dict_keys. induction d as [|[k' v'] d IH]; simpl; [done|].
  rewrite not_elem_of_cons. intros [? ?]. rewrite decide_False by done. by rewrite IH.
Qed.

(** Successive writes [d[k] = v] for the pairs of [kvs], in order. *)
Definition dict_set_tous (d : dict K V) (kvs : list (K * V)) : dict K V :=
  fold_left (fun d '(k, v) => dict_set d k v) kvs d.

Lemma dict_set_tous_app d kvs1 kvs2 :
  dict_set_tous d (kvs1 ++ kvs2) = dict_set_tous (dict_set_tous d kvs1) kvs2.
Proof. unfold dict_set_tous. by rewrite fold_left_app. Qed.

(** Writing fresh, distinct keys appends them. *)
Lemma dict_set_tous_frais d kvs :
  NoDup (map fst kvs) -> (forall k, k ∈ map fst kvs -> k ∉ dict_keys d) ->
  dict_set_tous d kvs = d ++ kvs.
Proof.
  revert d. induction kvs as [|[k v] kvs IH]; intros d Hnd Hfresh; simpl; [by rewrite app_nil_r|].
  apply NoDup_cons in Hnd as [Hk Hnd].
  unfold dict_set_tous in *. simpl. rewrite dict_set_notin by (apply Hfresh; left).
  rewrite IH; [by rewrite <-app_assoc|done|].
  intros k' Hk'. unfold dict_keys. rewrite map_app. simpl.
  rewrite elem_of_app, list_elem_of_singleton.
  intros [Hin | ->]; [|done].
  apply (Hfresh k'); [right; done|done].
Qed.

Lemma dict_set_Forall_values (Q : V -> Prop) d k v :
  Forall (fun kv => Q kv.2) d -> Q v -> Forall (fun kv => Q kv.2) (dict_set d k v).
Proof.
  induction d as [|[k' v'] d IH]; simpl; [by repeat constructor|].
  rewrite !Forall_cons. case_decide; simpl; [naive_solver|]. intros [? ?] ?. auto.
Qed.

Lemma dict_get_In_NoDup d k v : NoDup (dict_keys d) -> (k, v) ∈ d -> dict_get d k = Some v.
Proof.
  unfold dict_keys. induction d as [|[k' v'] d IH]; simpl; [set_solver|].
  rewrite NoDup_cons, elem_of_cons. intros [Hk Hnd] [[= -> ->]|Hin].
  - by rewrite decide_True.
  - rewrite decide_False by (intros ->; apply Hk, list_elem_of_fmap; by exists (k', v)). auto.
Qed.

Lemma dict_keys_is_Some d k : k ∈ dict_keys d <-> is_Some (dict_get d k).
Proof.
  rewrite <-not_eq_None_Some. split; intros H; [intros Hn; by apply dict_get_None in Hn|].
  destruct (decide (k ∈ dict_keys d)); [done|]. by apply dict_get_None in n.
Qed.

(** [d1 == d2] on dicts: the same length, and every item of [d1] is an
    item of [d2]. *)
Definition dict_eqb `{EqDecision V} (d1 d2 : dict K V) : bool :=
  bool_decide (length d1 = length d2) &&
  forallb (fun '(k, v) => bool_decide (dict_get d2 k = Some v)) d1.

(** On dicts (distinct keys) [==] is equality of the mappings, whatever
    the order of insertion. *)
Lemma dict_eqb_correct `{EqDecision V} d1 d2 :
  NoDup (dict_keys d1) -> NoDup (dict_keys d2) ->
  dict_eqb d1 d2 = true <-> forall k, dict_get d1 k = dict_get d2 k.
Proof.
  intros Hnd1 Hnd2. unfold dict_eqb.
  rewrite andb_true_iff, bool_decide_eq_true, forallb_forall.
  assert (length d1 = length (dict_keys d1) /\ length d2 = length (dict_keys d2)) as [Hl1 Hl2]
    by (unfold dict_keys; by rewrite !length_map).
  split.
  - intros [Hlen Hall].
    assert (forall k v, (k, v) ∈ d1 -> dict_get d2 k = Some v) as Hsub.
    { intros k v Hin. apply list_elem_of_In in Hin. specialize (Hall _ Hin). simpl in Hall.
      by apply bool_decide_eq_true in Hall. }
    assert (dict_keys d1 ≡ₚ dict_keys d2) as Hperm.
    { apply submseteq_length_Permutation; [|lia]. apply NoDup_submseteq; [done|].
      intros k ([k' v] & -> & Hin)%list_elem_of_fmap. apply dict_keys_is_Some.
      eexists. by apply Hsub. }
    intros k. destruct (dict_get d1 k) as [v|] eqn:E.
    + symmetry. by apply Hsub, dict_get_Some_In.
    + symmetry. apply dict_get_None. rewrite <-Hperm. by apply dict_get_None.
  - intros Hget. split.
    + rewrite Hl1, Hl2. apply Permutation_length, NoDup_Permutation; [done|done|].
      intros k. by rewrite !dict_keys_is_Some, Hget.
    + intros [k v] Hin. apply bool_decide_eq_true. rewrite <-Hget.
      apply dict_get_In_NoDup; [done|]. by apply list_elem_of_In.
Qed.

Lemma fold_left_ext_in {X} (f g : X -> K -> X) (l : list K) (x : X) :
  (forall a b, f a b = g a b) -> fold_left f l x = fold_left g l x.
Proof. intros Hfg. revert x. induction l; simpl; intros; rewrite ?Hfg; auto. Qed.
End Dict.

(** The sum of the values of a dict with integer values. *)
Definition dict_somme {K} (d : dict K Z) : Z := foldr (fun kv s => kv.2 + s)%Z 0%Z d.

Lemma dict_somme_set {K} `{EqDecision K} (d : dict K Z) k v :
  dict_somme (dict_set d k v) = (dict_somme d - default 0 (dict_get d k) + v)%Z.
Proof. induction d as [|[k' v'] d IH]; simpl; [lia|]. case_decide; simpl; lia. Qed.

(** ** Python lists

    Indexing a Python list out of range raises [IndexError], for a read
    ([l[i]]), a write ([l[i] = x]) and [l.pop()] on an empty list. *)

Section PyList.
Context {X : Type}.

(** [l[i]] *)
Definition py_get (l : list X) (i : nat) : Resultat X := of_option IndexError (l !! i).

(** [l[i] = x] *)
Definition py_set (l : list X) (i : nat) (x : X) : Resultat (list X) :=
  if decide (i < length l) then Ok (<[i:=x]> l) else raise IndexError.

(** [x = l.pop()]: the list without its last element, and that element. *)
Definition py_pop (l : list X) : Resultat (list X * X) :=
  match last l with
  | Some x => Ok (removelast l, x)
  | None => raise IndexError
  end.

Lemma py_get_Ok l i x : py_get l i = Ok x <-> l !! i = Some x.
Proof. unfold py_get. destruct (l !! i); simpl; split; congruence. Qed.

Lemma py_get_lt l i : i < length l -> exists x, py_get l i = Ok x /\ l !! i = Some x.
Proof.
  intros Hi. destruct (lookup_lt_is_Some_2 l i Hi) as [x Hx]. exists x.
  by rewrite py_get_Ok.
Qed.

Lemma py_set_lt l i x : i < length l -> py_set l i x = Ok (<[i:=x]> l).
Proof. intros. unfold py_set. by rewrite decide_True. Qed.

Lemma py_set_Ok l i x l' : py_set l i x = Ok l' <-> i < length l /\ l' = <[i:=x]> l.
Proof. unfold py_set. case_decide; split; naive_solver. Qed.

Lemma py_pop_app l x : py_pop (l ++ [x]) = Ok (l, x).
Proof. unfold py_pop. by rewrite last_snoc, removelast_last. Qed.

Lemma py_pop_nil : py_pop [] = raise IndexError.
Proof. reflexivity. Qed.

(** A write is a permutation of the list with the old element replaced. *)
Lemma insert_Permutation (l : list X) i x :
  i < length l -> <[i:=x]> l ≡ₚ x :: delete i l.
Proof.
  revert i. induction l as [|y l IH]; intros [|i] Hi; simpl in *; [lia|lia|done|].
  rewrite IH by lia. constructor.
Qed.

(** Exchanging two elements is a permutation. *)
Lemma swap_Permutation (l : list X) i j a b :
  l !! i = Some a -> l !! j = Some b -> <[i:=b]> (<[j:=a]> l) ≡ₚ l.
Proof.
  revert i j. induction l as [|y l IH]; intros [|i] [|j] Hi Hj; simpl in *; try done.
  - injection Hi as <-. injection Hj as <-. done.
  - injection Hi as <-. pose proof (lookup_lt_Some _ _ _ Hj).
    rewrite insert_Permutation by done. etrans; [apply perm_swap|].
    constructor. symmetry. by apply delete_Permutation.
  - injection Hj as <-. pose proof (lookup_lt_Some _ _ _ Hi).
    rewrite insert_Permutation by done. etrans; [apply perm_swap|].
    constructor. symmetry. by apply delete_Permutation.
  - constructor. auto.
Qed.
End PyList.

(** ** Automation shared by the components *)

Create HintDb huffman.
Create Rewrite HintDb huffman.
#[export] Hint Resolve dict_get_set_eq dict_keys_set_NoDup : huffman.
#[export] Hint Rewrite @dict_get_set_eq @bind_ret @bind_Erreur : huffman.

(** [par_calcul]: close a decidable proposition about concrete values by
    evaluating its decision procedure. *)
Ltac par_calcul := apply (bool_decide_unpack _); vm_compute; exact I.

(** [inv_ok]: split every hypothesis [(x ← m; k) = Ok y] into the equation of
    [m] and the rest, and discharge the impossible [Erreur _ = Ok _]. *)
Ltac inv_ok :=
  repeat match goal with
  | H : Erreur _ = Ok _ |- _ => discriminate H
  | H : Ok _ = Ok _ |- _ => injection H as H
  | H : mbind _ ?m = Ok _ |- _ =>
      let x := fresh "x" in let Hm := fresh "Hm" in
      apply bind_Ok in H as (x & Hm & H)
  end.

(** [dans_liste]: show [x ∈ l] where [l] is written with [++] and [::]
    and [x] is one of its items, syntactically. *)
Ltac dans_liste :=
  match goal with
  | |- _ ∈ _ => assumption
  | |- ?x ∈ ?l1 ++ ?l2 => apply elem_of_app; first [left; dans_liste | right; dans_liste]
  | |- ?x ∈ ?y :: ?l => first [apply list_elem_of_here | apply list_elem_of_further; dans_liste]
  end.
