(* ===== verification/Systeme.v ===== *)
(** * The world the programs run in: files and standard output

    The programs of [src/] read [test.txt] with [open(chemin, "r",
    encoding="utf-8").read()], write files with [open(chemin, "w")], and
    print.  A run is a function of a [Monde]: the files, by path, and the
    lines printed so far.  [IO A X] is a computation on it that returns an
    [X] or raises a Python exception; what it printed and wrote before the
    exception stays in the world, as in Python.

    A printed line is the list of the pieces of its f-string: the literal
    parts ([Lit]) and the values formatted in it ([Car], [Entier], ...);
    how Python renders an [int], a [float] or a [dict] is not modelled,
    the value and its format specification ([Format], the text after the
    [:] of a replacement field) are kept.  Python's floats are rationals
    ([Q]): the values printed are rounded to two decimals anyway.

    [Caracteres A] is the interface the characters of the texts provide:
    the ASCII characters the code writes as literals (['0'], ['1'], [' '],
    ['\n'], ...) are characters of [A], by an injection. *)

From stdpp Require Import base list sets strings.
From Stdlib Require Import ZArith Ascii QArith.
From S2P Require Import Prelude.

(** ** Characters *)

Class Caracteres (A : Type) := {
  de_ascii : ascii -> A;
  de_ascii_inj :: Inj eq eq de_ascii
}.

#[export] Program Instance caracteres_ascii : Caracteres ascii := {| de_ascii c := c |}.

Section Lettres.
Context {A : Type} `{Caracteres A}.
Definition espace : A := de_ascii " ".
Definition saut_de_ligne : A := de_ascii "010".
Definition tabulation : A := de_ascii "009".
Definition retour_chariot : A := de_ascii "013".
End Lettres.

(** ** Printed lines *)

Inductive Segment (A : Type) : Type :=
  | Lit (s : string)
  | Car (c : A)
  | Repr (c : A)
  | Chaine (t : list A)
  | Bits (t : chaine)
  | Entier (z : Z)
  | Flottant (q : Q)
  | Dico (d : list (A * Z))
  | Format (spec : string) (s : Segment A).
Arguments Lit {A} s.
Arguments Car {A} c.
Arguments Repr {A} c.
Arguments Chaine {A} t.
Arguments Bits {A} t.
Arguments Entier {A} z.
Arguments Flottant {A} q.
Arguments Dico {A} d.
Arguments Format {A} spec s.

Definition Ligne (A : Type) := list (Segment A).

(** [s * n] on a Python [str] *)
Fixpoint repeter (n : nat) (s : string) : string :=
  match n with O => EmptyString | S n => s ++ repeter n s end.

(** The string ["\n"]. *)
Definition nl : string := String (ascii_of_nat 10) EmptyString.

(** The string of one double quote. *)
Definition guillemet : string := String (ascii_of_nat 34) EmptyString.

(** ** Files and the world *)

(** The contents of a file: text in UTF-8, or bytes that are not. *)
Inductive Fichier (A : Type) : Type :=
  | Illisible
  | Texte (t : list A).
Arguments Illisible {A}.
Arguments Texte {A} t.

Record Monde (A : Type) : Type := mkMonde {
  fichiers : dict string (Fichier A);
  sortie : list (Ligne A)
}.
Arguments mkMonde {A} fichiers sortie.
Arguments fichiers {A} m.
Arguments sortie {A} m.

Definition IO (A X : Type) : Type := Monde A -> Monde A * Resultat X.

#[export] Instance IO_ret {A} : MRet (IO A) := fun _ x w => (w, Ok x).
#[export] Instance IO_bind {A} : MBind (IO A) := fun _ _ k m w =>
  match m w with
  | (w', Ok x) => k x w'
  | (w', Erreur e) => (w', Erreur e)
  end.

Section IO.
Context {A : Type} `{EqDecision A} `{Caracteres A}.

(** A computation of the pure model, inside a run. *)
Definition de_resultat {X} (r : Resultat X) : IO A X := fun w => (w, r).

(** [raise e] *)
Definition lever {X} (e : Exception) : IO A X := fun w => (w, raise e).

(** [try: m except ...: h(e)]: [h] decides, for the exception raised, what
    the handler does; an exception it does not catch it raises again. *)
Definition rattraper {X} (m : IO A X) (h : Exception -> IO A X) : IO A X := fun w =>
  match m w with
  | (w', Erreur e) => h e w'
  | r => r
  end.

(** [assert condition] *)
Definition affirmer (condition : bool) : IO A unit :=
  if condition then mret tt else lever AssertionError.

(** [print(...)] *)
Definition imprimer (l : Ligne A) : IO A unit :=
  fun w => (mkMonde (fichiers w) (sortie w ++ [l]), Ok tt).

(** [for x in l: f(x)] *)
Fixpoint pour_chaque {X} (f : X -> IO A unit) (l : list X) : IO A unit :=
  match l with
  | [] => mret tt
  | x :: l => _ ← f x; pour_chaque f l
  end.

(** Universal newlines, as [open] in text mode reads: ["\r\n"] and a lone
    ["\r"] become ["\n"].  [apres_cr]: the previous character was ['\r']. *)
Fixpoint traduire_fins_de_ligne (apres_cr : bool) (t : list A) : list A :=
  match t with
  | [] => []
  | c :: t' =>
      if decide (c = retour_chariot) then saut_de_ligne :: traduire_fins_de_ligne true t'
      else if apres_cr && bool_decide (c = saut_de_ligne) then traduire_fins_de_ligne false t'
      else c :: traduire_fins_de_ligne false t'
  end.

(** [open(chemin, "r", encoding="utf-8").read()] *)
Definition lire (chemin : string) : IO A (list A) := fun w =>
  match dict_get (fichiers w) chemin with
  | None => (w, raise FileNotFoundError)
  | Some Illisible => (w, raise UnicodeDecodeError)
  | Some (Texte t) => (w, Ok (traduire_fins_de_ligne false t))
  end.

(** [with open(chemin, "w") as f: f.write(texte)] *)
Definition ecrire (chemin : string) (texte : list A) : IO A unit := fun w =>
  (mkMonde (dict_set (fichiers w) chemin (Texte texte)) (sortie w), Ok tt).

(** A string of bits, as a [str] of the text's characters. *)
Definition bits_en_texte (bits : chaine) : list A := map de_ascii bits.

(** [m] only prints, the lines [l]: it reads and writes no file and
    raises nothing. *)
Definition imprime (m : IO A unit) (l : list (Ligne A)) : Prop :=
  forall w, m w = (mkMonde (fichiers w) (sortie w ++ l), Ok tt).

(** ** Lemmas *)

Lemma bind_imprime {X} (m : IO A unit) l (k : unit -> IO A X) w :
  imprime m l -> (x ← m; k x) w = k tt (mkMonde (fichiers w) (sortie w ++ l)).
Proof. intros Hm. unfold mbind, IO_bind. by rewrite Hm. Qed.

Lemma bind_de_resultat_Ok {X Y} (x : X) (k : X -> IO A Y) w :
  (y ← de_resultat (Ok x); k y) w = k x w.
Proof. reflexivity. Qed.

Lemma bind_de_resultat_Erreur {X Y} e (k : X -> IO A Y) w :
  (y ← de_resultat (Erreur e); k y) w = (w, Erreur e).
Proof. reflexivity. Qed.

Lemma bind_lire {Y} chemin t (k : list A -> IO A Y) w :
  dict_get (fichiers w) chemin = Some (Texte t) ->
  (x ← lire chemin; k x) w = k (traduire_fins_de_ligne false t) w.
Proof. intros Hg. unfold mbind, IO_bind, lire. by rewrite Hg. Qed.

Lemma imprime_imprimer (l : Ligne A) : imprime (imprimer l) [l].
Proof. intros w. reflexivity. Qed.

Lemma imprime_de_resultat : imprime (de_resultat (Ok tt)) [].
Proof. intros w. by rewrite app_nil_r; destruct w. Qed.

Lemma imprime_de_resultat_bind {X} (r : Resultat X) x (k : X -> IO A unit) l :
  r = Ok x -> imprime (k x) l -> imprime (y ← de_resultat r; k y) l.
Proof. intros -> Hk w. apply Hk. Qed.

Lemma imprime_affirmer b : b = true -> imprime (affirmer b) [].
Proof. intros -> w. by rewrite app_nil_r; destruct w. Qed.

Lemma imprime_seq (m1 m2 : IO A unit) l1 l2 :
  imprime m1 l1 -> imprime m2 l2 -> imprime (_ ← m1; m2) (l1 ++ l2).
Proof. intros H1 H2 w. rewrite (bind_imprime m1 l1) by done. rewrite H2. simpl. by rewrite app_assoc. Qed.

Lemma saut_de_ligne_retour_chariot : saut_de_ligne ≠ retour_chariot.
Proof. unfold saut_de_ligne, retour_chariot. intros Heq%(inj de_ascii). discriminate. Qed.

(** Text read from a file has no ['\r']. *)
Lemma traduire_sans_cr b t : retour_chariot ∉ traduire_fins_de_ligne b t.
Proof.
  revert b. induction t as [|c t IH]; intros b; simpl; [set_solver|].
  pose proof saut_de_ligne_retour_chariot.
  case_decide; [set_solver|]. destruct (b && _); set_solver.
Qed.

(** A text without ['\r'] is read back as written. *)
Lemma traduire_identite t : retour_chariot ∉ t -> traduire_fins_de_ligne false t = t.
Proof.
  induction t as [|c t IH]; intros Ht; simpl; [done|].
  rewrite not_elem_of_cons in Ht. destruct Ht as [Hc Ht].
  rewrite decide_False by done. simpl. by rewrite IH.
Qed.

(** Bits are made of ['0'] and ['1']: they have no ['\r']. *)
Lemma bits_sans_cr bits :
  Forall (fun b => b = b0 \/ b = b1) bits -> retour_chariot ∉ bits_en_texte bits.
Proof.
  intros Hb. unfold bits_en_texte, retour_chariot. rewrite list_elem_of_fmap.
  intros (b & Heq%(inj de_ascii) & Hin). rewrite Forall_forall in Hb.
  destruct (Hb b Hin); subst; discriminate.
Qed.

(** A loop whose body prints one line per item prints the lines in order. *)
Lemma pour_chaque_imprimer {X} (f : X -> IO A unit) (g : X -> Ligne A) l w :
  (forall x w, f x w = (mkMonde (fichiers w) (sortie w ++ [g x]), Ok tt)) ->
  pour_chaque f l w = (mkMonde (fichiers w) (sortie w ++ map g l), Ok tt).
Proof.
  intros Hf. revert w. induction l as [|x l IH]; intros w; simpl.
  - by rewrite app_nil_r; destruct w.
  - unfold mbind, IO_bind. rewrite Hf, IH. simpl. by rewrite <-app_assoc.
Qed.

Lemma imprime_pour_chaque {X} (f : X -> IO A unit) (g : X -> Ligne A) l :
  (forall x, imprime (f x) [g x]) -> imprime (pour_chaque f l) (map g l).
Proof. intros Hf w. by apply pour_chaque_imprimer. Qed.

Lemma imprime_pour_chaque_imprimer {X} (g : X -> Ligne A) l :
  imprime (pour_chaque (fun x => imprimer (g x)) l) (map g l).
Proof. apply imprime_pour_chaque. intros x. apply imprime_imprimer. Qed.

Lemma bind_io_Ok {X Y} (m : IO A X) (k : X -> IO A Y) w w' x :
  m w = (w', Ok x) -> (y ← m; k y) w = k x w'.
Proof. intros Hm. unfold mbind, IO_bind. by rewrite Hm. Qed.

Lemma bind_io_Erreur {X Y} (m : IO A X) (k : X -> IO A Y) w w' e :
  m w = (w', Erreur e) -> (y ← m; k y) w = (w', Erreur e).
Proof. intros Hm. unfold mbind, IO_bind. by rewrite Hm. Qed.

Lemma imprimer_sortie (l : Ligne A) w :
  imprimer l w = (mkMonde (fichiers w) (sortie w ++ [l]), Ok tt).
Proof. reflexivity. Qed.

Lemma lire_ecrire chemin texte w :
  retour_chariot ∉ texte ->
  (_ ← ecrire chemin texte; lire chemin) w =
  (mkMonde (dict_set (fichiers w) chemin (Texte texte)) (sortie w), Ok texte).
Proof.
  intros Hcr. unfold mbind, IO_bind, ecrire, lire. simpl.
  by rewrite dict_get_set_eq, traduire_identite.
Qed.
End IO.

Create HintDb imprime.

(** [imprime m ?l] for a computation on constants: [print]s, [assert]s
    and pure steps that evaluate to [Ok tt], in sequence. *)
Ltac imprime_calcul :=
  lazymatch goal with
  | |- imprime (mbind (fun _ => _) _) _ => eapply imprime_seq; [imprime_calcul|imprime_calcul]
  | |- imprime (imprimer _) _ => apply imprime_imprimer
  | |- imprime (affirmer _) _ => apply imprime_affirmer; vm_compute; reflexivity
  | |- imprime (de_resultat ?r) _ =>
      let E := fresh "E" in
      assert (E : r = Ok tt) by (vm_compute; reflexivity); rewrite E; apply imprime_de_resultat
  | |- imprime (pour_chaque (fun _ => imprimer _) _) _ => apply imprime_pour_chaque_imprimer
  | |- imprime ?m _ =>
      first [solve [eauto with imprime] | progress (unfold m; cbv beta zeta); imprime_calcul]
  end.

(** [l1 `suffix_of` l2] for two lists written out. *)
Ltac suffixe := repeat first [reflexivity | apply suffix_cons_r | apply suffix_app_r].

(** One step of a run: the first computation of a sequence only prints. *)
Ltac avancer :=
  match goal with
  | |- context [ @mbind _ _ _ _ ?k ?m ?w ] =>
      erewrite (bind_imprime m _ k w) by imprime_calcul; cbn [fichiers sortie]
  end.
