(* ===== verification/Tri.v ===== *)
(** * Python's [sorted] with a key

    The display functions list the frequency table with
    [sorted(frequences.items(), key=lambda x: x[1], reverse=True)] and the
    code table with [sorted(codes.items(), key=lambda x: len(x[1]))].
    Python's [sorted] is stable: items with equal keys keep their order,
    also with [reverse=True].  [py_sorted] is an insertion sort on the key
    (negated for [reverse=True]); [py_sorted_spec] shows it returns the
    only list that is a permutation of the input, ordered by the key, and
    keeps the order of the items of each key: the list CPython's Timsort
    returns, whatever algorithm computes it. *)

From stdpp Require Import base list sorting.
From Stdlib Require Import ZArith.
From S2P Require Import Prelude.

Section Tri.
Context {X : Type} (cle : X -> Z).

(** [x] goes before the first item of larger key. *)
Fixpoint inserer (x : X) (l : list X) : list X :=
  match l with
  | [] => [x]
  | y :: l' => if decide (cle x < cle y)%Z then x :: y :: l' else y :: inserer x l'
  end.

Definition trier (l : list X) : list X := foldl (fun acc x => inserer x acc) [] l.

(** Ordered by the key. *)
Definition ordonne (l : list X) : Prop := StronglySorted (fun x y => cle x <= cle y)%Z l.

(** The items of key [k], in order. *)
Definition de_cle (k : Z) (l : list X) : list X := filter (fun x => cle x = k) l.

(** ** Lemmas *)

Lemma inserer_perm x l : inserer x l ≡ₚ x :: l.
Proof.
  induction l as [|y l IH]; simpl; [done|]. case_decide; [done|].
  rewrite IH. apply perm_swap.
Qed.

Lemma trier_snoc l x : trier (l ++ [x]) = inserer x (trier l).
Proof. unfold trier. by rewrite foldl_app. Qed.

Lemma trier_perm l : trier l ≡ₚ l.
Proof.
  induction l as [|x l IH] using rev_ind; [done|].
  rewrite trier_snoc, inserer_perm, IH. by rewrite Permutation_app_comm.
Qed.

Lemma inserer_ordonne x l : ordonne l -> ordonne (inserer x l).
Proof.
  unfold ordonne. induction l as [|y l IH]; intros Hl; simpl; [by repeat constructor|].
  apply StronglySorted_cons in Hl as [Hy Hl].
  case_decide.
  - apply StronglySorted_cons. split; [|by apply StronglySorted_cons].
    constructor; [lia|]. eapply Forall_impl; [exact Hy|]. simpl. lia.
  - apply StronglySorted_cons. split; [|by apply IH].
    rewrite inserer_perm. constructor; [lia|done].
Qed.

Lemma trier_ordonne l : ordonne (trier l).
Proof.
  induction l as [|x l IH] using rev_ind; [constructor|].
  rewrite trier_snoc. by apply inserer_ordonne.
Qed.

Lemma de_cle_plus_grand k l : Forall (fun z => k < cle z)%Z l -> de_cle k l = [].
Proof.
  unfold de_cle. induction 1 as [|z l Hz _ IH]; [done|].
  rewrite filter_cons, decide_False by lia. done.
Qed.

(** Inserting [x] into an ordered list puts it after the items of its key. *)
Lemma inserer_de_cle x l k :
  ordonne l -> de_cle k (inserer x l) = de_cle k l ++ de_cle k [x].
Proof.
  unfold ordonne. induction l as [|y l IH]; intros Hl; simpl; [done|].
  apply StronglySorted_cons in Hl as [Hy Hl].
  case_decide as Hxy.
  - destruct (decide (cle x = k)) as [<-|Hk].
    + assert (de_cle (cle x) (y :: l) = []) as E.
      { apply de_cle_plus_grand. constructor; [done|]. eapply Forall_impl; [exact Hy|]. simpl. lia. }
      revert E. unfold de_cle. intros E. rewrite (filter_cons _ x), decide_True, E by done.
      rewrite filter_cons, decide_True by done. by rewrite filter_nil.
    + unfold de_cle. rewrite !filter_cons. repeat case_decide; try done; simpl; by rewrite ?filter_nil, ?app_nil_r.
  - unfold de_cle in *. rewrite !filter_cons. case_decide; simpl; by rewrite IH.
Qed.

Lemma trier_de_cle l k : de_cle k (trier l) = de_cle k l.
Proof.
  induction l as [|x l IH] using rev_ind; [done|].
  rewrite trier_snoc, inserer_de_cle by apply trier_ordonne. unfold de_cle in *.
  by rewrite IH, filter_app.
Qed.

Lemma de_cle_elem k l z : z ∈ de_cle k l -> z ∈ l.
Proof. unfold de_cle. rewrite list_elem_of_filter. tauto. Qed.

(** Two ordered lists with the same items of each key, in the same
    order, are equal. *)
Lemma ordonne_unique l1 l2 :
  ordonne l1 -> ordonne l2 -> (forall k, de_cle k l1 = de_cle k l2) -> l1 = l2.
Proof.
  unfold ordonne. intros H1. revert l2.
  induction H1 as [|x l1 _ IH Hx]; intros l2 H2 Hk.
  - destruct l2 as [|y l2]; [done|]. specialize (Hk (cle y)).
    unfold de_cle in Hk. rewrite filter_cons, decide_True in Hk by done. discriminate.
  - destruct H2 as [|y l2 H2 Hy].
    + specialize (Hk (cle x)). unfold de_cle in Hk.
      rewrite filter_cons, decide_True in Hk by done. discriminate.
    + assert (cle x = cle y) as Hxy.
      { assert (y ∈ x :: l1) as Hy1%elem_of_cons.
        { apply (de_cle_elem (cle y)). rewrite Hk. apply list_elem_of_filter. split; [done|left]. }
        assert (x ∈ y :: l2) as Hx2%elem_of_cons.
        { apply (de_cle_elem (cle x)). rewrite <-Hk. apply list_elem_of_filter. split; [done|left]. }
        rewrite Forall_forall in Hx, Hy.
        destruct Hy1 as [->|Hy1]; [done|]. destruct Hx2 as [->|Hx2]; [done|].
        specialize (Hx y Hy1). specialize (Hy x Hx2). lia. }
      pose proof (Hk (cle x)) as E. unfold de_cle in E.
      rewrite !filter_cons, !decide_True in E by done. injection E as <- _.
      f_equal. apply IH; [done|]. intros k. specialize (Hk k). unfold de_cle in *.
      rewrite !filter_cons in Hk. case_decide; [by injection Hk|done].
Qed.
End Tri.

(** The key [sorted] orders by: the key, or its opposite for
    [reverse=True] (which keeps equal keys in their order). *)
Definition cle_tri {X} (cle : X -> Z) (reverse : bool) : X -> Z :=
  if reverse then fun x => (- cle x)%Z else cle.

(** [sorted(l, key=cle, reverse=reverse)] *)
Definition py_sorted {X} (cle : X -> Z) (reverse : bool) (l : list X) : list X :=
  trier (cle_tri cle reverse) l.

Lemma py_sorted_perm {X} (cle : X -> Z) reverse l : py_sorted cle reverse l ≡ₚ l.
Proof. apply trier_perm. Qed.

(** [sorted] returns the one list ordered by the key (by decreasing key
    for [reverse=True]) in which the items of each key keep their order. *)
Lemma py_sorted_spec {X} (cle : X -> Z) reverse l l' :
  py_sorted cle reverse l = l' <->
  ordonne (cle_tri cle reverse) l' /\
  forall k, de_cle (cle_tri cle reverse) k l' = de_cle (cle_tri cle reverse) k l.
Proof.
  unfold py_sorted. split.
  - intros <-. split; [apply trier_ordonne|apply trier_de_cle].
  - intros [Ho Hk]. apply (ordonne_unique (cle_tri cle reverse)); [apply trier_ordonne|done|].
    intros k. by rewrite trier_de_cle, Hk.
Qed.

Lemma StronglySorted_mono {X} (R R' : X -> X -> Prop) l :
  (forall x y, R x y -> R' x y) -> StronglySorted R l -> StronglySorted R' l.
Proof.
  intros HR. induction 1 as [|x l _ IH Hx]; constructor; [done|].
  eapply Forall_impl; [exact Hx|]. auto.
Qed.

(** [sorted(l, key=cle)]: by increasing key. *)
Lemma py_sorted_croissant {X} (cle : X -> Z) l :
  StronglySorted (fun x y => cle x <= cle y)%Z (py_sorted cle false l).
Proof. apply trier_ordonne. Qed.

(** [sorted(l, key=cle, reverse=True)]: by decreasing key. *)
Lemma py_sorted_decroissant {X} (cle : X -> Z) l :
  StronglySorted (fun x y => cle y <= cle x)%Z (py_sorted cle true l).
Proof.
  eapply StronglySorted_mono; [|apply trier_ordonne]. simpl. intros. lia.
Qed.
