(* ===== verification/Noeud.v ===== *)
(** * The tree node [Noeud]

    [src/analyse_frequences.py] (class [Noeud], lines 7-35) and
    [src/huffman/construction_arbre.py] (class [Noeud], lines 3-11) define the
    same Python object: a character ([None] for an internal node), a
    frequency, and two nullable children.  The model keeps the nullable
    children ([option Noeud]), so that the checks the code makes on them
    ([verifier_arbre_huffman], [None.char] in the decoder) can be stated.

    This file also holds the specification-side functions on trees used by
    the theorems of the later files: the list of leaves, the total weight,
    and the structural well-formedness predicate [arbre_valide]. *)

From stdpp Require Import base list sets strings.
From Stdlib Require Import ZArith Ascii.
From S2P Require Import Prelude.

(** A Python [Noeud(caractere, frequence, gauche, droit)]. *)
Inductive Noeud (A : Type) : Type := mkNoeud {
  caractere : option A;
  frequence : Z;
  gauche : option (Noeud A);
  droit : option (Noeud A)
}.
Arguments mkNoeud {A} caractere frequence gauche droit.
Arguments caractere {A} n.
Arguments frequence {A} n.
Arguments gauche {A} n.
Arguments droit {A} n.

Section Noeud.
Context {A : Type}.

(** [Noeud(caractere=c, frequence=f)]: the constructor with its default
    children [None] ([creer_noeuds_feuilles], [construire_arbre]). *)
Definition feuille (c : A) (f : Z) : Noeud A := mkNoeud (Some c) f None None.

(** [Noeud(None, g.frequence + d.frequence, g, d)]: the parent node of the
    merge loop. *)
Definition fusion (g d : Noeud A) : Noeud A :=
  mkNoeud None (frequence g + frequence d) (Some g) (Some d).

(** [Noeud.est_feuille]: no children. *)
Definition est_feuille (n : Noeud A) : bool :=
  match gauche n, droit n with None, None => true | _, _ => false end.

(** [Noeud.__lt__]: nodes are ordered by frequency only; [heapq] uses
    nothing else. *)
Definition noeud_lt (a b : Noeud A) : bool := (frequence a <? frequence b)%Z.

(** Induction through the nullable children. *)
Lemma Noeud_ind' (P : Noeud A -> Prop) :
  (forall c f g d, (forall n, g = Some n -> P n) -> (forall n, d = Some n -> P n) ->
     P (mkNoeud c f g d)) ->
  forall n, P n.
Proof.
  intros H. fix IH 1. intros [c f g d]. apply H.
  - destruct g as [g|]; [intros ? [= <-]; apply IH|discriminate].
  - destruct d as [d|]; [intros ? [= <-]; apply IH|discriminate].
Qed.

(** ** Specification-side functions *)

(** The leaves of a tree, left to right. *)
Fixpoint feuilles (n : Noeud A) : list (Noeud A) :=
  match gauche n, droit n with
  | None, None => [n]
  | g, d =>
      match g with Some g' => feuilles g' | None => [] end ++
      match d with Some d' => feuilles d' | None => [] end
  end.

(** A structurally sound Huffman tree: a leaf carries a character and no
    child, an internal node carries no character and both children. *)
Inductive arbre_valide : Noeud A -> Prop :=
  | valide_feuille c f : arbre_valide (mkNoeud (Some c) f None None)
  | valide_interne f g d :
      arbre_valide g -> arbre_valide d -> arbre_valide (mkNoeud None f (Some g) (Some d)).

(** Every internal node carries the sum of its children's frequencies. *)
Fixpoint freq_coherentes (n : Noeud A) : Prop :=
  match gauche n, droit n with
  | Some g, Some d =>
      frequence n = (frequence g + frequence d)%Z /\ freq_coherentes g /\ freq_coherentes d
  | _, _ => True
  end.

(** The sum of the frequencies of a list of nodes. *)
Definition poids (l : list (Noeud A)) : Z := foldr (fun n s => frequence n + s)%Z 0%Z l.

(** Every leaf of [l] has a character and no child, and a positive
    frequency (the nodes [creer_noeuds_feuilles] produces from counts). *)
Definition feuille_positive (n : Noeud A) : Prop :=
  exists c f, n = feuille c f /\ (0 < f)%Z.

(** A tree whose every node has a positive frequency. *)
Fixpoint freq_positives (n : Noeud A) : Prop :=
  (0 < frequence n)%Z /\
  match gauche n with Some g => freq_positives g | None => True end /\
  match droit n with Some d => freq_positives d | None => True end.

(** The number of internal nodes. *)
Fixpoint noeuds_internes (n : Noeud A) : nat :=
  match gauche n, droit n with
  | None, None => 0
  | g, d =>
      S (match g with Some g' => noeuds_internes g' | None => 0 end +
         match d with Some d' => noeuds_internes d' | None => 0 end)
  end.

(** ** Lemmas *)

Lemma feuilles_fusion g d : feuilles (fusion g d) = feuilles g ++ feuilles d.
Proof. reflexivity. Qed.

Lemma feuilles_feuille c f : feuilles (feuille c f) = [feuille c f].
Proof. reflexivity. Qed.

Lemma poids_app l1 l2 : poids (l1 ++ l2) = (poids l1 + poids l2)%Z.
Proof. induction l1; simpl; lia. Qed.

Lemma poids_perm l1 l2 : l1 ≡ₚ l2 -> poids l1 = poids l2.
Proof. induction 1; simpl; lia. Qed.

Lemma valide_fusion g d : arbre_valide g -> arbre_valide d -> arbre_valide (fusion g d).
Proof. by constructor. Qed.

Lemma coherentes_fusion g d :
  freq_coherentes g -> freq_coherentes d -> freq_coherentes (fusion g d).
Proof. done. Qed.

(** The frequency of a valid, coherent tree is the weight of its leaves. *)
Lemma valide_frequence n :
  arbre_valide n -> freq_coherentes n -> frequence n = poids (feuilles n).
Proof.
  induction 1 as [|f g d _ IHg _ IHd]; [simpl; lia|].
  intros (-> & Hg & Hd). simpl. rewrite poids_app, IHg, IHd by done. lia.
Qed.

Lemma valide_feuilles_nonvide n : arbre_valide n -> feuilles n <> [].
Proof. induction 1; [done|]. simpl. by intros [? _]%app_eq_nil. Qed.

(** A binary tree has one internal node fewer than leaves. *)
Lemma valide_noeuds_internes n :
  arbre_valide n -> noeuds_internes n + 1 = length (feuilles n).
Proof. induction 1; simpl; [done|]. rewrite length_app. lia. Qed.

(** A valid tree with two leaves or more has an internal root. *)
Lemma valide_racine_interne n :
  arbre_valide n -> 2 <= length (feuilles n) ->
  exists f g d, n = mkNoeud None f (Some g) (Some d) /\ arbre_valide g /\ arbre_valide d.
Proof. intros [c f|f g d Hg Hd] Hl; [simpl in Hl; lia|]. by exists f, g, d. Qed.

Lemma freq_positives_fusion g d :
  freq_positives g -> freq_positives d -> freq_positives (fusion g d).
Proof. destruct g, d; cbn; intuition lia. Qed.

Lemma feuille_positive_valide n :
  feuille_positive n -> arbre_valide n /\ freq_positives n /\ freq_coherentes n.
Proof. intros (c & f & -> & Hf). split; [constructor|]. by repeat split. Qed.
End Noeud.

(** The tree both builders return for the text ["aabbc"] (frequencies
    a:2, b:2, c:1), as CPython's [heapq] orders the merges:
    [a] alone on the left, [c] and [b] below the right child. *)
Definition arbre_aabbc : Noeud ascii :=
  fusion (feuille "a"%char 2) (fusion (feuille "c"%char 1) (feuille "b"%char 2)).

#[export] Hint Constructors arbre_valide : huffman.
#[export] Hint Resolve freq_positives_fusion valide_fusion coherentes_fusion : huffman.
#[export] Hint Rewrite @feuilles_fusion @feuilles_feuille @poids_app : huffman.
