(* ===== verification/Validation.v ===== *)
(** * The validator: the checks of [src/encodage.py]

    [verifier_arbre_huffman] (lines 39-75) checks the shape of a tree
    before [generer_codes_huffman] traverses it; [verifier_codes_caracteres]
    (182-186), [verifier_propriete_prefixe] (188-194) and
    [verifier_texte_encode_non_vide] (196-197) are the checks the module's
    main block asserts after encoding.  Each is a boolean function here, and
    each is related to the property it decides. *)

From stdpp Require Import base list sets strings.
From Stdlib Require Import ZArith Ascii.
From S2P Require Import Prelude Noeud.

Section Validation.
Context {A : Type}.

(** [verifier_arbre_huffman] on a node that is not [None]. *)
Fixpoint verifier_noeud (racine : Noeud A) : bool :=
  if est_feuille racine then
    match caractere racine with Some _ => true | None => false end &&
    (0 <? frequence racine)%Z &&
    match gauche racine with None => true | Some _ => false end &&
    match droit racine with None => true | Some _ => false end
  else
    match caractere racine with
    | None =>
        match gauche racine, droit racine with
        | Some g, Some d =>
            if (frequence racine <=? 0)%Z then false
            else verifier_noeud g && verifier_noeud d
        | _, _ => false
        end
    | Some _ => false
    end.

(** [verifier_arbre_huffman(racine)]: [None] is invalid. *)
Definition verifier_arbre_huffman (racine : option (Noeud A)) : bool :=
  match racine with None => false | Some n => verifier_noeud n end.

Lemma verifier_noeud_correct n :
  verifier_noeud n = true <-> arbre_valide n /\ freq_positives n.
Proof.
  induction n as [c f g d IHg IHd] using Noeud_ind'.
  destruct g as [g|], d as [d|], c as [c|]; simpl;
    rewrite ?andb_true_iff, ?Z.ltb_lt; split;
    try (intros [Hv _]; inversion Hv; fail); try done.
  - destruct (Z.leb_spec f 0); [done|].
    rewrite andb_true_iff, (IHg g), (IHd d) by done.
    intros [[] []]. split; [by constructor|]. by repeat split.
  - intros [Hv (Hf & Hg & Hd)]. inversion Hv; subst.
    destruct (Z.leb_spec f 0); [lia|].
    rewrite andb_true_iff, (IHg g), (IHd d) by done. done.
  - intros [[Hf _] _]. split; [constructor|]. done.
  - intros [_ [Hf _]]. done.
Qed.

(** C24: [verifier_arbre_huffman] returns [True] exactly on a tree that is
    not [None], whose internal nodes have no character and two children,
    whose leaves have a character and no child, and whose every frequency
    is positive. *)
Theorem verifier_arbre_huffman_correct (racine : option (Noeud A)) :
  verifier_arbre_huffman racine = true <->
  exists n, racine = Some n /\ arbre_valide n /\ freq_positives n.
Proof.
  destruct racine as [n|]; simpl; [|naive_solver].
  rewrite verifier_noeud_correct. naive_solver.
Qed.

Context `{EqDecision A}.

(** [verifier_codes_caracteres(table_codage, texte)]: every character of
    the text has a code. *)
Definition verifier_codes_caracteres (table_codage : dict A chaine) (texte : list A) : bool :=
  forallb (fun c => match dict_get table_codage c with Some _ => true | None => false end) texte.

(** [verifier_propriete_prefixe(table_codage)]: for every pair of
    distinct positions [i], [j] of [list(table_codage.values())],
    [codes[j].startswith(codes[i])] is false. *)
Definition verifier_propriete_prefixe (table_codage : dict A chaine) : bool :=
  let codes := dict_values table_codage in
  forallb (fun i => forallb (fun j =>
    negb (bool_decide (i <> j) &&
          match codes !! i, codes !! j with
          | Some ci, Some cj => bool_decide (ci `prefix_of` cj)
          | _, _ => false
          end))
    (seq 0 (length codes))) (seq 0 (length codes)).

(** [verifier_texte_encode_non_vide(texte_encode)] *)
Definition verifier_texte_encode_non_vide (texte_encode : chaine) : bool :=
  0 <? length texte_encode.

(** The property [verifier_propriete_prefixe] decides: no code is a prefix
    of a code at another position (so two equal codes also fail). *)
Definition sans_prefixe (codes : list chaine) : Prop :=
  forall i j ci cj, i <> j -> codes !! i = Some ci -> codes !! j = Some cj ->
    ~ ci `prefix_of` cj.

Lemma verifier_codes_caracteres_spec table texte :
  verifier_codes_caracteres table texte = true <->
  Forall (fun c => is_Some (dict_get table c)) texte.
Proof.
  unfold verifier_codes_caracteres. rewrite forallb_forall, Forall_forall.
  setoid_rewrite <-list_elem_of_In.
  split; intros H c Hc; specialize (H c Hc); by destruct (dict_get table c).
Qed.

Lemma verifier_propriete_prefixe_sound table :
  verifier_propriete_prefixe table = true -> sans_prefixe (dict_values table).
Proof.
  unfold verifier_propriete_prefixe, sans_prefixe.
  generalize (dict_values table) as codes. intros codes.
  rewrite forallb_forall. setoid_rewrite forallb_forall. setoid_rewrite in_seq.
  intros H i j ci cj Hij Hi Hj Hp.
  pose proof (lookup_lt_Some _ _ _ Hi). pose proof (lookup_lt_Some _ _ _ Hj).
  specialize (H i ltac:(lia) j ltac:(lia)). rewrite Hi, Hj in H.
  rewrite negb_true_iff, andb_false_iff in H.
  destruct H as [H|H]; apply bool_decide_eq_false in H; auto.
Qed.

Lemma verifier_propriete_prefixe_complete table :
  sans_prefixe (dict_values table) -> verifier_propriete_prefixe table = true.
Proof.
  unfold verifier_propriete_prefixe, sans_prefixe.
  generalize (dict_values table) as codes. intros codes.
  rewrite forallb_forall. setoid_rewrite forallb_forall.
  intros H i _ j _. rewrite negb_true_iff, andb_false_iff.
  destruct (decide (i = j)) as [->|Hij]; [left; apply bool_decide_eq_false; naive_solver|].
  right. destruct (codes !! i) eqn:Hi, (codes !! j) eqn:Hj; try done.
  apply bool_decide_eq_false. eauto.
Qed.

(** C25: [verifier_propriete_prefixe] returns [True] exactly when no code
    of the table is a prefix of the code at another position of
    [table_codage.values()] (so two equal codes make it fail). *)
Theorem verifier_propriete_prefixe_correct table :
  verifier_propriete_prefixe table = true <-> sans_prefixe (dict_values table).
Proof.
  split; [apply verifier_propriete_prefixe_sound|apply verifier_propriete_prefixe_complete].
Qed.

(** ** Prefix-freeness of composed code lists *)

Lemma sans_prefixe_singleton c : sans_prefixe [c].
Proof. intros [|[|i]] [|[|j]] ci cj; simpl; naive_solver. Qed.

Lemma sans_prefixe_app l1 l2 :
  sans_prefixe l1 -> sans_prefixe l2 ->
  (forall x y, x ∈ l1 -> y ∈ l2 -> ~ x `prefix_of` y /\ ~ y `prefix_of` x) ->
  sans_prefixe (l1 ++ l2).
Proof.
  intros H1 H2 H12 i j ci cj Hij Hi Hj.
  apply lookup_app_Some in Hi as [Hi|[Hil Hi]], Hj as [Hj|[Hjl Hj]].
  - eauto.
  - apply (H12 ci cj); eapply list_elem_of_lookup_2; eauto.
  - apply (H12 cj ci); eapply list_elem_of_lookup_2; eauto.
  - eapply (H2 (i - length l1) (j - length l1)); eauto. lia.
Qed.

Lemma sans_prefixe_cons_map b l : sans_prefixe l -> sans_prefixe (map (cons b) l).
Proof.
  intros H i j ci cj Hij Hi Hj Hp.
  apply list_lookup_fmap_Some_1 in Hi as (ci' & -> & Hi).
  apply list_lookup_fmap_Some_1 in Hj as (cj' & -> & Hj).
  apply (H i j ci' cj'); [done|done|done|]. by apply prefix_cons_inv_2 in Hp.
Qed.

(** Codes that start with different bits are not prefixes of each other. *)
Lemma sans_prefixe_deux_branches l0 l1 :
  sans_prefixe l0 -> sans_prefixe l1 ->
  sans_prefixe (map (cons b0) l0 ++ map (cons b1) l1).
Proof.
  intros H0 H1. apply sans_prefixe_app; [by apply sans_prefixe_cons_map..|].
  intros x y (x' & -> & _)%list_elem_of_fmap (y' & -> & _)%list_elem_of_fmap.
  split; intros Hp%prefix_cons_inv_1; discriminate.
Qed.
End Validation.

#[export] Hint Rewrite @verifier_noeud_correct : huffman.

(** ** Witnesses *)

(** [verifier_arbre_huffman] accepts the tree of ["aabbc"]. *)
Lemma verifier_arbre_huffman_correct_witness :
  exists n, Some arbre_aabbc = Some n /\ arbre_valide n /\ freq_positives n.
Proof. apply verifier_arbre_huffman_correct. vm_compute. reflexivity. Defined.

(** ['0'] is a prefix of ['01']: the table fails the check. *)
Lemma verifier_propriete_prefixe_correct_witness :
  ~ sans_prefixe (dict_values [("a"%char, [b0]); ("b"%char, [b0; b1])]).
Proof.
  rewrite <-verifier_propriete_prefixe_correct. vm_compute. discriminate.
Defined.
