(* ===== verification/Frequences.v ===== *)
(** * Frequency analysis

    [calculer_frequences] ([src/analyse_frequences.py], lines 62-84) counts
    the characters of a text into a dict, in the order of their first
    occurrence; [analyser_frequences] ([src/huffman/analyse_frequences.py],
    lines 5-6) is [dict(Counter(texte))], whose counting loop is
    [mapping[elem] = mapping.get(elem, 0) + 1] (CPython's
    [collections._count_elements]).  [creer_noeuds_feuilles] (lines 87-103)
    turns the dict into leaves, in the dict's order. *)

From stdpp Require Import base list sets strings.
From Stdlib Require Import ZArith Ascii.
From S2P Require Import Prelude Noeud.

Section Frequences.
Context {A : Type} `{EqDecision A}.

(** One turn of the loop of [calculer_frequences]:
    [if caractere in frequences: frequences[caractere] += 1
     else: frequences[caractere] = 1]. *)
Definition compter (frequences : dict A Z) (caractere : A) : dict A Z :=
  match dict_get frequences caractere with
  | Some f => dict_set frequences caractere (f + 1)%Z
  | None => dict_set frequences caractere 1%Z
  end.

(** [calculer_frequences(texte)] *)
Definition calculer_frequences (texte : list A) : dict A Z :=
  fold_left compter texte [].

(** One turn of [Counter]'s loop: [mapping[elem] = mapping_get(elem, 0) + 1]. *)
Definition compter_counter (mapping : dict A Z) (elem : A) : dict A Z :=
  dict_set mapping elem (default 0%Z (dict_get mapping elem) + 1)%Z.

(** [analyser_frequences(texte) = dict(Counter(texte))] *)
Definition analyser_frequences (texte : list A) : dict A Z :=
  fold_left compter_counter texte [].

(** [creer_noeuds_feuilles(frequences)]: one leaf per item, in order. *)
Definition creer_noeuds_feuilles (frequences : dict A Z) : list (Noeud A) :=
  map (fun '(c, f) => feuille c f) frequences.

(** The number of occurrences of [c] in [t]. *)
Definition occurrences (c : A) (t : list A) : Z := Z.of_nat (length (filter (fun x => x = c) t)).

(** ** Lemmas *)

Lemma calculer_frequences_snoc t c :
  calculer_frequences (t ++ [c]) = compter (calculer_frequences t) c.
Proof. unfold calculer_frequences. by rewrite fold_left_app. Qed.

Lemma occurrences_snoc c' t c :
  occurrences c' (t ++ [c]) = (occurrences c' t + if decide (c = c') then 1 else 0)%Z.
Proof.
  unfold occurrences. rewrite filter_app, length_app. simpl.
  rewrite filter_cons. case_decide; simpl; lia.
Qed.

Lemma occurrences_pos c t : c ∈ t -> (0 < occurrences c t)%Z.
Proof.
  intros Hc. unfold occurrences. destruct (filter (fun x => x = c) t) eqn:E.
  - exfalso. by eapply (filter_nil_not_elem_of (fun x => x = c) t c).
  - simpl. lia.
Qed.

Lemma occurrences_zero c t : c ∉ t -> occurrences c t = 0%Z.
Proof.
  unfold occurrences. induction t as [|x t IH]; [done|].
  rewrite not_elem_of_cons, filter_cons. intros [? ?]. case_decide; [congruence|]. auto.
Qed.

Lemma compter_get d c c' :
  dict_get (compter d c) c' =
  if decide (c = c') then Some (default 0 (dict_get d c) + 1)%Z else dict_get d c'.
Proof.
  unfold compter. case_decide as Hc; [subst|].
  - destruct (dict_get d c'); simpl; apply dict_get_set_eq.
  - destruct (dict_get d c); by rewrite dict_get_set_ne.
Qed.

Lemma compter_keys d c :
  dict_keys (compter d c) = dict_keys d ++ (if decide (c ∈ dict_keys d) then [] else [c]).
Proof.
  unfold compter. destruct (dict_get d c) eqn:E; case_decide as Hc.
  - rewrite dict_keys_set_in by done. by rewrite app_nil_r.
  - apply dict_get_None in Hc. congruence.
  - apply dict_get_None in E. done.
  - by rewrite dict_keys_set_notin.
Qed.

(** The count of every character, absent characters included. *)
Lemma calculer_frequences_get t c :
  dict_get (calculer_frequences t) c =
  if decide (c ∈ t) then Some (occurrences c t) else None.
Proof.
  induction t as [|x t IH] using rev_ind; [done|].
  rewrite calculer_frequences_snoc, compter_get, occurrences_snoc.
  destruct (decide (x = c)) as [<-|Hxc].
  - destruct (decide (x ∈ t ++ [x])); [|set_solver].
    rewrite IH. case_decide; simpl; [f_equal; lia|]. by rewrite occurrences_zero.
  - rewrite IH. case_decide; case_decide; try set_solver. f_equal. lia.
Qed.

Lemma calculer_frequences_keys t c :
  c ∈ dict_keys (calculer_frequences t) <-> c ∈ t.
Proof.
  pose proof (calculer_frequences_get t c) as E. split.
  - intros Hk. destruct (decide (c ∈ t)) as [|Hn]; [done|].
    apply dict_get_None in E. contradiction.
  - intros Hc. rewrite decide_True in E by done.
    destruct (decide (c ∈ dict_keys (calculer_frequences t))) as [|Hk]; [done|].
    apply dict_get_None in Hk. congruence.
Qed.

Lemma calculer_frequences_NoDup t : NoDup (dict_keys (calculer_frequences t)).
Proof.
  induction t as [|x t IH] using rev_ind; [constructor|].
  rewrite calculer_frequences_snoc, compter_keys.
  case_decide as Hx; [by rewrite app_nil_r|].
  apply NoDup_app. split_and!; [done| |apply NoDup_singleton]. set_solver.
Qed.

(** The two counting loops of the repository agree. *)
Lemma analyser_calculer_frequences t : analyser_frequences t = calculer_frequences t.
Proof.
  apply fold_left_ext_in. intros d c. unfold compter, compter_counter.
  by destruct (dict_get d c).
Qed.

Lemma calculer_frequences_pos t :
  Forall (fun kv => (0 < kv.2)%Z) (calculer_frequences t).
Proof.
  induction t as [|x t IH] using rev_ind; [constructor|].
  rewrite calculer_frequences_snoc. unfold compter.
  pose proof (calculer_frequences_get t x) as E.
  destruct (dict_get _ x) eqn:Ex; apply dict_set_Forall_values; auto; [|lia].
  case_decide as Hx; [|done]. injection E as ->. pose proof (occurrences_pos x t Hx). lia.
Qed.

Lemma calculer_frequences_somme t : dict_somme (calculer_frequences t) = Z.of_nat (length t).
Proof.
  induction t as [|x t IH] using rev_ind; [done|].
  rewrite calculer_frequences_snoc, length_app. unfold compter.
  destruct (dict_get _ x) eqn:Ex; rewrite dict_somme_set, Ex, IH; simpl; lia.
Qed.

Lemma creer_noeuds_feuilles_poids d : poids (creer_noeuds_feuilles d) = dict_somme d.
Proof. induction d as [|[c f] d IH]; simpl; [done|]. by rewrite IH. Qed.

Lemma creer_noeuds_feuilles_dict_positives (d : dict A Z) :
  Forall (fun kv => (0 < kv.2)%Z) d -> Forall feuille_positive (creer_noeuds_feuilles d).
Proof.
  intros Hpos. unfold creer_noeuds_feuilles.
  rewrite Forall_map. eapply Forall_impl; [done|]. intros [c f] Hf. by exists c, f.
Qed.

Lemma creer_noeuds_feuilles_positives t :
  Forall feuille_positive (creer_noeuds_feuilles (calculer_frequences t)).
Proof. apply creer_noeuds_feuilles_dict_positives, calculer_frequences_pos. Qed.

Lemma creer_noeuds_feuilles_length d : length (creer_noeuds_feuilles d) = length d.
Proof. apply length_map. Qed.

Lemma calculer_frequences_replicate c n :
  calculer_frequences (replicate (S n) c) = [(c, Z.of_nat (S n))].
Proof.
  induction n as [|n IH]; [done|].
  rewrite replicate_S_end, calculer_frequences_snoc, IH. unfold compter. simpl.
  rewrite decide_True by done. simpl. rewrite decide_True by done. do 3 f_equal. lia.
Qed.

(** Two distinct characters of a text are two keys of its frequencies. *)
Lemma calculer_frequences_deux t x y :
  x ∈ t -> y ∈ t -> x <> y -> 2 <= length (calculer_frequences t).
Proof.
  intros Hx Hy Hxy. apply calculer_frequences_keys in Hx, Hy.
  unfold dict_keys in Hx, Hy. rewrite <-(length_map fst).
  destruct (map fst (calculer_frequences t)) as [|z [|w l]]; simpl; try lia; set_solver.
Qed.
(** Each count of [calculer_frequences] is the number of occurrences of
    its key. *)
Lemma calculer_frequences_valeurs (texte : list A) :
  Forall (fun '(c, f) => f = occurrences c texte) (calculer_frequences texte).
Proof.
  apply Forall_forall. intros [c f] Hin.
  pose proof (dict_get_In_NoDup _ c f (calculer_frequences_NoDup texte) Hin) as Hget.
  rewrite calculer_frequences_get in Hget. case_decide; congruence.
Qed.

Lemma calculer_frequences_elem (texte : list A) c f :
  (c, f) ∈ calculer_frequences texte <-> c ∈ texte /\ f = occurrences c texte.
Proof.
  split.
  - intros Hin. pose proof (dict_get_In_NoDup _ c f (calculer_frequences_NoDup texte) Hin) as Hget.
    rewrite calculer_frequences_get in Hget. case_decide; naive_solver.
  - intros [Hc ->]. apply dict_get_Some_In. rewrite calculer_frequences_get. by case_decide.
Qed.

(** C27: both counting loops of the repository, [calculer_frequences]
    and [dict(Counter(texte))], return the same dict; its keys are
    distinct, a character of the text is mapped to its number of
    occurrences, and a character not in the text is absent. *)
Theorem analyser_frequences_correct t :
  analyser_frequences t = calculer_frequences t /\
  NoDup (dict_keys (calculer_frequences t)) /\
  forall c, dict_get (calculer_frequences t) c =
    if decide (c ∈ t) then Some (occurrences c t) else None.
Proof.
  split_and!; [apply analyser_calculer_frequences|apply calculer_frequences_NoDup|].
  apply calculer_frequences_get.
Qed.

End Frequences.
