(* ===== verification/Tas.v ===== *)
(** * The min-priority queue: Python's [heapq]

    Both tree builders ([construire_arbre_huffman] in
    [src/construction_arbre.py], [construire_arbre] in
    [src/huffman/construction_arbre.py]) keep their forest in a Python list
    managed by [heapq.heapify], [heapq.heappop] and [heapq.heappush], with
    [Noeud.__lt__] as the only comparison.  [heapq] is a library the sources
    call, so this file holds:
    - the interface the builders rely on, as two classes: [Tas] (the three
      operations) and [TasLois] (what they do to the multiset of elements);
    - [Heapq], a model of CPython's [Lib/heapq.py] ([heappush], [heappop],
      [heapify], [_siftdown], [_siftup]), with its in-place list updates and
      [IndexError]s, and the proof that it satisfies the interface.
    The builders' exact output (the tie-breaking among equal frequencies)
    depends on the array layout [heapq] maintains, which is why [Heapq]
    follows [Lib/heapq.py] line by line rather than being any priority
    queue.  The loops take fuel; [Heapq.siftdown_fuel] and
    [Heapq.siftup_fuel] show the fuel given is never the reason they stop. *)

From stdpp Require Import base list sets strings.
From Stdlib Require Import ZArith Ascii.
From S2P Require Import Prelude.

(** ** The interface *)

(** The operations of [heapq] on a Python list with comparison [lt]. *)
Class Tas (E : Type) (lt : E -> E -> bool) := {
  tas_heapify : list E -> Resultat (list E);
  tas_heappush : list E -> E -> Resultat (list E);
  tas_heappop : list E -> Resultat (E * list E)
}.

(** What the builders need of them: no exception except [heappop] on an
    empty list, and no element lost or created. *)
Class TasLois (E : Type) (lt : E -> E -> bool) `{!Tas E lt} := {
  heapify_perm l : exists h, tas_heapify l = Ok h /\ h ≡ₚ l;
  heappush_perm h x : exists h', tas_heappush h x = Ok h' /\ h' ≡ₚ x :: h;
  heappop_vide : tas_heappop [] = raise IndexError;
  heappop_perm h : h <> [] -> exists x h', tas_heappop h = Ok (x, h') /\ h ≡ₚ x :: h'
}.

(** ** CPython's [Lib/heapq.py] *)

Module Heapq.
Section Heapq.
Context {E : Type} (lt : E -> E -> bool).

(** The [while pos > startpos] loop of [_siftdown], from the state
    [(heap, pos)]; [newitem] is held aside. *)
Fixpoint siftdown_boucle (fuel : nat) (heap : list E) (newitem : E) (startpos pos : nat)
    : Resultat (list E * nat) :=
  match fuel with
  | O => Ok (heap, pos)
  | S fuel =>
      if decide (startpos < pos) then
        let parentpos := Nat.shiftr (pos - 1) 1 in
        parent ← py_get heap parentpos;
        if lt newitem parent then
          heap ← py_set heap pos parent;
          siftdown_boucle fuel heap newitem startpos parentpos
        else Ok (heap, pos)
      else Ok (heap, pos)
  end.

(** [_siftdown(heap, startpos, pos)] *)
Definition siftdown (heap : list E) (startpos pos : nat) : Resultat (list E) :=
  newitem ← py_get heap pos;
  '(heap, pos) ← siftdown_boucle pos heap newitem startpos pos;
  py_set heap pos newitem.

(** [rightpos = childpos + 1;
     if rightpos < endpos and not heap[childpos] < heap[rightpos]:
         childpos = rightpos] *)
Definition plus_petit_enfant (heap : list E) (endpos childpos : nat) : Resultat nat :=
  let rightpos := childpos + 1 in
  if decide (rightpos < endpos) then
    c ← py_get heap childpos;
    r ← py_get heap rightpos;
    Ok (if negb (lt c r) then rightpos else childpos)
  else Ok childpos.

(** The [while childpos < endpos] loop of [_siftup], from the state
    [(heap, pos)] with [childpos = 2*pos + 1]: the smaller child moves up
    until [pos] is a leaf. *)
Fixpoint siftup_boucle (fuel : nat) (heap : list E) (endpos pos : nat)
    : Resultat (list E * nat) :=
  match fuel with
  | O => Ok (heap, pos)
  | S fuel =>
      let childpos := 2 * pos + 1 in
      if decide (childpos < endpos) then
        childpos ← plus_petit_enfant heap endpos childpos;
        x ← py_get heap childpos;
        heap ← py_set heap pos x;
        siftup_boucle fuel heap endpos childpos
      else Ok (heap, pos)
  end.

(** [_siftup(heap, pos)] *)
Definition siftup (heap : list E) (pos : nat) : Resultat (list E) :=
  let endpos := length heap in
  let startpos := pos in
  newitem ← py_get heap pos;
  '(heap, pos) ← siftup_boucle endpos heap endpos pos;
  heap ← py_set heap pos newitem;
  siftdown heap startpos pos.

(** [heappush(heap, item)] *)
Definition heappush (heap : list E) (item : E) : Resultat (list E) :=
  let heap := heap ++ [item] in
  siftdown heap 0 (length heap - 1).

(** [heappop(heap)] *)
Definition heappop (heap : list E) : Resultat (E * list E) :=
  '(heap, lastelt) ← py_pop heap;
  match heap with
  | [] => Ok (lastelt, heap)
  | _ :: _ =>
      returnitem ← py_get heap 0;
      heap ← py_set heap 0 lastelt;
      heap ← siftup heap 0;
      Ok (returnitem, heap)
  end.

(** The loop [for i in reversed(range(n//2)): _siftup(x, i)]. *)
Fixpoint heapify_boucle (indices : list nat) (x : list E) : Resultat (list E) :=
  match indices with
  | [] => Ok x
  | i :: indices => x ← siftup x i; heapify_boucle indices x
  end.

(** [heapify(x)] *)
Definition heapify (x : list E) : Resultat (list E) :=
  let n := length x in
  heapify_boucle (reverse (seq 0 (n / 2))) x.

(** ** Lemmas *)

#[local] Arguments Nat.shiftr : simpl never.

Lemma parent_lt pos : 0 < pos -> Nat.shiftr (pos - 1) 1 < pos.
Proof.
  intros. rewrite Nat.shiftr_div_pow2, Nat.pow_1_r.
  pose proof (Nat.div_mod (pos - 1) 2 ltac:(lia)). pose proof (Nat.mod_upper_bound (pos - 1) 2 ltac:(lia)). lia.
Qed.

(** Moving the hole from [i] to [j]: writing [heap[j]] at [i] and then
    [newitem] at [j] permutes the list that has [newitem] at [i]. *)
Lemma trou_Permutation (heap : list E) i j x newitem :
  heap !! j = Some x -> i <> j -> i < length heap ->
  <[j:=newitem]> (<[i:=x]> heap) ≡ₚ <[i:=newitem]> heap.
Proof.
  intros Hj Hij Hi.
  rewrite <-(list_insert_insert_eq heap i x newitem).
  apply swap_Permutation.
  - by rewrite list_lookup_insert_ne.
  - by rewrite list_lookup_insert_eq.
Qed.

Lemma plus_petit_enfant_Ok heap endpos childpos :
  childpos < endpos -> endpos = length heap ->
  exists c, plus_petit_enfant heap endpos childpos = Ok c /\
    (c = childpos \/ c = childpos + 1) /\ c < endpos.
Proof.
  intros Hc ->. unfold plus_petit_enfant. case_decide.
  - destruct (py_get_lt heap childpos) as (x & -> & _); [done|].
    destruct (py_get_lt heap (childpos + 1)) as (y & -> & _); [done|].
    simpl. destruct (negb _); eexists; split_and!; eauto; lia.
  - eexists; split_and!; eauto.
Qed.

(** The loop of [_siftdown] raises nothing, keeps the length, and moves
    the hole holding [newitem] without losing any element. *)
Lemma siftdown_boucle_Ok fuel heap newitem startpos pos :
  pos < length heap ->
  exists heap' pos', siftdown_boucle fuel heap newitem startpos pos = Ok (heap', pos') /\
    pos' < length heap' /\ length heap' = length heap /\
    <[pos':=newitem]> heap' ≡ₚ <[pos:=newitem]> heap.
Proof.
  revert heap pos. induction fuel as [|fuel IH]; intros heap pos Hpos; simpl.
  { by eexists _, _. }
  case_decide; [|by eexists _, _].
  pose proof (parent_lt pos ltac:(lia)) as Hp.
  destruct (py_get_lt heap (Nat.shiftr (pos - 1) 1)) as (parent & -> & Hparent); [lia|].
  simpl. destruct (lt newitem parent); [|by eexists _, _].
  rewrite py_set_lt by done. simpl.
  destruct (IH (<[pos:=parent]> heap) (Nat.shiftr (pos - 1) 1)) as (h' & p' & -> & ? & Hl & Hperm);
    [rewrite length_insert; lia|].
  exists h', p'. rewrite length_insert in Hl. split_and!; [done|done|done|].
  rewrite Hperm. apply trou_Permutation; [done|lia|done].
Qed.

Lemma siftdown_Ok heap startpos pos :
  pos < length heap -> exists heap', siftdown heap startpos pos = Ok heap' /\ heap' ≡ₚ heap.
Proof.
  intros Hpos. unfold siftdown.
  destruct (py_get_lt heap pos) as (newitem & -> & Hnew); [done|]. simpl.
  destruct (siftdown_boucle_Ok pos heap newitem startpos pos) as (h' & p' & -> & ? & _ & Hperm);
    [done|].
  simpl. rewrite py_set_lt by done. eexists; split; [done|].
  by rewrite Hperm, list_insert_id.
Qed.

Lemma siftup_boucle_Ok fuel heap pos :
  pos < length heap ->
  exists heap' pos', siftup_boucle fuel heap (length heap) pos = Ok (heap', pos') /\
    pos' < length heap' /\ length heap' = length heap /\
    forall newitem, <[pos':=newitem]> heap' ≡ₚ <[pos:=newitem]> heap.
Proof.
  revert heap pos. induction fuel as [|fuel IH]; intros heap pos Hpos; cbn [siftup_boucle].
  { by eexists _, _. }
  case_decide; [|by eexists _, _].
  destruct (plus_petit_enfant_Ok heap (length heap) (2 * pos + 1)) as (c & -> & Hc & Hclt);
    [done|done|].
  rewrite bind_ret. destruct (py_get_lt heap c) as (x & -> & Hx); [done|].
  rewrite bind_ret, py_set_lt, bind_ret by done.
  destruct (IH (<[pos:=x]> heap) c) as (h' & p' & Hrec & ? & Hl & Hperm);
    [rewrite length_insert; lia|].
  rewrite length_insert in Hrec, Hl.
  exists h', p'. split_and!; [done|done|done|].
  intros newitem. rewrite Hperm. apply trou_Permutation; [done|lia|done].
Qed.

Lemma siftup_Ok heap pos :
  pos < length heap -> exists heap', siftup heap pos = Ok heap' /\ heap' ≡ₚ heap.
Proof.
  intros Hpos. unfold siftup.
  destruct (py_get_lt heap pos) as (newitem & -> & Hnew); [done|]. simpl.
  destruct (siftup_boucle_Ok (length heap) heap pos) as (h' & p' & -> & ? & Hl & Hperm);
    [done|].
  simpl. rewrite py_set_lt by done. simpl.
  destruct (siftdown_Ok (<[p':=newitem]> h') pos p') as (h'' & -> & Hperm');
    [by rewrite length_insert|].
  eexists; split; [done|]. by rewrite Hperm', Hperm, list_insert_id.
Qed.

Lemma heappush_Ok heap item :
  exists heap', heappush heap item = Ok heap' /\ heap' ≡ₚ item :: heap.
Proof.
  unfold heappush. destruct (siftdown_Ok (heap ++ [item]) 0 (length (heap ++ [item]) - 1))
    as (h' & -> & Hperm); [rewrite length_app; simpl; lia|].
  eexists; split; [done|]. rewrite Hperm. symmetry. apply Permutation_cons_append.
Qed.

Lemma heappop_nil : heappop [] = raise IndexError.
Proof. reflexivity. Qed.

Lemma heappop_Ok heap :
  heap <> [] -> exists x heap', heappop heap = Ok (x, heap') /\ heap ≡ₚ x :: heap'.
Proof.
  intros Hne. destruct (exists_last Hne) as (init & last & ->).
  unfold heappop. rewrite py_pop_app, bind_ret.
  destruct init as [|r rest]; [by eexists _, _|].
  cbn -[siftup py_set]. rewrite py_set_lt, bind_ret by (simpl; lia). simpl.
  destruct (siftup_Ok (last :: rest) 0) as (h' & -> & Hperm); [simpl; lia|].
  eexists _, _. split; [done|]. rewrite Hperm. constructor.
  symmetry. apply Permutation_cons_append.
Qed.

Lemma heapify_boucle_Ok indices x :
  Forall (fun i => i < length x) indices ->
  exists h, heapify_boucle indices x = Ok h /\ h ≡ₚ x.
Proof.
  revert x. induction indices as [|i indices IH]; intros x Hi; simpl; [by eexists|].
  apply Forall_cons in Hi as [Hi Hrest].
  destruct (siftup_Ok x i Hi) as (x' & -> & Hperm). rewrite bind_ret.
  destruct (IH x') as (h & -> & Hperm'); [by rewrite (Permutation_length Hperm)|].
  eexists; split; [done|]. by rewrite Hperm', Hperm.
Qed.

Lemma heapify_Ok x : exists h, heapify x = Ok h /\ h ≡ₚ x.
Proof.
  apply heapify_boucle_Ok, Forall_forall. intros i.
  rewrite elem_of_reverse, elem_of_seq.
  assert (length x / 2 <= length x) by (apply Nat.Div0.div_le_upper_bound; lia). lia.
Qed.

(** ** The fuel of the loops is enough

    [_siftdown]'s loop runs with fuel [pos] and [_siftup]'s with fuel
    [len(heap)]: any larger fuel gives the same result, so the loops stop
    on their own conditions. *)

Lemma siftdown_fuel f1 f2 heap newitem startpos pos :
  pos <= f1 -> pos <= f2 ->
  siftdown_boucle f1 heap newitem startpos pos = siftdown_boucle f2 heap newitem startpos pos.
Proof.
  revert f2 heap pos. induction f1 as [|f1 IH]; intros [|f2] heap pos H1 H2; try done.
  - cbn. rewrite decide_False by lia. done.
  - cbn. rewrite decide_False by lia. done.
  - cbn [siftdown_boucle]. case_decide; [|done].
    pose proof (parent_lt pos ltac:(lia)).
    destruct (py_get heap _); simpl; [|done].
    destruct (lt newitem x); [|done]. destruct (py_set heap pos x); simpl; [|done].
    apply IH; lia.
Qed.

Lemma plus_petit_enfant_inv heap endpos childpos c :
  plus_petit_enfant heap endpos childpos = Ok c -> c = childpos \/ c = childpos + 1.
Proof.
  unfold plus_petit_enfant. case_decide; [|naive_solver].
  intros Hp. inv_ok. destruct (negb _); naive_solver.
Qed.

Lemma siftup_fuel f1 f2 heap endpos pos :
  endpos <= f1 + pos -> endpos <= f2 + pos ->
  siftup_boucle f1 heap endpos pos = siftup_boucle f2 heap endpos pos.
Proof.
  revert f2 heap pos. induction f1 as [|f1 IH]; intros [|f2] heap pos H1 H2; try done.
  - cbn. rewrite decide_False by lia. done.
  - cbn. rewrite decide_False by lia. done.
  - cbn [siftup_boucle]. case_decide; [|done].
    destruct (plus_petit_enfant heap endpos (2 * pos + 1)) as [c|] eqn:Hc; simpl; [|done].
    apply plus_petit_enfant_inv in Hc.
    destruct (py_get heap c); simpl; [|done]. destruct (py_set heap pos x); simpl; [|done].
    apply IH; lia.
Qed.
End Heapq.
End Heapq.

(** ** [heapq] implements the interface *)

#[export] Instance heapq_tas {E} (lt : E -> E -> bool) : Tas E lt := {|
  tas_heapify := Heapq.heapify lt;
  tas_heappush := Heapq.heappush lt;
  tas_heappop := Heapq.heappop lt
|}.

#[export] Instance heapq_lois {E} (lt : E -> E -> bool) : TasLois E lt.
Proof.
  split.
  - apply Heapq.heapify_Ok.
  - apply Heapq.heappush_Ok.
  - apply Heapq.heappop_nil.
  - apply Heapq.heappop_Ok.
Qed.

(** ** Witnesses *)

Lemma heappop_Ok_witness :
  exists x h, Heapq.heappop Z.ltb [1; 3; 2]%Z = Ok (x, h) /\ [1; 3; 2]%Z ≡ₚ x :: h.
Proof. apply Heapq.heappop_Ok. discriminate. Defined.

Lemma siftup_fuel_witness :
  Heapq.siftup_boucle Z.ltb 3 [5; 3; 8]%Z 3 0 = Heapq.siftup_boucle Z.ltb 10 [5; 3; 8]%Z 3 0.
Proof. apply Heapq.siftup_fuel; lia. Defined.

Lemma siftdown_fuel_witness :
  Heapq.siftdown_boucle Z.ltb 2 [5; 3; 1]%Z 1%Z 0 2 = Heapq.siftdown_boucle Z.ltb 7 [5; 3; 1]%Z 1%Z 0 2.
Proof. apply Heapq.siftdown_fuel; lia. Defined.
