(* ===== verification/TasOrdre.v ===== *)
(** * The heap order of CPython's [heapq]

    [Tas] only states what [heapq] does to the multiset of elements.  This
    file proves what makes it a priority queue: on CPython's array layout
    (the parent of position [j > 0] is [(j - 1) >> 1]), [heapify]
    establishes the heap order, [heappush] and [heappop] keep it, and
    [heappop] returns an element no other element is smaller than.  The
    comparison is any strict weak order ([OrdreFaible]), of which
    [Noeud.__lt__] (frequencies compared with [<]) is one.

    The proof follows the hole of [_siftup] down to a leaf and the hole of
    [_siftdown] up towards [startpos], each with its invariant
    ([tas_trou], [pont], [sous_enfants]); [descendant] records that the
    hole stays in the subtree of [startpos], which [heapify] needs. *)

From stdpp Require Import base list sets strings.
From Stdlib Require Import ZArith Ascii.
From S2P Require Import Prelude Noeud Tas.

(** A strict weak order given by a boolean comparison: [lt] is transitive
    and asymmetric, and "not greater" is transitive. *)
Class OrdreFaible {E : Type} (lt : E -> E -> bool) : Prop := {
  ordre_trans a b c : lt a b = true -> lt b c = true -> lt a c = true;
  ordre_asym a b : lt a b = true -> lt b a = false;
  ordre_non_trans a b c : lt b a = false -> lt c b = false -> lt c a = false
}.

#[export] Instance noeud_lt_ordre {A : Type} : OrdreFaible (@noeud_lt A).
Proof.
  split; unfold noeud_lt; intros a b c; rewrite ?Z.ltb_lt, ?Z.ltb_ge; lia.
Qed.

(** What a priority queue promises beyond [TasLois]: an invariant [inv]
    that [heapify] establishes and [heappush] and [heappop] keep, and
    [heappop] returns an element no remaining element is smaller than. *)
Class TasMin (E : Type) (lt : E -> E -> bool) `{!Tas E lt} (inv : list E -> Prop) : Prop := {
  heapify_inv l h : tas_heapify l = Ok h -> inv h;
  heappush_inv h x h' : inv h -> tas_heappush h x = Ok h' -> inv h';
  heappop_inv h x h' : inv h -> tas_heappop h = Ok (x, h') ->
    inv h' /\ forall y, y ∈ h' -> lt y x = false
}.

(** [(pos - 1) >> 1], the parent position in [_siftdown]. *)
Definition parent (j : nat) : nat := Nat.shiftr (j - 1) 1.

(** [j] is in the subtree rooted at [k]. *)
Inductive descendant (k : nat) : nat -> Prop :=
  | descendant_racine : descendant k k
  | descendant_enfant j : descendant k (parent j) -> 0 < j -> descendant k j.

Section Ordre.
Context {E : Type} (lt : E -> E -> bool).

(** The element at [i] is not greater than the element at [j]. *)
Definition ordonne (h : list E) (i j : nat) : Prop :=
  forall x y, h !! i = Some x -> h !! j = Some y -> lt y x = false.

(** Every parent from position [start] on is not greater than its
    children; [tas_depuis 0] is the heap invariant of [heapq]. *)
Definition tas_depuis (start : nat) (h : list E) : Prop :=
  forall j, 0 < j -> start <= parent j -> ordonne h (parent j) j.

Definition est_tas (h : list E) : Prop := tas_depuis 0 h.

(** The invariant of both loops with a hole at [pos]: the order holds on
    every edge below [start] that does not touch the hole... *)
Definition tas_trou (start pos : nat) (h : list E) : Prop :=
  forall j, 0 < j -> start <= parent j -> parent j <> pos -> j <> pos -> ordonne h (parent j) j.

(** ... the parent of the hole is not greater than its children... *)
Definition pont (start pos : nat) (h : list E) : Prop :=
  pos <> start -> forall j, 0 < j -> parent j = pos -> ordonne h (parent pos) j.

(** ... and, going up, the item held aside is not greater than the
    children of the hole. *)
Definition sous_enfants (newitem : E) (pos : nat) (h : list E) : Prop :=
  forall j y, 0 < j -> parent j = pos -> h !! j = Some y -> lt y newitem = false.
End Ordre.

(** ** The array layout *)

Lemma parent_div j : parent j = (j - 1) / 2.
Proof. unfold parent. by rewrite Nat.shiftr_div_pow2, Nat.pow_1_r. Qed.

Lemma parent_bornes j : 0 < j -> 2 * parent j + 1 <= j <= 2 * parent j + 2.
Proof.
  intros Hj. rewrite parent_div.
  pose proof (Nat.div_mod (j - 1) 2 ltac:(lia)). pose proof (Nat.mod_upper_bound (j - 1) 2 ltac:(lia)).
  lia.
Qed.

Lemma parent_lt' j : 0 < j -> parent j < j.
Proof. intros Hj. pose proof (parent_bornes j Hj). lia. Qed.

Lemma parent_gauche p : parent (2 * p + 1) = p.
Proof. rewrite parent_div. replace (2 * p + 1 - 1) with (p * 2) by lia. by rewrite Nat.div_mul. Qed.

Lemma parent_droit p : parent (2 * p + 2) = p.
Proof.
  rewrite parent_div. replace (2 * p + 2 - 1) with (1 + p * 2) by lia.
  rewrite Nat.div_add by lia. done.
Qed.

(** The children of [p] are [2p+1] and [2p+2]. *)
Lemma enfants j p : 0 < j -> parent j = p -> j = 2 * p + 1 \/ j = 2 * p + 2.
Proof. intros Hj <-. pose proof (parent_bornes j Hj). lia. Qed.

Lemma descendant_le k j : descendant k j -> k <= j.
Proof. induction 1 as [|j _ IH Hj]; [done|]. pose proof (parent_lt' j Hj). lia. Qed.

Lemma descendant_parent k j : descendant k j -> j <> k -> descendant k (parent j) /\ k <= parent j.
Proof. intros [|j' Hd Hj] Hne; [done|]. split; [done|]. by apply descendant_le. Qed.

Lemma descendant_zero j : descendant 0 j.
Proof.
  induction j as [j IH] using lt_wf_ind. destruct j as [|j]; [constructor|].
  apply descendant_enfant; [|lia]. apply IH, parent_lt'. lia.
Qed.

#[export] Hint Resolve parent_lt' descendant_zero : huffman.

(** ** The loops keep their invariants *)

Module HeapqOrdre.
Section HeapqOrdre.
Context {E : Type} (lt : E -> E -> bool) `{!OrdreFaible lt}.

#[local] Arguments Nat.shiftr : simpl never.

Lemma ordre_irrefl x : lt x x = false.
Proof. destruct (lt x x) eqn:E1; [|done]. by rewrite (ordre_asym x x E1) in E1. Qed.

(** The first element of a heap is not greater than any element. *)
Lemma est_tas_min h x j y : est_tas lt h -> h !! 0 = Some x -> h !! j = Some y -> lt y x = false.
Proof.
  intros Ht Hx. revert y. induction j as [j IH] using lt_wf_ind. intros y Hy.
  destruct (decide (j = 0)) as [->|Hj]; [simplify_eq; apply ordre_irrefl|].
  pose proof (parent_lt' j ltac:(lia)) as Hp.
  destruct (lookup_lt_is_Some_2 h (parent j)) as [z Hz].
  { apply lookup_lt_Some in Hy. lia. }
  apply (ordre_non_trans x z y); [by apply (IH (parent j))|].
  apply (Ht j); [lia|lia|done|done].
Qed.

(** Where [_siftdown] stops, the item held aside fills the hole and the
    order holds from [start] on. *)
Lemma trou_final start pos heap newitem :
  pos < length heap -> descendant start pos ->
  tas_trou lt start pos heap -> sous_enfants lt newitem pos heap ->
  (pos = start \/ forall p, heap !! parent pos = Some p -> lt newitem p = false) ->
  tas_depuis lt start (<[pos:=newitem]> heap).
Proof.
  intros Hpos Hd Ht Hs Hfin j Hj Hstart x y Hx Hy.
  pose proof (parent_lt' j Hj).
  apply list_lookup_insert_Some in Hx as [(Hpj & <- & _)|[Hpj Hx]];
    apply list_lookup_insert_Some in Hy as [(Hjp & <- & _)|[Hjp Hy]].
  - lia.
  - by apply (Hs j).
  - subst j. destruct Hfin as [->|Hfin]; [lia|by apply Hfin].
  - by apply (Ht j).
Qed.

(** One turn of [_siftdown]: the parent moves down into the hole. *)
Lemma trou_monte start pos heap newitem par :
  start < pos -> descendant start pos -> heap !! parent pos = Some par ->
  lt newitem par = true ->
  tas_trou lt start pos heap -> pont lt start pos heap -> sous_enfants lt newitem pos heap ->
  let heap1 := <[pos:=par]> heap in
  tas_trou lt start (parent pos) heap1 /\ pont lt start (parent pos) heap1 /\
  sous_enfants lt newitem (parent pos) heap1.
Proof.
  intros Hsp Hd Hpar Hlt Ht Hpont Hs heap1. subst heap1.
  pose proof (parent_lt' pos ltac:(lia)) as Hq.
  destruct (descendant_parent start pos Hd ltac:(lia)) as [Hdq Hsq].
  assert (forall j y, 0 < j -> parent j = parent pos -> j <> pos -> heap !! j = Some y ->
    lt y par = false) as Hfrere.
  { intros j y Hj Hpj Hjp Hy. apply (Ht j); [lia|lia|lia|done|by rewrite Hpj|done]. }
  split_and!.
  - intros j Hj Hstart Hpj Hjq x y Hx Hy.
    assert (j <> pos) as Hjp by (intros ->; done).
    rewrite list_lookup_insert_ne in Hy by done.
    apply list_lookup_insert_Some in Hx as [(Hpos & <- & _)|[Hpjp Hx]].
    + apply (Hpont ltac:(lia) j); [done|done|done|done].
    + apply (Ht j); [done|done|congruence|done|done|done].
  - intros Hqs j Hj Hpj x y Hx Hy.
    pose proof (parent_lt' (parent pos) ltac:(lia)).
    rewrite list_lookup_insert_ne in Hx by lia.
    destruct (descendant_parent start (parent pos) Hdq Hqs) as [_ Hsg].
    assert (lt par x = false) as Hgp.
    { apply (Ht (parent pos)); [lia|lia|lia|lia|done|done]. }
    apply list_lookup_insert_Some in Hy as [(-> & <- & _)|[Hjp Hy]]; [done|].
    apply (ordre_non_trans x par y); [done|]. by apply (Hfrere j).
  - intros j y Hj Hpj Hy.
    apply list_lookup_insert_Some in Hy as [(-> & <- & _)|[Hjp Hy]]; [by apply ordre_asym|].
    destruct (lt y newitem) eqn:Hyn; [|done].
    pose proof (ordre_trans _ _ _ Hyn Hlt) as Hyp. by rewrite (Hfrere j y) in Hyp.
Qed.

(** The loop of [_siftdown], with the fuel [pos] it is given. *)
Lemma siftdown_boucle_tas fuel heap newitem start pos heap' pos' :
  pos <= fuel -> descendant start pos -> pos < length heap ->
  tas_trou lt start pos heap -> pont lt start pos heap -> sous_enfants lt newitem pos heap ->
  Heapq.siftdown_boucle lt fuel heap newitem start pos = Ok (heap', pos') ->
  tas_depuis lt start (<[pos':=newitem]> heap').
Proof.
  revert heap pos. induction fuel as [|fuel IH]; intros heap pos Hf Hd Hpos Ht Hpont Hs Hloop.
  - injection Hloop as <- <-. apply trou_final; [done|done|done|done|].
    left. apply descendant_le in Hd. lia.
  - cbn [Heapq.siftdown_boucle] in Hloop. case_decide as Hsp.
    + fold (parent pos) in Hloop. pose proof (parent_lt' pos ltac:(lia)).
      destruct (py_get_lt heap (parent pos)) as (par & Hget & Hpar); [lia|].
      rewrite Hget, bind_ret in Hloop. destruct (lt newitem par) eqn:Hlt.
      * rewrite py_set_lt, bind_ret in Hloop by done.
        destruct (trou_monte start pos heap newitem par) as (Ht' & Hpont' & Hs');
          [done|done|done|done|done|done|done|].
        apply (IH (<[pos:=par]> heap) (parent pos)); [lia|exact (proj1 (descendant_parent _ _ Hd ltac:(lia)))|rewrite length_insert; lia|done..].
      * injection Hloop as <- <-. apply trou_final; [done..|].
        right. intros p Hp. congruence.
    + injection Hloop as <- <-. apply trou_final; [done..|].
      left. apply descendant_le in Hd. lia.
Qed.

(** [plus_petit_enfant] picks a child no sibling is smaller than. *)
Lemma plus_petit_enfant_min heap pos c :
  2 * pos + 1 < length heap ->
  Heapq.plus_petit_enfant lt heap (length heap) (2 * pos + 1) = Ok c ->
  parent c = pos /\ 0 < c /\ c < length heap /\
  forall j y z, 0 < j -> parent j = pos -> heap !! j = Some y -> heap !! c = Some z -> lt y z = false.
Proof.
  intros Hl. unfold Heapq.plus_petit_enfant. case_decide as Hr.
  - destruct (py_get_lt heap (2 * pos + 1)) as (a & -> & Ha); [lia|].
    destruct (py_get_lt heap (2 * pos + 1 + 1)) as (b & -> & Hb); [lia|].
    rewrite !bind_ret. intros [= <-].
    destruct (lt a b) eqn:Hab; cbn [negb]; change (pos + (pos + 0)) with (2 * pos) in *.
    + split_and!; [apply parent_gauche|lia|lia|].
      intros j y z Hj Hpj Hy Hz. rewrite Ha in Hz. injection Hz as <-.
      destruct (enfants j pos Hj Hpj) as [->| ->]; [rewrite Ha in Hy|replace (2 * pos + 2) with (2 * pos + 1 + 1) in Hy by lia; rewrite Hb in Hy];
        injection Hy as <-; [apply ordre_irrefl|by apply ordre_asym].
    + replace (2 * pos + 1 + 1) with (2 * pos + 2) in * by lia.
      split_and!; [apply parent_droit|lia|lia|].
      intros j y z Hj Hpj Hy Hz. rewrite Hb in Hz. injection Hz as <-.
      destruct (enfants j pos Hj Hpj) as [->| ->]; [rewrite Ha in Hy|rewrite Hb in Hy];
        injection Hy as <-; [done|apply ordre_irrefl].
  - intros [= <-]. change (pos + (pos + 0)) with (2 * pos) in *. split_and!; [apply parent_gauche|lia|lia|].
    intros j y z Hj Hpj Hy Hz. destruct (enfants j pos Hj Hpj) as [->| ->].
    + rewrite Hz in Hy. injection Hy as <-. apply ordre_irrefl.
    + apply lookup_lt_Some in Hy. lia.
Qed.

(** One turn of [_siftup]: the smaller child moves up into the hole. *)
Lemma trou_descend start pos heap c x :
  descendant start pos -> parent c = pos -> 0 < c -> heap !! c = Some x ->
  (forall j y, 0 < j -> parent j = pos -> heap !! j = Some y -> lt y x = false) ->
  tas_trou lt start pos heap -> pont lt start pos heap ->
  let heap1 := <[pos:=x]> heap in
  descendant start c /\ tas_trou lt start c heap1 /\ pont lt start c heap1.
Proof.
  intros Hd Hpc Hc Hx Hmin Ht Hpont heap1. subst heap1.
  pose proof (parent_lt' c Hc) as Hcp. pose proof (descendant_le _ _ Hd).
  split_and!.
  - apply descendant_enfant; [by rewrite Hpc|done].
  - intros j Hj Hstart Hpj Hjc x' y Hx' Hy.
    pose proof (parent_lt' j Hj).
    apply list_lookup_insert_Some in Hx' as [(Hpos & <- & _)|[Hpjp Hx']];
      apply list_lookup_insert_Some in Hy as [(Hjp & <- & _)|[Hjp Hy]].
    + lia.
    + by apply (Hmin j).
    + subst j. apply (Hpont ltac:(lia) c); [done|done|done|done].
    + apply (Ht j); [done|done|congruence|congruence|done|done].
  - intros Hcs j Hj Hpj x' y Hx' Hy.
    pose proof (parent_lt' j Hj).
    rewrite Hpc, list_lookup_insert_eq in Hx' by (apply lookup_lt_Some in Hx; lia).
    injection Hx' as <-. rewrite list_lookup_insert_ne in Hy by lia.
    apply (Ht j); [done|lia|lia|lia|by rewrite Hpj|done].
Qed.

(** The loop of [_siftup], with the fuel [len(heap)] it is given: the hole
    ends at a leaf of the subtree of [start], the invariants kept. *)
Lemma siftup_boucle_tas fuel heap endpos start pos heap' pos' :
  endpos = length heap -> endpos <= fuel + pos -> pos < endpos -> descendant start pos ->
  tas_trou lt start pos heap -> pont lt start pos heap ->
  Heapq.siftup_boucle lt fuel heap endpos pos = Ok (heap', pos') ->
  length heap' = length heap /\ pos' < length heap /\ length heap <= 2 * pos' + 1 /\
  descendant start pos' /\ tas_trou lt start pos' heap' /\ pont lt start pos' heap'.
Proof.
  revert heap pos. induction fuel as [|fuel IH]; intros heap pos He Hf Hpos Hd Ht Hpont Hloop.
  { lia. }
  cbn [Heapq.siftup_boucle] in Hloop. case_decide as Hc.
  - subst endpos. destruct (Heapq.plus_petit_enfant lt heap (length heap) (2 * pos + 1)) as [c|]
      eqn:Hpe; [|done].
    destruct (plus_petit_enfant_min heap pos c Hc Hpe) as (Hpc & Hc0 & Hcl & Hmin).
    rewrite bind_ret in Hloop.
    destruct (py_get_lt heap c) as (x & Hget & Hx); [done|].
    rewrite Hget, bind_ret, py_set_lt, bind_ret in Hloop by lia.
    destruct (trou_descend start pos heap c x) as (Hdc & Ht' & Hpont');
      [done|done|done|done|intros j y ???; by apply (Hmin j y x)|done|done|].
    pose proof (parent_lt' c Hc0).
    destruct (IH (<[pos:=x]> heap) c) as (Hl & ? & ? & ? & ? & ?);
      [by rewrite length_insert|lia|lia|done..|].
    rewrite length_insert in *. by split_and!.
  - injection Hloop as <- <-. subst endpos. split_and!; auto with lia.
Qed.

Lemma tas_trou_insert start pos h v :
  tas_trou lt start pos h -> tas_trou lt start pos (<[pos:=v]> h).
Proof.
  intros Ht j Hj Hs Hpj Hjp x y Hx Hy.
  rewrite list_lookup_insert_ne in Hx, Hy by congruence. by apply (Ht j).
Qed.

(** A position with no child in the array. *)
Lemma sans_enfant (h : list E) p j :
  length h <= 2 * p + 1 -> 0 < j -> parent j = p -> h !! j = None.
Proof.
  intros Hl Hj Hpj. apply lookup_ge_None_2. pose proof (parent_bornes j Hj). lia.
Qed.

Lemma feuille_pont start p h : length h <= 2 * p + 1 -> pont lt start p h.
Proof. intros Hl _ j Hj Hpj x y _ Hy. by rewrite (sans_enfant h p j) in Hy. Qed.

Lemma feuille_sous_enfants newitem p h : length h <= 2 * p + 1 -> sous_enfants lt newitem p h.
Proof. intros Hl j y Hj Hpj Hy. by rewrite (sans_enfant h p j) in Hy. Qed.

(** [_siftdown(heap, startpos, pos)] from a leaf [pos] of the subtree of
    [startpos], the order holding elsewhere from [startpos] on. *)
Lemma siftdown_tas heap start pos heap' :
  pos < length heap -> length heap <= 2 * pos + 1 -> descendant start pos ->
  tas_trou lt start pos heap ->
  Heapq.siftdown lt heap start pos = Ok heap' -> tas_depuis lt start heap'.
Proof.
  intros Hpos Hleaf Hd Ht. unfold Heapq.siftdown.
  destruct (py_get_lt heap pos) as (newitem & -> & Hn); [done|]. rewrite bind_ret.
  destruct (Heapq.siftdown_boucle lt pos heap newitem start pos) as [[h3 p3]|] eqn:Hs;
    [|done].
  rewrite bind_ret. simpl. intros (_ & ->)%py_set_Ok.
  apply (siftdown_boucle_tas pos heap newitem start pos h3 p3);
    [done|done|done|done|by apply feuille_pont|by apply feuille_sous_enfants|done].
Qed.

(** [_siftup(heap, pos)] makes the subtree of [pos] a heap, when the order
    already holds from [pos] on except at [pos] itself. *)
Lemma siftup_tas heap pos heap' :
  pos < length heap -> tas_trou lt pos pos heap -> Heapq.siftup lt heap pos = Ok heap' ->
  tas_depuis lt pos heap'.
Proof.
  intros Hpos Ht. unfold Heapq.siftup.
  destruct (py_get_lt heap pos) as (newitem & -> & Hn); [done|]. rewrite bind_ret.
  destruct (Heapq.siftup_boucle lt (length heap) heap (length heap) pos) as [[h1 p1]|] eqn:Hl;
    [|done].
  destruct (siftup_boucle_tas (length heap) heap (length heap) pos pos h1 p1)
    as (Hlen & Hp1 & Hleaf & Hd & Ht1 & _);
    [done|lia|done|constructor|done|by intros []|done|].
  rewrite bind_ret. simpl. rewrite py_set_lt, bind_ret by lia.
  apply siftdown_tas; [rewrite length_insert; lia|rewrite length_insert; lia|done|].
  by apply tas_trou_insert.
Qed.

Lemma siftup_length heap pos heap' :
  pos < length heap -> Heapq.siftup lt heap pos = Ok heap' -> length heap' = length heap.
Proof.
  intros Hpos Hs. destruct (Heapq.siftup_Ok lt heap pos Hpos) as (h & Hh & Hp).
  rewrite Hs in Hh. injection Hh as ->. by apply Permutation_length.
Qed.

(** The loop of [heapify] over [reversed(range(k))]. *)
Lemma heapify_boucle_tas k x h :
  k <= length x -> tas_depuis lt k x ->
  Heapq.heapify_boucle lt (reverse (seq 0 k)) x = Ok h -> est_tas lt h.
Proof.
  revert x. induction k as [|k IH]; intros x Hk Ht.
  { intros [= <-]. done. }
  rewrite seq_S, reverse_app. simpl.
  destruct (Heapq.siftup lt x k) as [x'|] eqn:Hs; simpl; [|done].
  pose proof (siftup_length x k x' ltac:(lia) Hs) as Hl.
  apply IH; [lia|].
  apply (siftup_tas x k x'); [lia| |done].
  intros j Hj Hstart Hpj _. apply Ht; [done|lia].
Qed.

(** [heapq.heapify] of CPython puts every list in heap order: no element
    is smaller than its parent [(j - 1) >> 1]. *)
Lemma heapify_tas x h : Heapq.heapify lt x = Ok h -> est_tas lt h.
Proof.
  unfold Heapq.heapify. apply heapify_boucle_tas.
  - apply Nat.Div0.div_le_upper_bound. lia.
  - intros j Hj Hstart x' y _ Hy. apply lookup_lt_Some in Hy.
    pose proof (parent_bornes j Hj). pose proof (Nat.div_mod (length x) 2 ltac:(lia)).
    pose proof (Nat.mod_upper_bound (length x) 2 ltac:(lia)). lia.
Qed.

(** [heappush] keeps the heap order. *)
Lemma heappush_tas h item h' : est_tas lt h -> Heapq.heappush lt h item = Ok h' -> est_tas lt h'.
Proof.
  intros Ht. unfold Heapq.heappush. rewrite length_app. simpl.
  replace (length h + 1 - 1) with (length h) by lia.
  apply siftdown_tas; [rewrite length_app; simpl; lia|rewrite length_app; simpl; lia|apply descendant_zero|].
  intros j Hj _ Hpj Hjn x y Hx Hy.
  pose proof (parent_lt' j Hj).
  assert (j < length h) as Hjl.
  { apply lookup_lt_Some in Hy. rewrite length_app in Hy. simpl in Hy. lia. }
  rewrite lookup_app_l in Hx, Hy by lia. apply (Ht j); [done|lia|done|done].
Qed.

(** [heappop] keeps the heap order and returns an element that no other
    element of the heap is smaller than. *)
Lemma heappop_tas h x h' :
  est_tas lt h -> Heapq.heappop lt h = Ok (x, h') ->
  est_tas lt h' /\ forall y, y ∈ h' -> lt y x = false.
Proof.
  intros Ht Hpop. destruct (decide (h = [])) as [->|Hne]; [done|].
  destruct (exists_last Hne) as (init & last & ->).
  unfold Heapq.heappop in Hpop. rewrite py_pop_app, bind_ret in Hpop.
  destruct init as [|r rest].
  { injection Hpop as <- <-. split; [intros j ? ? ? ? Hy; done|set_solver]. }
  cbn -[Heapq.siftup py_set] in Hpop. rewrite py_set_lt, bind_ret in Hpop by (simpl; lia).
  simpl in Hpop. destruct (Heapq.siftup lt (last :: rest) 0) as [h2|] eqn:Hs; [|done].
  simpl in Hpop. injection Hpop as <- <-.
  destruct (Heapq.siftup_Ok lt (last :: rest) 0) as (h2' & Hs' & Hperm); [simpl; lia|].
  rewrite Hs in Hs'. injection Hs' as <-.
  split.
  - apply (siftup_tas (last :: rest) 0); [simpl; lia| |done].
    assert (forall i v, i <> 0 -> (last :: rest) !! i = Some v -> ((r :: rest) ++ [last]) !! i = Some v)
      as Hlk.
    { intros [|i] v Hi Hv; [done|]. simpl in *. rewrite lookup_app_l; [done|].
      by apply lookup_lt_Some in Hv. }
    intros j Hj Hstart Hpj Hj0 x y Hx Hy. apply (Ht j); [lia|lia|by apply Hlk|by apply Hlk].
  - intros y Hy. rewrite Hperm in Hy.
    assert (y ∈ (r :: rest) ++ [last]) as Hin by set_solver.
    apply list_elem_of_lookup in Hin as [j Hj]. by apply (est_tas_min ((r :: rest) ++ [last]) r j y).
Qed.
End HeapqOrdre.
End HeapqOrdre.

(** ** [heapq] is a priority queue *)

#[export] Instance heapq_min {E} (lt : E -> E -> bool) `{!OrdreFaible lt} :
  TasMin E lt (est_tas lt).
Proof.
  split.
  - intros l h. by apply HeapqOrdre.heapify_tas.
  - intros h x h'. by apply HeapqOrdre.heappush_tas.
  - intros h x h'. by apply HeapqOrdre.heappop_tas.
Qed.
