(* ===== verification/Construction.v ===== *)
(** * The tree builders

    [construire_arbre_huffman] ([src/construction_arbre.py], lines 13-61)
    takes a list of leaves and returns the root, or [None] for an empty
    list; [construire_arbre] ([src/huffman/construction_arbre.py], lines
    13-23) builds the leaves from a frequency dict itself and has no empty
    case ([heap[0]] raises [IndexError]).  Both run the same merge loop over
    a [heapq] list.  The definitions are stated against the [Tas] interface
    and the theorems against [TasLois], so they hold for [heapq]
    ([Tas.heapq_lois]) and the witnesses compute with it. *)

From stdpp Require Import base list sets strings.
From Stdlib Require Import ZArith Ascii.
From S2P Require Import Prelude Noeud Validation Frequences Tas.

Section Construction.
Context {A : Type} `{!Tas (Noeud A) noeud_lt}.

(** [while len(heap) > 1: gauche = heappop(heap); droit = heappop(heap);
     parent = Noeud(None, gauche.frequence + droit.frequence, gauche, droit);
     heappush(heap, parent)] *)
Fixpoint boucle_fusion (fuel : nat) (heap : list (Noeud A)) : Resultat (list (Noeud A)) :=
  match fuel with
  | O => Ok heap
  | S fuel =>
      if decide (1 < length heap) then
        '(gauche, heap) ← tas_heappop heap;
        '(droit, heap) ← tas_heappop heap;
        let frequence_totale := (frequence gauche + frequence droit)%Z in
        let parent := mkNoeud None frequence_totale (Some gauche) (Some droit) in
        heap ← tas_heappush heap parent;
        boucle_fusion fuel heap
      else Ok heap
  end.

(** [construire_arbre_huffman(noeuds_feuilles)]; the loop runs with fuel
    [len(heap)], one more than the number of merges. *)
Definition construire_arbre_huffman (noeuds_feuilles : list (Noeud A))
    : Resultat (option (Noeud A)) :=
  match noeuds_feuilles with
  | [] => Ok None
  | _ :: _ =>
      let heap := noeuds_feuilles in
      heap ← tas_heapify heap;
      heap ← boucle_fusion (length heap) heap;
      racine ← py_get heap 0;
      Ok (Some racine)
  end.

(** [construire_arbre(frequences)] of [src/huffman/construction_arbre.py]:
    [heap = [Noeud(char, freq) for char, freq in frequences.items()]]. *)
Definition construire_arbre (frequences : dict A Z) : Resultat (Noeud A) :=
  let heap := map (fun '(c, f) => feuille c f) frequences in
  heap ← tas_heapify heap;
  heap ← boucle_fusion (length heap) heap;
  py_get heap 0.

(** The leaves of a forest. *)
Definition feuilles_foret (heap : list (Noeud A)) : list (Noeud A) := flat_map feuilles heap.

(** ** The merge loop *)

Context `{!TasLois (Noeud A) noeud_lt}.

Lemma feuilles_foret_perm h1 h2 : h1 ≡ₚ h2 -> feuilles_foret h1 ≡ₚ feuilles_foret h2.
Proof.
  unfold feuilles_foret. induction 1 as [|x l1 l2 _ IH|x y l|l1 l2 l3 _ IH1 _ IH2]; simpl.
  - done.
  - by rewrite IH.
  - rewrite !app_assoc. f_equiv. apply Permutation_app_comm.
  - by rewrite IH1.
Qed.

(** One turn of the loop, with the heap laws: two trees [g] and [d] leave
    the heap and their merge enters it. *)
Lemma boucle_fusion_etape fuel heap :
  1 < length heap ->
  exists g d reste heap', heap ≡ₚ g :: d :: reste /\ heap' ≡ₚ fusion g d :: reste /\
    boucle_fusion (S fuel) heap = boucle_fusion fuel heap'.
Proof.
  intros Hlt. cbn [boucle_fusion]. rewrite decide_True by done.
  destruct (heappop_perm heap) as (g & h1 & -> & Hp1); [intros ->; simpl in *; lia|].
  rewrite bind_ret.
  assert (h1 <> []) as Hne1.
  { intros ->. apply Permutation_length in Hp1. simpl in Hp1. lia. }
  destruct (heappop_perm h1) as (d & h2 & -> & Hp2); [done|].
  rewrite bind_ret.
  destruct (heappush_perm h2 (fusion g d)) as (h3 & Hpush & Hp3).
  unfold fusion in Hpush, Hp3. rewrite Hpush, bind_ret.
  exists g, d, h2, h3. by rewrite <-Hp2.
Qed.

Lemma boucle_fusion_fin fuel heap :
  length heap <= 1 -> boucle_fusion fuel heap = Ok heap.
Proof. intros H. destruct fuel; simpl; [done|]. rewrite decide_False by lia. done. Qed.

(** The loop, with enough fuel, leaves exactly one tree; every property
    of the forest that merging preserves holds of it, and it has the
    leaves of the forest. *)
Lemma boucle_fusion_spec (P : Noeud A -> Prop)
    (HP : forall g d, P g -> P d -> P (fusion g d)) fuel heap :
  heap <> [] -> length heap <= S fuel -> Forall P heap ->
  exists racine, boucle_fusion fuel heap = Ok [racine] /\ P racine /\
    feuilles racine ≡ₚ feuilles_foret heap.
Proof.
  revert heap. induction fuel as [|fuel IH]; intros heap Hne Hlen HPh.
  - destruct heap as [|r [|]]; simpl in *; try done; [|lia].
    exists r. split_and!; [done|by inversion HPh|]. by rewrite app_nil_r.
  - destruct (decide (1 < length heap)) as [Hlt|Hge].
    + destruct (boucle_fusion_etape fuel heap Hlt) as (g & d & reste & h & Hp1 & Hp3 & ->).
      pose proof (Permutation_length Hp1). pose proof (Permutation_length Hp3). simpl in *.
      rewrite Hp1 in HPh. apply Forall_cons in HPh as [Hg [Hd HPh]%Forall_cons].
      destruct (IH h) as (r & -> & Hr & Hleaves).
      * intros ->. simpl in *. lia.
      * lia.
      * rewrite Hp3. constructor; [by apply HP|done].
      * exists r. split_and!; [done|done|].
        rewrite Hleaves, (feuilles_foret_perm _ _ Hp3), (feuilles_foret_perm _ _ Hp1).
        unfold feuilles_foret. simpl. by rewrite app_assoc.
    + rewrite boucle_fusion_fin by lia.
      destruct heap as [|r [|]]; simpl in *; try done; [|lia].
      exists r. split_and!; [done|by inversion HPh|]. by rewrite app_nil_r.
Qed.

(** C26: the merge loop [while len(heap) > 1] ends: each turn removes one
    tree from the heap, so run for at most [fuel] turns it leaves
    [max 1 (len(heap) - fuel)] trees, and [len(heap) - 1] turns (the fuel
    [construire_arbre_huffman] gives) leave exactly one. *)
Theorem boucle_fusion_tours fuel heap :
  heap <> [] ->
  exists heap', boucle_fusion fuel heap = Ok heap' /\ length heap' = max 1 (length heap - fuel).
Proof.
  revert heap. induction fuel as [|fuel IH]; intros heap Hne.
  - exists heap. split; [done|]. destruct heap; [done|]. simpl. lia.
  - destruct (decide (1 < length heap)) as [Hlt|Hge].
    + destruct (boucle_fusion_etape fuel heap Hlt) as (g & d & reste & h & Hp1 & Hp3 & ->).
      apply Permutation_length in Hp1, Hp3. simpl in *.
      destruct (IH h) as (h' & -> & Hl); [intros ->; simpl in *; lia|].
      exists h'. split; [done|]. lia.
    + rewrite boucle_fusion_fin by lia. exists heap. split; [done|].
      destruct heap; [done|]. simpl in *. lia.
Qed.

(** The invariant of the forest: valid trees with positive, coherent
    frequencies. *)
Definition arbre_bon (n : Noeud A) : Prop :=
  arbre_valide n /\ freq_positives n /\ freq_coherentes n.

Lemma arbre_bon_fusion g d : arbre_bon g -> arbre_bon d -> arbre_bon (fusion g d).
Proof. intros (?&?&?) (?&?&?). split_and!; auto with huffman. Qed.

Lemma feuilles_foret_feuilles l : Forall feuille_positive l -> feuilles_foret l = l.
Proof.
  induction 1 as [|n l (c & f & -> & _) _ IH]; [done|]. unfold feuilles_foret in *.
  simpl. by rewrite IH.
Qed.

(** The part both builders share: [heapify] and the loop leave one tree. *)
Lemma construire_foret_spec leaves :
  leaves <> [] -> Forall feuille_positive leaves ->
  exists heap racine, tas_heapify leaves = Ok heap /\
    boucle_fusion (length heap) heap = Ok [racine] /\
    arbre_bon racine /\ feuilles racine ≡ₚ leaves.
Proof.
  intros Hne Hpos. destruct (heapify_perm leaves) as (h & Hheapify & Hh).
  destruct (boucle_fusion_spec arbre_bon arbre_bon_fusion (length h) h)
    as (r & Hloop & Hr & Hleaves).
  - intros ->. apply Permutation_nil_l in Hh. done.
  - lia.
  - rewrite Hh. eapply Forall_impl; [done|]. intros n ?%feuille_positive_valide. done.
  - exists h, r. split_and!; [done|done|done|].
    by rewrite Hleaves, (feuilles_foret_perm _ _ Hh), feuilles_foret_feuilles.
Qed.

(** The consequences of [arbre_bon] the theorems state. *)
Lemma arbre_bon_consequences racine leaves :
  arbre_bon racine -> feuilles racine ≡ₚ leaves ->
  verifier_arbre_huffman (Some racine) = true /\ frequence racine = poids leaves /\
  noeuds_internes racine + 1 = length leaves.
Proof.
  intros (Hv & Hp & Hc) Hl. split_and!.
  - simpl. by apply verifier_noeud_correct.
  - rewrite valide_frequence by done. by apply poids_perm.
  - rewrite valide_noeuds_internes by done. by apply Permutation_length.
Qed.

(** [construire_arbre_huffman] on positive leaves returns a tree of the
    invariant with those leaves. *)
Lemma construire_arbre_huffman_racine leaves :
  leaves <> [] -> Forall feuille_positive leaves ->
  exists racine, construire_arbre_huffman leaves = Ok (Some racine) /\
    arbre_bon racine /\ feuilles racine ≡ₚ leaves.
Proof.
  intros Hne Hpos.
  destruct (construire_foret_spec leaves Hne Hpos) as (h & r & Hh & Hloop & Hr & Hl).
  destruct leaves as [|n l]; [done|].
  exists r. unfold construire_arbre_huffman. by rewrite Hh, bind_ret, Hloop, bind_ret.
Qed.

(** ** Properties of the builders *)

(** C3: [construire_arbre_huffman] on a non-empty list of leaves with
    positive frequencies returns a root; the tree passes
    [verifier_arbre_huffman], its leaves are exactly the given leaves, its
    frequency is their total, and it has one internal node fewer than
    leaves (the loop made N-1 merges). *)
Theorem construire_arbre_huffman_correct (noeuds_feuilles : list (Noeud A)) :
  noeuds_feuilles <> [] -> Forall feuille_positive noeuds_feuilles ->
  exists racine, construire_arbre_huffman noeuds_feuilles = Ok (Some racine) /\
    verifier_arbre_huffman (Some racine) = true /\
    freq_coherentes racine /\
    feuilles racine ≡ₚ noeuds_feuilles /\
    frequence racine = poids noeuds_feuilles /\
    noeuds_internes racine + 1 = length noeuds_feuilles.
Proof.
  intros Hne Hpos.
  destruct (construire_arbre_huffman_racine noeuds_feuilles Hne Hpos) as (r & Hr & Hb & Hl).
  exists r. pose proof (arbre_bon_consequences r _ Hb Hl) as (? & ? & ?).
  destruct Hb as (_ & _ & ?). by split_and!.
Qed.

(** A single leaf is returned as the root, unchanged (the module's
    [test_cas_un_seul_caractere]). *)
Lemma construire_arbre_huffman_singleton (l : Noeud A) :
  construire_arbre_huffman [l] = Ok (Some l).
Proof.
  destruct (heapify_perm [l]) as (h & Hh & Hp). apply Permutation_singleton_r in Hp as ->.
  unfold construire_arbre_huffman. by rewrite Hh.
Qed.

(** [construire_arbre] on a one-item dict returns the leaf. *)
Lemma construire_arbre_singleton (c : A) (k : Z) : construire_arbre [(c, k)] = Ok (feuille c k).
Proof.
  destruct (heapify_perm [feuille c k]) as (h & Hh & Hp). apply Permutation_singleton_r in Hp as ->.
  unfold construire_arbre. simpl. by rewrite Hh.
Qed.

(** [construire_arbre] of [src/huffman/] on an empty dict raises
    [IndexError] at [heap[0]]. *)
Lemma construire_arbre_vide : construire_arbre [] = raise IndexError.
Proof.
  destruct (heapify_perm []) as (h & Hh & Hp). apply Permutation_nil_r in Hp as ->.
  unfold construire_arbre. simpl. by rewrite Hh.
Qed.

(** On a non-empty dict the two builders compute the same tree. *)
Lemma construire_arbres_bind (frequences : dict A Z) :
  frequences <> [] ->
  construire_arbre_huffman (creer_noeuds_feuilles frequences) =
  (racine ← construire_arbre frequences; Ok (Some racine)).
Proof.
  intros Hne. destruct frequences as [|[c f] d]; [done|].
  unfold construire_arbre_huffman, construire_arbre. simpl.
  destruct (tas_heapify _); simpl; [|done].
  destruct (boucle_fusion _ _); simpl; [|done]. by destruct (py_get _ 0).
Qed.

Context `{EqDecision A}.

(** [construire_arbre(analyser_frequences(texte))] on a non-empty text
    returns a valid tree whose leaves are the text's characters with
    their counts and whose frequency is the text's length. *)
Lemma construire_arbre_bon (texte : list A) :
  texte <> [] ->
  exists racine, construire_arbre (analyser_frequences texte) = Ok racine /\
    arbre_bon racine /\
    feuilles racine ≡ₚ creer_noeuds_feuilles (calculer_frequences texte) /\
    frequence racine = Z.of_nat (length texte).
Proof.
  intros Hne. rewrite analyser_calculer_frequences.
  assert (creer_noeuds_feuilles (calculer_frequences texte) <> []) as Hne'.
  { destruct texte as [|c t]; [done|]. intros Hnil.
    assert (c ∈ dict_keys (calculer_frequences (c :: t))) as Hc
      by (apply calculer_frequences_keys; left).
    unfold creer_noeuds_feuilles in Hnil. apply map_eq_nil in Hnil.
    unfold dict_keys in Hc. rewrite Hnil in Hc. set_solver. }
  destruct (construire_foret_spec _ Hne' (creer_noeuds_feuilles_positives texte))
    as (h & r & Hh & Hloop & Hr & Hl).
  exists r. unfold construire_arbre. fold (creer_noeuds_feuilles (calculer_frequences texte)).
  rewrite Hh, bind_ret, Hloop, bind_ret. split_and!; [done|done|done|].
  destruct Hr as (Hv & _ & Hc). rewrite valide_frequence by done.
  by rewrite (poids_perm _ _ Hl), creer_noeuds_feuilles_poids, calculer_frequences_somme.
Qed.
(** C16: [construire_arbre(analyser_frequences(texte))] of [src/huffman/]
    on a non-empty text returns a tree that [verifier_arbre_huffman]
    accepts, whose frequencies are coherent, whose leaves are the text's
    distinct characters with their counts, whose frequency is the text's
    length, and with one internal node fewer than distinct characters. *)
Theorem construire_arbre_correct (texte : list A) :
  texte <> [] ->
  exists racine, construire_arbre (analyser_frequences texte) = Ok racine /\
    verifier_arbre_huffman (Some racine) = true /\ freq_coherentes racine /\
    feuilles racine ≡ₚ creer_noeuds_feuilles (calculer_frequences texte) /\
    frequence racine = Z.of_nat (length texte) /\
    noeuds_internes racine + 1 = length (calculer_frequences texte).
Proof.
  intros Hne. destruct (construire_arbre_bon texte Hne) as (r & Hr & Hb & Hl & Hf).
  destruct (arbre_bon_consequences r _ Hb Hl) as (Hv & _ & Hn).
  rewrite creer_noeuds_feuilles_length in Hn. destruct Hb as (_ & _ & Hc).
  exists r. by split_and!.
Qed.

End Construction.
(** ** Witnesses, with CPython's [heapq] *)

(** The leaves of ["aabbc"]. *)
Definition feuilles_aabbc : list (Noeud ascii) :=
  [feuille "a"%char 2; feuille "b"%char 2; feuille "c"%char 1].

Lemma construire_arbre_huffman_correct_witness :
  exists racine, construire_arbre_huffman feuilles_aabbc = Ok (Some racine) /\ frequence racine = 5%Z.
Proof.
  destruct (construire_arbre_huffman_correct feuilles_aabbc) as (r & Hr & _ & _ & _ & Hf & _).
  - discriminate.
  - repeat apply Forall_cons_2; try apply Forall_nil_2;
      (eexists _, _; split; [reflexivity|lia]).
  - exists r. split; [done|]. rewrite Hf. reflexivity.
Defined.

Lemma boucle_fusion_tours_witness :
  exists heap, boucle_fusion 2 feuilles_aabbc = Ok heap /\ length heap = 1.
Proof.
  destruct (boucle_fusion_tours 2 feuilles_aabbc) as (h & Hh & Hl); [discriminate|].
  exists h. split; [done|]. rewrite Hl. reflexivity.
Defined.

Lemma construire_arbre_correct_witness :
  exists racine, construire_arbre (analyser_frequences (lettres "aabbc")) = Ok racine /\
    frequence racine = 5%Z.
Proof.
  destruct (construire_arbre_correct (lettres "aabbc")) as (r & Hr & _ & _ & _ & Hf & _); [discriminate|].
  exists r. split; [done|]. rewrite Hf. reflexivity.
Defined.

