(* ===== verification/Glouton.v ===== *)
(** * The merge loop is Huffman's greedy step

    With a priority queue ([TasMin], which CPython's [heapq] is), every
    turn of [while len(heap) > 1] in [construire_arbre_huffman] and
    [construire_arbre] takes out a tree of least frequency, then a tree of
    least frequency among the rest, and puts back their merge: it is the
    step [fusion_gloutonne] of Huffman's algorithm, on the forest taken as
    a multiset.  [boucle_fusion_gloutonne] shows the loop is a sequence of
    such steps from the heap to the root. *)

From stdpp Require Import base list sets strings relations.
From Stdlib Require Import ZArith Ascii.
From S2P Require Import Prelude Noeud Frequences Tas TasOrdre Construction.

Section Glouton.
Context {A : Type}.

(** No tree of [l] has a smaller frequency than [x]: stated on the
    frequencies, independently of the comparison [__lt__] the queue uses. *)
Definition minimal (x : Noeud A) (l : list (Noeud A)) : Prop :=
  Forall (fun y => (frequence x <= frequence y)%Z) l.

(** One step of Huffman's algorithm on a forest: two trees of least
    frequency are replaced by their merge. *)
Inductive fusion_gloutonne : list (Noeud A) -> list (Noeud A) -> Prop :=
  | fusion_gloutonne_intro foret g d reste foret' :
      foret ≡ₚ g :: d :: reste -> minimal g (d :: reste) -> minimal d reste ->
      foret' ≡ₚ fusion g d :: reste -> fusion_gloutonne foret foret'.

(** Huffman's algorithm run to the end: greedy steps down to one tree. *)
Definition huffman_glouton (foret : list (Noeud A)) (racine : Noeud A) : Prop :=
  rtc fusion_gloutonne foret [racine].

Lemma minimal_perm x l l' : l ≡ₚ l' -> minimal x l -> minimal x l'.
Proof. intros Hp. unfold minimal. by rewrite Hp. Qed.

(** What the queue returns (no element is [__lt__] it) is minimal in
    frequency, because [Noeud.__lt__] compares the frequencies. *)
Lemma minimal_elem x l : (forall y, y ∈ l -> noeud_lt y x = false) -> minimal x l.
Proof.
  intros H. apply Forall_forall. intros y Hy. specialize (H y Hy).
  unfold noeud_lt in H. apply Z.ltb_ge in H. lia.
Qed.

(** Greedy runs do not depend on the order of the forest. *)
Lemma huffman_glouton_perm foret foret' racine :
  foret ≡ₚ foret' -> huffman_glouton foret racine -> huffman_glouton foret' racine.
Proof.
  intros Hp Hrun. inversion Hrun as [|? foret2 ? Hstep Hrest]; subst.
  - apply Permutation_singleton_l in Hp. subst. apply rtc_refl.
  - destruct Hstep as [? g d reste foret2 Hf Hg Hd Hf2].
    eapply rtc_l; [|done]. econstructor; [by rewrite <-Hp|done|done|done].
Qed.

Context `{!Tas (Noeud A) noeud_lt} `{!TasLois (Noeud A) noeud_lt}.
Context (inv : list (Noeud A) -> Prop) `{!TasMin (Noeud A) noeud_lt inv}.

(** The merge loop from a heap in the queue's invariant, with enough fuel,
    is a greedy run to the one tree it leaves. *)
Lemma boucle_fusion_gloutonne fuel heap :
  inv heap -> heap <> [] -> length heap <= S fuel ->
  exists racine, boucle_fusion fuel heap = Ok [racine] /\ huffman_glouton heap racine.
Proof.
  revert heap. induction fuel as [|fuel IH]; intros heap Hinv Hne Hlen.
  - destruct heap as [|r [|]]; simpl in *; [done| |lia]. exists r. split; [done|apply rtc_refl].
  - destruct (decide (1 < length heap)) as [Hlt|Hge].
    + cbn [boucle_fusion]. rewrite decide_True by done.
      destruct (heappop_perm heap) as (g & h1 & Hpop1 & Hp1); [by intros ->|].
      destruct (heappop_inv heap g h1 Hinv Hpop1) as [Hinv1 Hmin1].
      rewrite Hpop1, bind_ret.
      assert (h1 <> []) as Hne1.
      { intros ->. apply Permutation_length in Hp1. simpl in Hp1. lia. }
      destruct (heappop_perm h1) as (d & h2 & Hpop2 & Hp2); [done|].
      destruct (heappop_inv h1 d h2 Hinv1 Hpop2) as [Hinv2 Hmin2].
      rewrite Hpop2, bind_ret.
      destruct (heappush_perm h2 (fusion g d)) as (h3 & Hpush & Hp3).
      unfold fusion in Hpush, Hp3. rewrite Hpush, bind_ret.
      pose proof (heappush_inv h2 (fusion g d) h3 Hinv2 Hpush) as Hinv3.
      pose proof (Permutation_length Hp1). pose proof (Permutation_length Hp2).
      pose proof (Permutation_length Hp3). simpl in *.
      destruct (IH h3) as (r & -> & Hrun); [done|intros ->; simpl in *; lia|lia|].
      exists r. split; [done|]. eapply rtc_l; [|done].
      econstructor; [by rewrite Hp1, Hp2| |by apply minimal_elem|done].
      apply (minimal_perm g h1); [done|]. by apply minimal_elem.
    + destruct heap as [|r [|]]; [done| |simpl in *; lia].
      exists r. split; [by apply boucle_fusion_fin|apply rtc_refl].
Qed.
(** [heapify] and the loop, from any non-empty list. *)
Lemma heapify_boucle_gloutonne l :
  l <> [] -> exists h racine, tas_heapify l = Ok h /\
    boucle_fusion (length h) h = Ok [racine] /\ huffman_glouton l racine.
Proof.
  intros Hne. destruct (heapify_perm l) as (h & Hh & Hp).
  destruct (boucle_fusion_gloutonne (length h) h) as (r & Hloop & Hrun);
    [by apply (heapify_inv l)|intros ->; by apply Permutation_nil_l in Hp|lia|].
  exists h, r. split_and!; [done|done|]. by apply (huffman_glouton_perm h).
Qed.

Lemma construire_arbre_huffman_glouton (noeuds_feuilles : list (Noeud A)) :
  noeuds_feuilles <> [] ->
  exists racine, construire_arbre_huffman noeuds_feuilles = Ok (Some racine) /\
    huffman_glouton noeuds_feuilles racine.
Proof.
  intros Hl. destruct (heapify_boucle_gloutonne noeuds_feuilles Hl) as (h & r & Hh & Hloop & Hrun).
  exists r. split; [|done]. destruct noeuds_feuilles; [done|].
  unfold construire_arbre_huffman. by rewrite Hh, bind_ret, Hloop, bind_ret.
Qed.

Lemma construire_arbre_glouton (frequences : dict A Z) :
  frequences <> [] ->
  exists racine, construire_arbre frequences = Ok racine /\
    huffman_glouton (creer_noeuds_feuilles frequences) racine.
Proof.
  intros Hf. destruct (heapify_boucle_gloutonne (creer_noeuds_feuilles frequences))
    as (h & r & Hh & Hloop & Hrun); [by destruct frequences|].
  exists r. split; [|done]. unfold construire_arbre.
  fold (creer_noeuds_feuilles frequences). by rewrite Hh, bind_ret, Hloop.
Qed.

(** C4: with a priority queue for [heapq], both builders run Huffman's
    algorithm: [construire_arbre_huffman] on any non-empty list of leaves,
    and [construire_arbre] on any non-empty dict, return the root of a
    sequence of greedy steps from the leaves, each merging two trees of
    least frequency. *)
Theorem construire_arbres_gloutons (noeuds_feuilles : list (Noeud A)) (frequences : dict A Z) :
  noeuds_feuilles <> [] -> frequences <> [] ->
  (exists racine, construire_arbre_huffman noeuds_feuilles = Ok (Some racine) /\
     huffman_glouton noeuds_feuilles racine) /\
  (exists racine, construire_arbre frequences = Ok racine /\
     huffman_glouton (creer_noeuds_feuilles frequences) racine).
Proof.
  intros Hl Hf. split; [by apply construire_arbre_huffman_glouton|by apply construire_arbre_glouton].
Qed.
End Glouton.

(** ** Witnesses, with CPython's [heapq] *)

Lemma construire_arbres_gloutons_witness :
  exists racine, construire_arbre_huffman (creer_noeuds_feuilles [("a"%char, 2%Z); ("b"%char, 2%Z); ("c"%char, 1%Z)])
    = Ok (Some racine) /\
    huffman_glouton (creer_noeuds_feuilles [("a"%char, 2%Z); ("b"%char, 2%Z); ("c"%char, 1%Z)]) racine.
Proof.
  apply (construire_arbres_gloutons (est_tas noeud_lt)
    (creer_noeuds_feuilles [("a"%char, 2%Z); ("b"%char, 2%Z); ("c"%char, 1%Z)]) [("x"%char, 1%Z)]);
    discriminate.
Defined.
