(* ===== verification/Optimalite.v ===== *)
(** * Optimality of the trees the builders return

    The cost of a code tree is its weighted path length: the sum over the
    leaves of frequency times depth, which is the length of the encoded
    text when the frequencies are the counts of the characters.  This file
    shows that Huffman's greedy algorithm, which [Glouton] shows both
    builders run, returns a tree of least cost among all full binary trees
    with the same leaf frequencies.

    The argument is on weighted trees [arbre] (the shape of a [Noeud] and
    its leaf frequencies): in any tree, the two least weights can be moved
    to the two leaves of a deepest node without raising the cost
    ([echanger], [cerise]); merging them into one leaf lowers the cost by
    their sum ([reduction]); and the greedy algorithm pays exactly that
    sum at its first step ([glouton_optimal]). *)

From stdpp Require Import base list sets strings relations.
From Stdlib Require Import ZArith Ascii.
From S2P Require Import Prelude Noeud Frequences Tas TasOrdre Construction Glouton.

(** ** Weighted trees *)

Inductive arbre : Type :=
  | F (w : Z)
  | N (g d : arbre).

Fixpoint feuilles_a (t : arbre) : list Z :=
  match t with F w => [w] | N g d => feuilles_a g ++ feuilles_a d end.

Fixpoint poids_a (t : arbre) : Z :=
  match t with F w => w | N g d => poids_a g + poids_a d end.

(** The weighted path length: every leaf counts its weight once per edge
    above it. *)
Fixpoint cout (t : arbre) : Z :=
  match t with F _ => 0 | N g d => cout g + cout d + poids_a g + poids_a d end.

(** The subtree at a path ([false] goes left, [true] right). *)
Fixpoint sous (t : arbre) (p : list bool) {struct p} : option arbre :=
  match p, t with
  | [], _ => Some t
  | false :: p, N g _ => sous g p
  | true :: p, N _ d => sous d p
  | _ :: _, F _ => None
  end.

(** The tree with the subtree at [p] replaced by [x]. *)
Fixpoint remplacer (t : arbre) (p : list bool) (x : arbre) {struct p} : arbre :=
  match p, t with
  | [], _ => x
  | false :: p, N g d => N (remplacer g p x) d
  | true :: p, N g d => N g (remplacer d p x)
  | _ :: _, F w => F w
  end.

Fixpoint hauteur (t : arbre) : nat :=
  match t with F _ => 0 | N g d => S (max (hauteur g) (hauteur d)) end.

(** ** Replacing a subtree *)

Lemma poids_feuilles t : poids_a t = foldr Z.add 0%Z (feuilles_a t).
Proof.
  induction t as [w|g IHg d IHd]; simpl; [lia|].
  rewrite foldr_app, IHg, IHd. generalize (feuilles_a g). intros l.
  induction l; simpl; lia.
Qed.

Lemma feuilles_remplacer t p s x :
  sous t p = Some s -> feuilles_a (remplacer t p x) ++ feuilles_a s ≡ₚ feuilles_a t ++ feuilles_a x.
Proof.
  revert t. induction p as [|b p IH]; intros [w|g d] Hs; try destruct b; simpl in *; try done.
  - injection Hs as <-. apply Permutation_app_comm.
  - injection Hs as <-. apply Permutation_app_comm.
  - rewrite <-app_assoc, (IH d Hs), !app_assoc. done.
  - rewrite <-app_assoc, (Permutation_app_comm (feuilles_a d)), app_assoc, (IH g Hs).
    rewrite <-!app_assoc. f_equiv. apply Permutation_app_comm.
Qed.

Lemma poids_remplacer t p s x :
  sous t p = Some s -> poids_a (remplacer t p x) = (poids_a t - poids_a s + poids_a x)%Z.
Proof.
  revert t. induction p as [|b p IH]; intros [w|g d] Hs; try destruct b; simpl in *; try done;
    try (injection Hs as <-; simpl; lia).
  - rewrite (IH d Hs). lia.
  - rewrite (IH g Hs). lia.
Qed.

Lemma cout_remplacer t p s x :
  sous t p = Some s ->
  cout (remplacer t p x) =
  (cout t - cout s + cout x + (poids_a x - poids_a s) * Z.of_nat (length p))%Z.
Proof.
  revert t. induction p as [|b p IH]; intros [w|g d] Hs; try destruct b; simpl in *; try done;
    try (injection Hs as <-; simpl; lia).
  - rewrite (IH d Hs), (poids_remplacer d p s x Hs). lia.
  - rewrite (IH g Hs), (poids_remplacer g p s x Hs). lia.
Qed.

Lemma sous_app t p q : sous t (p ++ q) = s ← sous t p; sous s q.
Proof.
  revert t. induction p as [|b p IH]; intros [w|g d]; try destruct b; simpl; try done; by destruct q as [|[] q].
Qed.

(** The two leaves of [c ++ [false]] and [c ++ [true]] are the children
    of the node at [c]. *)
Lemma sous_cerise t c x y :
  sous t (c ++ [false]) = Some x -> sous t (c ++ [true]) = Some y -> sous t c = Some (N x y).
Proof.
  rewrite !sous_app. destruct (sous t c) as [[w|g d]|]; cbn; try done.
  by intros [= ->] [= ->].
Qed.

(** A leaf has nothing below it: two leaf paths are equal or apart. *)
Lemma sous_feuille_prefixe t p q w s :
  sous t p = Some (F w) -> sous t (p ++ q) = Some s -> q = [].
Proof. rewrite sous_app. intros ->. simpl. by destruct q as [|[] q]. Qed.

(** Replacing the leaf at [p] does not change the leaf at another path. *)
Lemma sous_remplacer_autre t p q w w' x :
  sous t p = Some (F w) -> sous t q = Some (F w') -> p <> q ->
  sous (remplacer t p x) q = Some (F w').
Proof.
  revert t q. induction p as [|b p IH]; intros t q Hp Hq Hne.
  - simpl in Hp. injection Hp as ->. destruct q; simpl in *; [done|]. by destruct b.
  - destruct t as [v|g d]; [by destruct b|].
    destruct q as [|b' q]; [simpl in Hq; done|].
    destruct b, b'; simpl in *; try done; apply IH; try done; congruence.
Qed.

Lemma sous_remplacer_meme t p s x : sous t p = Some s -> sous (remplacer t p x) p = Some x.
Proof.
  revert t. induction p as [|b p IH]; intros [w|g d] Hs; try destruct b; simpl in *; try done; by apply IH.
Qed.

Lemma sous_feuilles t p s : sous t p = Some s -> feuilles_a s ⊆+ feuilles_a t.
Proof.
  revert t. induction p as [|b p IH]; intros [w|g d] Hs; try destruct b; simpl in *; try done;
    try (by injection Hs as <-).
  - etrans; [by apply IH|]. apply submseteq_inserts_l; reflexivity.
  - etrans; [by apply IH|]. apply submseteq_inserts_r; reflexivity.
Qed.

(** Two leaves at different paths are two leaves of the tree. *)
Lemma deux_feuilles t p q w w' :
  sous t p = Some (F w) -> sous t q = Some (F w') -> p <> q -> [w; w'] ⊆+ feuilles_a t.
Proof.
  revert t q. induction p as [|b p IH]; intros t q Hp Hq Hne.
  { simpl in Hp. injection Hp as ->. destruct q as [|[] q]; simpl in *; done. }
  destruct t as [v|g d]; [by destruct b|]. destruct q as [|b' q]; [simpl in Hq; done|].
  simpl. destruct b, b'; simpl in Hp, Hq.
  - apply submseteq_inserts_l. apply (IH d q); [done|done|congruence].
  - apply (sous_feuilles _ _ _) in Hp, Hq. simpl in Hp, Hq.
    change [w; w'] with ([w] ++ [w']). rewrite (Permutation_app_comm [w] [w']).
    by apply submseteq_app.
  - apply (sous_feuilles _ _ _) in Hp, Hq. simpl in Hp, Hq.
    change [w; w'] with ([w] ++ [w']). by apply submseteq_app.
  - apply submseteq_inserts_r. apply (IH g q); [done|done|congruence].
Qed.

Lemma feuille_chemin t x : x ∈ feuilles_a t -> exists p, sous t p = Some (F x).
Proof.
  induction t as [w|g IHg d IHd]; simpl.
  - intros ->%list_elem_of_singleton. by exists [].
  - rewrite elem_of_app. intros [Hx|Hx].
    + destruct (IHg Hx) as [p Hp]. by exists (false :: p).
    + destruct (IHd Hx) as [p Hp]. by exists (true :: p).
Qed.

(** Two leaves of the multiset sit at two different paths. *)
Lemma deux_chemins t a b :
  [a; b] ⊆+ feuilles_a t ->
  exists pa pb, pa <> pb /\ sous t pa = Some (F a) /\ sous t pb = Some (F b).
Proof.
  induction t as [w|g IHg d IHd]; simpl.
  { intros Hs%submseteq_length. simpl in Hs. lia. }
  rewrite submseteq_app_r. intros (l1 & l2 & Hp & H1 & H2).
  pose proof (Permutation_length Hp) as Hl. rewrite length_app in Hl. simpl in Hl.
  destruct l1 as [|x [|y [|z l1]]]; simpl in Hl.
  - simpl in Hp. rewrite <-Hp in H2. destruct (IHd H2) as (pa & pb & Hne & Ha & Hb).
    exists (true :: pa), (true :: pb). split_and!; [congruence|done|done].
  - destruct l2 as [|y [|z l2]]; simpl in Hl; [lia| |lia].
    apply (elem_of_submseteq [x] _ x ltac:(by left)) in H1.
    apply (elem_of_submseteq [y] _ y ltac:(by left)) in H2.
    destruct (feuille_chemin g x H1) as [px Hx]. destruct (feuille_chemin d y H2) as [py Hy].
    simpl in Hp. apply Permutation_length_2_inv in Hp as [[= -> ->]|[= -> ->]].
    + exists (false :: px), (true :: py). split_and!; [congruence|done|done].
    + exists (true :: py), (false :: px). split_and!; [congruence|done|done].
  - destruct l2; simpl in Hl; [|lia]. rewrite app_nil_r in Hp. rewrite <-Hp in H1.
    destruct (IHg H1) as (pa & pb & Hne & Ha & Hb).
    exists (false :: pa), (false :: pb). split_and!; [congruence|done|done].
  - lia.
Qed.

(** ** Deepest nodes *)

Lemma profondeur_feuille t p w : sous t p = Some (F w) -> length p <= hauteur t.
Proof.
  revert t. induction p as [|b p IH]; intros [v|g d] Hs; try destruct b; simpl in *; try done;
    try lia; specialize (IH _ Hs); lia.
Qed.

(** Every tree with two leaves or more has a node whose children are two
    leaves, at the greatest depth. *)
Lemma cerise t :
  (exists g d, t = N g d) ->
  exists c u v, sous t c = Some (N (F u) (F v)) /\ S (length c) = hauteur t.
Proof.
  induction t as [w|g IHg d IHd]; intros (g' & d' & Ht); [done|].
  destruct (decide (hauteur d <= hauteur g)) as [Hle|Hlt].
  - destruct g as [wg|g1 g2].
    + destruct d as [wd|d1 d2]; [|simpl in Hle; lia]. by exists [], wg, wd.
    + destruct IHg as (c & u & v & Hc & Hh); [eauto|].
      exists (false :: c), u, v. split; [done|]. simpl in *. lia.
  - destruct d as [wd|d1 d2]; [simpl in Hlt; lia|].
    destruct IHd as (c & u & v & Hc & Hh); [eauto|].
    exists (true :: c), u, v. split; [done|]. simpl in *. lia.
Qed.

(** ** The exchange argument *)

(** Moving a lighter leaf [w] from [p] to the deeper leaf position [q]
    (and [w'] from [q] to [p]) does not raise the cost. *)
Lemma placer t p q w w' :
  sous t p = Some (F w) -> sous t q = Some (F w') -> (w <= w')%Z -> length p <= length q ->
  exists t', feuilles_a t' ≡ₚ feuilles_a t /\ (cout t' <= cout t)%Z /\
    sous t' q = Some (F w) /\ sous t' p = Some (F w') /\
    (forall r x, r <> p -> r <> q -> sous t r = Some (F x) -> sous t' r = Some (F x)) /\
    (forall r x, sous t r = Some (F x) -> exists y, sous t' r = Some (F y)).
Proof.
  intros Hp Hq Hw Hl. destruct (decide (p = q)) as [<-|Hne].
  { rewrite Hp in Hq. injection Hq as <-. exists t. split_and!; eauto; lia. }
  set (t1 := remplacer t p (F w')).
  assert (sous t1 q = Some (F w')) as Hq1 by (by apply (sous_remplacer_autre _ _ _ w)).
  assert (sous t1 p = Some (F w')) as Hp1 by (by apply (sous_remplacer_meme _ _ (F w))).
  exists (remplacer t1 q (F w)). split_and!.
  - pose proof (feuilles_remplacer t p _ (F w') Hp) as E1.
    pose proof (feuilles_remplacer t1 q _ (F w) Hq1) as E2. simpl in E1, E2.
    apply (Permutation_app_inv_r [w']). by rewrite E2.
  - rewrite (cout_remplacer t1 q _ (F w) Hq1). unfold t1. rewrite (cout_remplacer t p _ (F w') Hp).
    simpl. nia.
  - by apply (sous_remplacer_meme _ _ (F w')).
  - apply (sous_remplacer_autre _ _ _ w'); [done|done|congruence].
  - intros r x Hrp Hrq Hr. apply (sous_remplacer_autre _ _ _ w'); [done| |done].
    by apply (sous_remplacer_autre _ _ _ w).
  - intros r x Hr. destruct (decide (r = q)) as [->|Hrq]; [exists w; by apply (sous_remplacer_meme _ _ (F w'))|].
    destruct (decide (r = p)) as [->|Hrp]; [exists w'; by apply (sous_remplacer_autre _ _ _ w')|].
    exists x. apply (sous_remplacer_autre _ _ _ w'); [done| |done].
    by apply (sous_remplacer_autre _ _ _ w).
Qed.

Lemma longueur_enfant (c : list bool) (b : bool) : length (c ++ [b]) = S (length c).
Proof. rewrite length_app. simpl. lia. Qed.

(** The reduction step: in any tree over [a :: b :: R], with [a] and [b]
    the two least weights, put [a] and [b] under a deepest node and merge
    them into one leaf [a + b]: the result is a tree over
    [(a + b) :: R] cheaper by [a + b] at least. *)
Lemma reduction t a b R :
  feuilles_a t ≡ₚ a :: b :: R -> (a <= b)%Z -> Forall (fun x => b <= x)%Z R ->
  exists t', feuilles_a t' ≡ₚ (a + b)%Z :: R /\ (cout t' + a + b <= cout t)%Z.
Proof.
  intros Ht Hab HR. rewrite Forall_forall in HR.
  assert (forall x, x ∈ a :: b :: R -> (a <= x)%Z) as Hmin_a.
  { intros x [->|[->|Hx]%elem_of_cons]%elem_of_cons; [lia|lia|]. specialize (HR x Hx). lia. }
  destruct t as [w|g d]; [apply Permutation_length in Ht; simpl in Ht; lia|].
  destruct (cerise (N g d)) as (c & u & v & Hc & Hh); [eauto|].
  set (t := N g d) in *. clearbody t.
  set (c0 := c ++ [false]). set (c1 := c ++ [true]).
  assert (sous t c0 = Some (F u)) as Hc0 by (unfold c0; rewrite sous_app, Hc; done).
  assert (sous t c1 = Some (F v)) as Hc1 by (unfold c1; rewrite sous_app, Hc; done).
  assert (c0 <> c1) as H01 by (intros H; apply app_inv_head in H; congruence).
  assert (length c0 = hauteur t /\ length c1 = hauteur t) as [Hl0 Hl1]
    by (unfold c0, c1; rewrite !longueur_enfant; lia).
  destruct (deux_chemins t a b) as (pa & pb & Hpab & Ha & Hb).
  { rewrite Ht. change (a :: b :: R) with ([a; b] ++ R). by apply submseteq_inserts_r. }
  (* a goes to the left leaf of the deepest node *)
  destruct (placer t pa c0 a u Ha Hc0) as (t1 & Hf1 & Hcout1 & Hc0' & Hpa1 & Hautres1 & Hfeuilles1).
  { apply Hmin_a. rewrite <-Ht. apply (elem_of_submseteq [u]); [by left|].
    exact (sous_feuilles t c0 (F u) Hc0). }
  { rewrite Hl0. by apply (profondeur_feuille t pa a). }
  (* b, wherever the first exchange left it *)
  set (pb' := if decide (pb = c0) then pa else pb).
  assert (sous t1 pb' = Some (F b) /\ pb' <> c0 /\ length pb' <= hauteur t) as (Hb1 & Hpb0 & Hlb).
  { unfold pb'. case_decide as Hpb.
    - subst pb. rewrite Hc0 in Hb. injection Hb as ->.
      split_and!; [done|congruence|by apply (profondeur_feuille t pa a)].
    - split_and!; [apply Hautres1; [congruence|done|done]|done|by apply (profondeur_feuille t pb b)]. }
  destruct (Hfeuilles1 c1 v Hc1) as [v' Hv'].
  assert (b <= v')%Z as Hbv.
  { pose proof (deux_feuilles t1 c0 c1 a v' Hc0' Hv' H01) as Hs.
    rewrite Hf1, Ht in Hs. change [a; v'] with ([a] ++ [v']) in Hs.
    change (a :: b :: R) with ([a] ++ b :: R) in Hs. apply submseteq_app_inv_l in Hs.
    apply (elem_of_submseteq [v'] _ v' ltac:(by left)) in Hs.
    apply elem_of_cons in Hs as [->|Hs]; [lia|by apply HR]. }
  (* b goes to the right leaf of the deepest node *)
  destruct (placer t1 pb' c1 b v' Hb1 Hv' Hbv) as (t2 & Hf2 & Hcout2 & Hc1' & _ & Hautres2 & _).
  { lia. }
  assert (sous t2 c0 = Some (F a)) as Hc0''.
  { apply Hautres2; [done|done|done]. }
  assert (sous t2 c = Some (N (F a) (F b))) as Hc2 by (by apply sous_cerise).
  (* merge them *)
  exists (remplacer t2 c (F (a + b))). split.
  - apply (Permutation_app_inv_r [a; b]).
    rewrite (feuilles_remplacer t2 c _ _ Hc2), Hf2, Hf1, Ht. simpl. solve_Permutation.
  - rewrite (cout_remplacer t2 c _ _ Hc2). simpl. nia.
Qed.

(** ** Huffman's algorithm on weights *)

(** [glouton_cout W C]: the greedy algorithm, merging two least weights at
    each step, reduces the multiset [W] to one weight and pays [C], the
    sum of the merged weights. *)
Inductive glouton_cout : list Z -> Z -> Prop :=
  | glouton_fin w : glouton_cout [w] 0
  | glouton_pas W a b R C :
      W ≡ₚ a :: b :: R -> (a <= b)%Z -> Forall (fun x => b <= x)%Z R ->
      glouton_cout ((a + b)%Z :: R) C -> glouton_cout W (a + b + C)%Z.

Lemma glouton_cout_perm W W' C : W ≡ₚ W' -> glouton_cout W C -> glouton_cout W' C.
Proof.
  intros Hp HC. revert Hp. destruct HC as [w|W0 a b R C' HW Hab HR Hrest]; intros Hp.
  - apply Permutation_singleton_l in Hp. subst. constructor.
  - econstructor; [by rewrite <-Hp|done|done|done].
Qed.

Lemma feuilles_a_non_vide t : feuilles_a t <> [].
Proof. induction t as [w|g IHg d IHd]; simpl; [done|]. by intros [? _]%app_eq_nil. Qed.

Lemma cout_feuille t w : feuilles_a t ≡ₚ [w] -> cout t = 0%Z.
Proof.
  destruct t as [v|g d]; [done|]. simpl. intros Hp%Permutation_length.
  pose proof (feuilles_a_non_vide g). pose proof (feuilles_a_non_vide d).
  rewrite length_app in Hp. destruct (feuilles_a g), (feuilles_a d); simpl in *; try done; lia.
Qed.

(** The greedy algorithm is optimal: what it pays on a multiset of
    weights is at most the cost (weighted path length) of every full
    binary tree with these weights at its leaves, whatever their signs. *)
Theorem glouton_optimal W C :
  glouton_cout W C -> forall t, feuilles_a t ≡ₚ W -> (C <= cout t)%Z.
Proof.
  induction 1 as [w|W a b R C HW Hab HR _ IH]; intros t Ht.
  - by rewrite (cout_feuille t w Ht).
  - rewrite HW in Ht. destruct (reduction t a b R Ht Hab HR) as (t' & Ht' & Hcout).
    specialize (IH t' Ht'). lia.
Qed.

(** ** The trees of the builders *)

Section Arbres.
Context {A : Type}.

(** The weighted tree of a node: its shape and the frequencies of its
    leaves. *)
Fixpoint abstrait (n : Noeud A) : arbre :=
  match n with
  | mkNoeud _ _ (Some g) (Some d) => N (abstrait g) (abstrait d)
  | mkNoeud _ f _ _ => F f
  end.

(** The cost of a forest. *)
Definition cout_foret (foret : list (Noeud A)) : Z :=
  foldr (fun n s => cout (abstrait n) + s)%Z 0%Z foret.

(** The trees of the greedy run carry their total frequency at the root. *)
Definition pese (n : Noeud A) : Prop := poids_a (abstrait n) = frequence n.

Lemma cout_foret_perm f1 f2 : f1 ≡ₚ f2 -> cout_foret f1 = cout_foret f2.
Proof. induction 1; simpl; lia. Qed.

Lemma feuilles_foret_a_perm f1 f2 :
  f1 ≡ₚ f2 -> mjoin (map (feuilles_a ∘ abstrait) f1) ≡ₚ mjoin (map (feuilles_a ∘ abstrait) f2).
Proof. intros Hp. by rewrite Hp. Qed.

Lemma pese_fusion (g d : Noeud A) : pese g -> pese d -> pese (fusion g d).
Proof. unfold pese. simpl. lia. Qed.

(** A greedy run of the builders is a greedy run on the frequencies, and
    its tree costs what the run pays plus the cost of the initial forest;
    its leaves are those of the forest. *)
Lemma glouton_arbre foret racine :
  huffman_glouton foret racine -> Forall pese foret ->
  glouton_cout (map frequence foret) (cout (abstrait racine) - cout_foret foret) /\
  feuilles_a (abstrait racine) ≡ₚ mjoin (map (feuilles_a ∘ abstrait) foret).
Proof.
  unfold huffman_glouton. intros Hrun. remember [racine] as fin eqn:Hfin. revert Hfin.
  induction Hrun as [foret|foret foret' fin Hstep _ IH]; intros Hfin Hpese.
  - subst foret. simpl. rewrite Z.add_0_r, Z.sub_diag, app_nil_r. split; [constructor|done].
  - destruct Hstep as [? g d reste foret' Hf Hg Hd Hf'].
    rewrite Hf in Hpese. apply Forall_cons in Hpese as [Hpg [Hpd Hpr]%Forall_cons].
    destruct IH as [IHc IHf]; [done|rewrite Hf'; by constructor; [apply pese_fusion|]|].
    subst fin.
    split.
    + rewrite (cout_foret_perm _ _ Hf). rewrite (cout_foret_perm _ _ Hf') in IHc.
      apply (glouton_cout_perm (map frequence (g :: d :: reste))); [by rewrite Hf|].
      unfold minimal in Hg, Hd. apply Forall_cons in Hg as [Hgd _].
      replace (cout (abstrait racine) - cout_foret (g :: d :: reste))%Z with
        (frequence g + frequence d +
          (cout (abstrait racine) - cout_foret (fusion g d :: reste)))%Z
        by (unfold pese in Hpg, Hpd; simpl; lia).
      apply (glouton_pas _ (frequence g) (frequence d) (map frequence reste));
        [reflexivity|done|by apply Forall_fmap|].
      apply (glouton_cout_perm (map frequence foret')); [by rewrite Hf'|done].
    + rewrite IHf, (feuilles_foret_a_perm _ _ Hf'), (feuilles_foret_a_perm _ _ Hf).
      simpl. by rewrite app_assoc.
Qed.
End Arbres.

Section Optimal.
Context {A : Type} `{!Tas (Noeud A) noeud_lt} `{!TasLois (Noeud A) noeud_lt}.
Context (inv : list (Noeud A) -> Prop) `{!TasMin (Noeud A) noeud_lt inv}.

Definition sont_feuilles (l : list (Noeud A)) : Prop :=
  Forall (fun n => exists c f, n = feuille c f) l.

Lemma sont_feuilles_pese l : sont_feuilles l -> Forall pese l.
Proof. intros Hl. eapply Forall_impl; [exact Hl|]. intros n (c & f & ->). done. Qed.

Lemma sont_feuilles_cout l : sont_feuilles l -> cout_foret l = 0%Z.
Proof. induction 1 as [|n l (c & f & ->) _ IH]; simpl; [done|]. lia. Qed.

Lemma sont_feuilles_poids l : sont_feuilles l -> mjoin (map (feuilles_a ∘ abstrait) l) = map frequence l.
Proof. induction 1 as [|n l (c & f & ->) _ IH]; simpl; [done|]. by rewrite IH. Qed.

(** A greedy run from leaves gives a tree over their frequencies, of
    least cost. *)
Lemma glouton_feuilles_optimal l racine :
  sont_feuilles l -> huffman_glouton l racine ->
  feuilles_a (abstrait racine) ≡ₚ map frequence l /\
  forall t, feuilles_a t ≡ₚ map frequence l -> (cout (abstrait racine) <= cout t)%Z.
Proof.
  intros Hl Hrun. destruct (glouton_arbre l racine Hrun (sont_feuilles_pese l Hl)) as [Hc Hf].
  rewrite sont_feuilles_cout, Z.sub_0_r in Hc by done.
  rewrite sont_feuilles_poids in Hf by done. split; [done|].
  intros t Ht. by apply (glouton_optimal _ _ Hc).
Qed.

(** C6: the trees both builders return are optimal: with a priority
    queue for [heapq], the tree of [construire_arbre_huffman] on a
    non-empty list of leaves, and the tree of [construire_arbre] on a
    non-empty dict, have the given frequencies at their leaves, and no full
    binary tree with these frequencies at its leaves has a smaller
    weighted path length. *)
Theorem construire_arbres_optimaux (noeuds_feuilles : list (Noeud A)) (frequences : dict A Z) :
  noeuds_feuilles <> [] -> sont_feuilles noeuds_feuilles -> frequences <> [] ->
  (exists racine, construire_arbre_huffman noeuds_feuilles = Ok (Some racine) /\
     feuilles_a (abstrait racine) ≡ₚ map frequence noeuds_feuilles /\
     forall t, feuilles_a t ≡ₚ map frequence noeuds_feuilles ->
       (cout (abstrait racine) <= cout t)%Z) /\
  (exists racine, construire_arbre frequences = Ok racine /\
     feuilles_a (abstrait racine) ≡ₚ map snd frequences /\
     forall t, feuilles_a t ≡ₚ map snd frequences -> (cout (abstrait racine) <= cout t)%Z).
Proof.
  intros Hne Hl Hf. split.
  - destruct (construire_arbre_huffman_glouton inv noeuds_feuilles Hne) as (r & Hr & Hrun).
    exists r. split; [done|]. by apply glouton_feuilles_optimal.
  - destruct (construire_arbre_glouton inv frequences Hf) as (r & Hr & Hrun).
    assert (map frequence (creer_noeuds_feuilles frequences) = map snd frequences) as Hm.
    { unfold creer_noeuds_feuilles. rewrite map_map. apply map_ext. by intros []. }
    assert (sont_feuilles (creer_noeuds_feuilles frequences)) as Hl'.
    { apply Forall_forall. intros n ([c f] & -> & _)%list_elem_of_fmap. by exists c, f. }
    exists r. split; [done|]. rewrite <-Hm. by apply glouton_feuilles_optimal.
Qed.
End Optimal.

(** ** Witnesses, with CPython's [heapq] *)

Lemma construire_arbres_optimaux_witness :
  exists racine, construire_arbre [("a"%char, 2%Z); ("b"%char, 2%Z); ("c"%char, 1%Z)] = Ok racine /\
    feuilles_a (abstrait racine) ≡ₚ [2; 2; 1]%Z /\
    forall t, feuilles_a t ≡ₚ [2; 2; 1]%Z -> (cout (abstrait racine) <= cout t)%Z.
Proof.
  apply (construire_arbres_optimaux (est_tas noeud_lt) [feuille "a"%char 2%Z]
    [("a"%char, 2%Z); ("b"%char, 2%Z); ("c"%char, 1%Z)]);
    [discriminate|repeat constructor; eauto|discriminate].
Defined.
