(* ===== verification/Codes.v ===== *)
(** * The code tables

    [generer_codes_huffman] ([src/encodage.py], lines 79-125) checks the
    tree with [verifier_arbre_huffman], raising [ValueError] when it fails,
    then walks it with [parcourir_noeud], recording [code_courant] at each
    leaf.  [generer_codes] ([src/huffman/encodage.py], lines 1-12) walks it
    with [parcourir], which tests [noeud.char] only (a missing child is
    [None.char], an [AttributeError]) and writes [code or "0"], so that a
    one-leaf tree gets the code ["0"].  The table is a dict, written in the
    order of the leaves.

    [chemins n] is the specification: the left (['0']) / right (['1'])
    path from the root to each leaf.  The theorems state that both
    traversals produce exactly these paths (the one-leaf case apart), and
    that the paths are prefix-free. *)

From stdpp Require Import base list sets strings.
From Stdlib Require Import ZArith Ascii.
From S2P Require Import Prelude Noeud Validation.

Section Codes.
Context {A : Type} `{EqDecision A}.

(** [parcourir_noeud(noeud, code_courant)], with the dict [table_codage]
    it writes to passed along. *)
Fixpoint parcourir_noeud (noeud : Noeud A) (code_courant : chaine)
    (table_codage : dict A chaine) : dict A chaine :=
  match est_feuille noeud, caractere noeud with
  | true, Some c => dict_set table_codage c code_courant
  | _, _ =>
      let table_codage :=
        match gauche noeud with
        | Some g => parcourir_noeud g (code_courant ++ [b0]) table_codage
        | None => table_codage
        end in
      match droit noeud with
      | Some d => parcourir_noeud d (code_courant ++ [b1]) table_codage
      | None => table_codage
      end
  end.

(** [generer_codes_huffman(racine)] *)
Definition generer_codes_huffman (racine : option (Noeud A)) : Resultat (dict A chaine) :=
  if negb (verifier_arbre_huffman racine) then raise ValueError
  else Ok (match racine with Some r => parcourir_noeud r [] [] | None => [] end).

(** [code or "0"]: an empty code is replaced by ["0"]. *)
Definition ou_zero (code : chaine) : chaine := match code with [] => [b0] | _ :: _ => code end.

(** [parcourir(noeud, code)] of [src/huffman/encodage.py]. *)
Fixpoint parcourir (noeud : Noeud A) (code : chaine) (codes : dict A chaine)
    : Resultat (dict A chaine) :=
  match caractere noeud with
  | Some c => Ok (dict_set codes c (ou_zero code))
  | None =>
      codes ←
        match gauche noeud with
        | Some g => parcourir g (code ++ [b0]) codes
        | None => raise AttributeError
        end;
      match droit noeud with
      | Some d => parcourir d (code ++ [b1]) codes
      | None => raise AttributeError
      end
  end.

(** [generer_codes(racine)] *)
Definition generer_codes (racine : Noeud A) : Resultat (dict A chaine) :=
  parcourir racine [] [].

(** ** Specification: the root-to-leaf paths *)

Fixpoint chemins (n : Noeud A) : list (A * chaine) :=
  match gauche n, droit n with
  | Some g, Some d =>
      map (fun '(c, q) => (c, b0 :: q)) (chemins g) ++
      map (fun '(c, q) => (c, b1 :: q)) (chemins d)
  | _, _ => match caractere n with Some c => [(c, [])] | None => [] end
  end.

(** The characters of the leaves, left to right. *)
Definition caracteres (n : Noeud A) : list A := map fst (chemins n).

Definition prefixer (p : chaine) (kv : A * chaine) : A * chaine := (kv.1, p ++ kv.2).

Lemma chemins_fusion f g d :
  chemins (mkNoeud None f (Some g) (Some d)) =
  map (fun '(c, q) => (c, b0 :: q)) (chemins g) ++ map (fun '(c, q) => (c, b1 :: q)) (chemins d).
Proof. reflexivity. Qed.

Lemma prefixer_branche p b l :
  map (prefixer p) (map (fun '(c, q) => (c, b :: q)) l) = map (prefixer (p ++ [b])) l.
Proof.
  rewrite map_map. apply map_ext. intros [c q]. unfold prefixer. simpl. by rewrite <-app_assoc.
Qed.

(** [parcourir_noeud] writes the paths of the leaves, prefixed by the
    code of the subtree, in leaf order. *)
Lemma parcourir_noeud_chemins n p t :
  arbre_valide n -> parcourir_noeud n p t = dict_set_tous t (map (prefixer p) (chemins n)).
Proof.
  intros Hv. revert p t. induction Hv as [c f|f g d _ IHg _ IHd]; intros p t.
  - simpl. unfold prefixer. simpl. by rewrite app_nil_r.
  - rewrite chemins_fusion, map_app, dict_set_tous_app, !prefixer_branche.
    simpl. by rewrite IHg, IHd.
Qed.

Lemma ou_zero_branche p b l :
  map (fun kv => (kv.1, ou_zero (p ++ kv.2))) (map (fun '(c, q) => (c, b :: q)) l) =
  map (fun kv => (kv.1, ou_zero ((p ++ [b]) ++ kv.2))) (l : list (A * chaine)).
Proof. rewrite map_map. apply map_ext. intros [c q]. simpl. by rewrite <-app_assoc. Qed.

Lemma parcourir_chemins n p t :
  arbre_valide n ->
  parcourir n p t = Ok (dict_set_tous t (map (fun kv => (kv.1, ou_zero (p ++ kv.2))) (chemins n))).
Proof.
  intros Hv. revert p t. induction Hv as [c f|f g d _ IHg _ IHd]; intros p t.
  - simpl. by rewrite app_nil_r.
  - rewrite chemins_fusion, map_app, dict_set_tous_app, !ou_zero_branche.
    cbn [parcourir caractere gauche droit]. by rewrite IHg, bind_ret, IHd.
Qed.

Lemma chemins_valeurs_branche b l :
  map snd (map (fun '(c, q) => (c, b :: q)) l) = map (cons b) (map snd (l : list (A * chaine))).
Proof. rewrite !map_map. apply map_ext. by intros [c q]. Qed.

Lemma chemins_cles_branche b l :
  map fst (map (fun '(c, q) => (c, b :: q)) l) = map fst (l : list (A * chaine)).
Proof. rewrite map_map. apply map_ext. by intros [c q]. Qed.

(** The paths of a valid tree are prefix-free. *)
Lemma chemins_sans_prefixe n : arbre_valide n -> sans_prefixe (map snd (chemins n)).
Proof.
  induction 1; [apply sans_prefixe_singleton|].
  rewrite chemins_fusion, map_app, !chemins_valeurs_branche.
  by apply sans_prefixe_deux_branches.
Qed.

(** Below an internal node every path is non-empty. *)
Lemma chemins_non_vides f g d :
  Forall (fun kv => kv.2 <> []) (chemins (mkNoeud None f (Some g) (Some d))).
Proof.
  rewrite chemins_fusion. apply Forall_app; split; apply Forall_forall;
    intros kv (kv' & -> & _)%list_elem_of_fmap; by destruct kv'.
Qed.

Lemma ou_zero_chemins_interne f g d :
  map (fun kv => (kv.1, ou_zero kv.2)) (chemins (mkNoeud None f (Some g) (Some d))) =
  chemins (mkNoeud None f (Some g) (Some d)).
Proof.
  pose proof (chemins_non_vides f g d) as Hne. induction Hne as [|[c [|b q]] l]; simpl; [done|done|].
  by f_equal.
Qed.

(** The characters of the paths are those of the leaves. *)
Lemma caracteres_feuilles n :
  arbre_valide n -> map Some (caracteres n) = map caractere (feuilles n).
Proof.
  unfold caracteres. induction 1 as [c f|f g d _ IHg _ IHd]; [done|].
  rewrite chemins_fusion, !map_app, !map_map.
  change (feuilles (mkNoeud None f (Some g) (Some d))) with (feuilles g ++ feuilles d).
  rewrite map_app, <-IHg, <-IHd, !map_map. f_equal; apply map_ext; by intros [].
Qed.

(** Every character of the tree has an entry in the table of its paths. *)
Lemma chemins_couvre n c : c ∈ caracteres n -> is_Some (dict_get (chemins n) c).
Proof.
  intros Hc. destruct (dict_get (chemins n) c) eqn:E; [done|].
  by apply dict_get_None in E.
Qed.

(** ** Properties of the code tables *)

(** [generer_codes_huffman] on a valid tree with positive frequencies and
    distinct characters returns the root-to-leaf paths. *)
Lemma generer_codes_huffman_chemins (racine : Noeud A) :
  arbre_valide racine -> freq_positives racine -> NoDup (caracteres racine) ->
  generer_codes_huffman (Some racine) = Ok (chemins racine).
Proof.
  intros Hv Hp Hnd. unfold generer_codes_huffman. simpl.
  rewrite (proj2 (verifier_noeud_correct racine)) by done. simpl.
  rewrite parcourir_noeud_chemins by done.
  assert (map (prefixer []) (chemins racine) = chemins racine) as ->.
  { rewrite <-(map_id (chemins racine)) at 2. apply map_ext. by intros []. }
  rewrite dict_set_tous_frais; [done|done|]. set_solver.
Qed.

(** [generer_codes] on a valid tree with distinct characters returns the
    root-to-leaf paths with [code or "0"] applied. *)
Lemma generer_codes_chemins (racine : Noeud A) :
  arbre_valide racine -> NoDup (caracteres racine) ->
  generer_codes racine = Ok (map (fun kv => (kv.1, ou_zero kv.2)) (chemins racine)).
Proof.
  intros Hv Hnd. unfold generer_codes. rewrite parcourir_chemins by done.
  rewrite dict_set_tous_frais.
  - done.
  - by rewrite map_map.
  - set_solver.
Qed.

(** C14: [generer_codes_huffman] on a tree with distinct characters either
    raises [ValueError] (when [verifier_arbre_huffman] rejects the tree) or
    returns exactly the root-to-leaf paths, in leaf order, with ['0'] for
    a left edge and ['1'] for a right edge. *)
Theorem generer_codes_huffman_correct (racine : Noeud A) :
  NoDup (caracteres racine) ->
  generer_codes_huffman (Some racine) =
  if verifier_noeud racine then Ok (chemins racine) else raise ValueError.
Proof.
  intros Hnd. destruct (verifier_noeud racine) eqn:E.
  - apply verifier_noeud_correct in E as [Hv Hp]. by apply generer_codes_huffman_chemins.
  - unfold generer_codes_huffman. simpl. by rewrite E.
Qed.

(** C22: [generer_codes] of [src/huffman/encodage.py] on a valid tree with
    distinct characters returns the root-to-leaf paths when the root is
    internal, and the code ["0"] (from [code or "0"]) for a lone leaf. *)
Theorem generer_codes_correct (racine : Noeud A) :
  arbre_valide racine -> NoDup (caracteres racine) ->
  generer_codes racine =
  Ok (match caractere racine with Some c => [(c, [b0])] | None => chemins racine end).
Proof.
  intros Hv Hnd. rewrite generer_codes_chemins by done.
  destruct Hv as [c f|f g d Hg Hd]; [done|]. by rewrite ou_zero_chemins_interne.
Qed.

(** C15: the tables both generators return pass [verifier_propriete_prefixe]:
    no code is a prefix of another. *)
Theorem generer_codes_prefixe (racine : Noeud A) :
  arbre_valide racine -> freq_positives racine -> NoDup (caracteres racine) ->
  (exists t, generer_codes_huffman (Some racine) = Ok t /\ verifier_propriete_prefixe t = true) /\
  (exists t, generer_codes racine = Ok t /\ verifier_propriete_prefixe t = true).
Proof.
  intros Hv Hp Hnd. split.
  - eexists; split; [by apply generer_codes_huffman_chemins|].
    apply verifier_propriete_prefixe_complete. by apply chemins_sans_prefixe.
  - eexists; split; [by apply generer_codes_chemins|].
    apply verifier_propriete_prefixe_complete.
    destruct Hv as [c f|f g d Hg Hd].
    + apply sans_prefixe_singleton.
    + rewrite ou_zero_chemins_interne. by apply chemins_sans_prefixe; constructor.
Qed.
End Codes.

(** ** Witnesses, on the tree of ["aabbc"] *)

Lemma generer_codes_huffman_correct_witness :
  generer_codes_huffman (Some arbre_aabbc) =
  Ok [("a"%char, [b0]); ("c"%char, [b1; b0]); ("b"%char, [b1; b1])].
Proof.
  rewrite (generer_codes_huffman_correct arbre_aabbc); [reflexivity|par_calcul].
Defined.

Lemma generer_codes_correct_witness :
  generer_codes arbre_aabbc =
  Ok [("a"%char, [b0]); ("c"%char, [b1; b0]); ("b"%char, [b1; b1])].
Proof.
  rewrite (generer_codes_correct arbre_aabbc).
  - reflexivity.
  - repeat constructor.
  - par_calcul.
Defined.

Lemma generer_codes_prefixe_witness :
  exists t, generer_codes arbre_aabbc = Ok t /\ verifier_propriete_prefixe t = true.
Proof.
  apply (generer_codes_prefixe arbre_aabbc).
  - repeat constructor.
  - vm_compute. repeat split.
  - par_calcul.
Defined.
