(* ===== verification/Affichage.v ===== *)
(** * Reading the text file and printing the tables

    [lire_fichier], [afficher_frequences] and [analyser_fichier] of
    [src/analyse_frequences.py]; in [Module Huffman], [lire_fichier] and
    [afficher_frequences] of [src/huffman/analyse_frequences.py] and
    [afficher_codes] of [src/huffman/encodage.py].  Each is a computation
    of [Systeme.IO]: what it reads, the lines it prints, in order, and the
    exception it raises. *)

From stdpp Require Import base list sets strings sorting.
From Stdlib Require Import ZArith Ascii QArith.
From S2P Require Import Prelude Systeme Tri Noeud Frequences Codes.

Section Affichage.
Context {A : Type} `{EqDecision A} `{Caracteres A}.

(** ** [src/analyse_frequences.py] *)

(** [lire_fichier(chemin_fichier)]: the handler for [UnicodeDecodeError]
    calls [UnicodeDecodeError(message)], whose constructor takes five
    arguments: that call raises [TypeError]. *)
Definition lire_fichier (chemin_fichier : string) : IO A (list A) :=
  rattraper (lire chemin_fichier) (fun e =>
    match e with
    | FileNotFoundError => lever FileNotFoundError
    | UnicodeDecodeError => lever TypeError
    | e => lever e
    end).

(** The [affichage] of a character in [afficher_frequences]. *)
Definition affichage (caractere : A) : Segment A :=
  if decide (caractere = espace) then Lit "[ESPACE]"
  else if decide (caractere = saut_de_ligne) then Lit "[RETOUR]"
  else if decide (caractere = tabulation) then Lit "[TAB]"
  else Car caractere.

(** [pourcentage = (freq / total) * 100] *)
Definition pourcentage (total freq : Z) : Q := (inject_Z freq / inject_Z total * 100)%Q.

(** One line of the table. *)
Definition ligne_frequence (total : Z) (item : A * Z) : Ligne A :=
  let '(caractere, freq) := item in
  [Format "<15" (affichage caractere); Lit " "; Format "<10" (Entier freq); Lit " ";
   Format ">6.2f" (Flottant (pourcentage total freq)); Lit "%"].

(** The body of [for caractere, freq in items]: [freq / total] raises
    [ZeroDivisionError] when [total] is [0]. *)
Definition afficher_ligne (total : Z) (item : A * Z) : IO A unit :=
  if decide (total = 0%Z) then lever ZeroDivisionError
  else imprimer (ligne_frequence total item).

(** The lines printed before the table. *)
Definition entete_frequences (frequences : dict A Z) : list (Ligne A) :=
  [[Lit (String.append nl (repeter 50 "="))];
   [Lit "ANALYSE DES FRÉQUENCES"];
   [Lit (repeter 50 "=")];
   [Lit (String.append nl "Nombre de caractères uniques : "); Entier (Z.of_nat (length frequences))];
   [Lit "Nombre total de caractères : "; Entier (dict_somme frequences); Lit nl];
   [Format "<15" (Lit "Caractère"); Lit " "; Format "<10" (Lit "Fréquence"); Lit " "; Lit "Pourcentage"];
   [Lit (repeter 50 "-")]].

(** [afficher_frequences(frequences, trier)] *)
Definition afficher_frequences (frequences : dict A Z) (trier : bool) : IO A unit :=
  let items := if trier then py_sorted snd true frequences else frequences in
  _ ← pour_chaque imprimer (entete_frequences frequences);
  let total := dict_somme frequences in
  _ ← pour_chaque (afficher_ligne total) items;
  imprimer [Lit (String.append (repeter 50 "=") nl)].

(** [analyser_fichier(chemin_fichier)] *)
Definition analyser_fichier (chemin_fichier : string)
    : IO A (list A * dict A Z * list (Noeud A)) :=
  _ ← imprimer [Lit "Lecture du fichier : "; Lit chemin_fichier];
  texte ← lire_fichier chemin_fichier;
  _ ← imprimer [Lit "Calcul des fréquences..."];
  let frequences := calculer_frequences texte in
  _ ← imprimer [Lit "Création des nœuds feuilles..."];
  let noeuds := creer_noeuds_feuilles frequences in
  mret (texte, frequences, noeuds).

(** [Noeud.__repr__]: [if self.caractere:] is false for [None] and true
    for a character, a non-empty string. *)
Definition repr_noeud (n : Noeud A) : Ligne A :=
  match caractere n with
  | Some c => [Lit "Noeud('"; Car c; Lit "', freq="; Entier (frequence n); Lit ")"]
  | None => [Lit "Noeud(freq="; Entier (frequence n); Lit ")"]
  end.

(** ** [afficher_arbre] of [src/construction_arbre.py] *)

(** [etiquette]: [f"* (freq={racine.frequence})"] for an internal node,
    [f"'{racine.caractere}' (freq={racine.frequence})"] otherwise. *)
Definition etiquette (racine : Noeud A) : Ligne A :=
  match caractere racine with
  | None => [Lit "* (freq="; Entier (frequence racine); Lit ")"]
  | Some c => [Lit "'"; Car c; Lit "' (freq="; Entier (frequence racine); Lit ")"]
  end.

(** [print(f"{indent}[{branche}] {etiquette}")] *)
Definition ligne_noeud (racine : Noeud A) (indent branche : string) : Ligne A :=
  [Lit indent; Lit "["; Lit branche; Lit "] "] ++ etiquette racine.

(** [afficher_arbre] on a node, and its recursive calls on the children
    that are not [None]. *)
Fixpoint afficher_noeud (racine : Noeud A) (indent branche : string) : IO A unit :=
  _ ← imprimer (ligne_noeud racine indent branche);
  _ ← match gauche racine with
      | Some g => afficher_noeud g (String.append indent "   ") "G"
      | None => mret tt
      end;
  match droit racine with
  | Some d => afficher_noeud d (String.append indent "   ") "D"
  | None => mret tt
  end.

(** [afficher_arbre(racine, indent, branche)] *)
Definition afficher_arbre (racine : option (Noeud A)) (indent branche : string) : IO A unit :=
  match racine with
  | None => imprimer [Lit "(arbre vide)"]
  | Some r => afficher_noeud r indent branche
  end.

End Affichage.

Module Huffman.
Section Huffman.
Context {A : Type} `{EqDecision A} `{Caracteres A}.

(** [lire_fichier(chemin)] of [src/huffman/analyse_frequences.py] *)
Definition lire_fichier (chemin : string) : IO A (list A) := lire chemin.

(** [c = '␣' if char == ' ' else char] *)
Definition symbole (char : A) : Segment A :=
  if decide (char = espace) then Lit "␣" else Car char.

(** [afficher_frequences(frequences)] of [src/huffman/analyse_frequences.py] *)
Definition afficher_frequences (frequences : dict A Z) : IO A unit :=
  _ ← imprimer [Lit "Frequences des caracteres:"];
  pour_chaque (fun '(char, freq) => imprimer [Lit "  "; symbole char; Lit ": "; Entier freq])
    (py_sorted snd true frequences).

(** [afficher_codes(codes)] of [src/huffman/encodage.py] *)
Definition afficher_codes (codes : dict A chaine) : IO A unit :=
  _ ← imprimer [Lit (String.append nl "Table des codes:")];
  pour_chaque (fun '(char, code) => imprimer [Lit "  "; symbole char; Lit ": "; Bits code])
    (py_sorted (fun x => Z.of_nat (length x.2)) false codes).

End Huffman.
End Huffman.

(** ** Properties *)

Section Proprietes.
Context {A : Type} `{EqDecision A} `{Caracteres A}.

Lemma afficher_ligne_sortie (total : Z) item (w : Monde A) :
  total <> 0%Z ->
  afficher_ligne total item w = (mkMonde (fichiers w) (sortie w ++ [ligne_frequence total item]), Ok tt).
Proof. intros Ht. unfold afficher_ligne. by rewrite decide_False. Qed.

(** The table printed for a dict whose values sum to something else
    than [0]: the header, one line per item, the closing line. *)
Lemma afficher_frequences_Ok (frequences : dict A Z) trier (w : Monde A) :
  dict_somme frequences <> 0%Z ->
  afficher_frequences frequences trier w =
  (mkMonde (fichiers w) (sortie w ++ entete_frequences frequences ++
     map (ligne_frequence (dict_somme frequences))
       (if trier then py_sorted snd true frequences else frequences) ++
     [[Lit (String.append (repeter 50 "=") nl)]]), Ok tt).
Proof.
  intros Ht. unfold afficher_frequences, mbind, IO_bind.
  rewrite (pour_chaque_imprimer _ id) by done. cbn [fichiers sortie].
  rewrite (pour_chaque_imprimer _ (ligne_frequence _)) by (intros; by apply afficher_ligne_sortie).
  rewrite imprimer_sortie. cbn [fichiers sortie]. by rewrite map_id, <-!app_assoc.
Qed.

(** The table of the counts of a text: with no item the loop divides by
    nothing, otherwise the total is the length of the text. *)
Lemma afficher_frequences_calculees (t : list A) trier :
  imprime (afficher_frequences (calculer_frequences t) trier)
    (entete_frequences (calculer_frequences t) ++
     map (ligne_frequence (Z.of_nat (length t)))
       (if trier then py_sorted snd true (calculer_frequences t) else calculer_frequences t) ++
     [[Lit (String.append (repeter 50 "=") nl)]]).
Proof.
  intros w. destruct t as [|x t].
  - unfold afficher_frequences, mbind, IO_bind. rewrite (pour_chaque_imprimer _ id) by done.
    cbn [fichiers sortie]. rewrite map_id. change (calculer_frequences []) with (@nil (A * Z)).
    assert (py_sorted snd true (@nil (A * Z)) = []) as -> by reflexivity.
    destruct trier; cbn [pour_chaque map mret IO_ret]; rewrite imprimer_sortie;
      cbn [fichiers sortie]; by rewrite <-app_assoc.
  - rewrite afficher_frequences_Ok by (rewrite calculer_frequences_somme; simpl; lia).
    by rewrite calculer_frequences_somme.
Qed.

(** The lines [afficher_arbre] prints for a node, in order. *)
Fixpoint lignes_arbre (racine : Noeud A) (indent branche : string) : list (Ligne A) :=
  ligne_noeud racine indent branche ::
  match gauche racine with
  | Some g => lignes_arbre g (String.append indent "   ") "G"
  | None => []
  end ++
  match droit racine with
  | Some d => lignes_arbre d (String.append indent "   ") "D"
  | None => []
  end.

Lemma afficher_noeud_lignes (racine : Noeud A) indent branche (w : Monde A) :
  afficher_noeud racine indent branche w =
  (mkMonde (fichiers w) (sortie w ++ lignes_arbre racine indent branche), Ok tt).
Proof.
  revert indent branche w. induction racine as [c f g d IHg IHd] using Noeud_ind'.
  intros indent branche w. cbn [afficher_noeud lignes_arbre gauche droit]. unfold mbind, IO_bind.
  rewrite imprimer_sortie. cbn [fichiers sortie].
  destruct g as [g|]; [rewrite (IHg g eq_refl)|]; cbn [fichiers sortie mret IO_ret];
    (destruct d as [d|]; [rewrite (IHd d eq_refl)|]); cbn [fichiers sortie mret IO_ret];
    by rewrite ?app_nil_r, <-?app_assoc.
Qed.

Lemma append_cons a (s1 s2 : string) : String.append (String a s1) s2 = String a (String.append s1 s2).
Proof. reflexivity. Qed.

Lemma append_assoc' (s1 s2 s3 : string) :
  String.append (String.append s1 s2) s3 = String.append s1 (String.append s2 s3).
Proof. induction s1 as [|a s1 IH]; [done|]. by rewrite !append_cons, IH. Qed.

Lemma append_vide (s : string) : String.append s EmptyString = s.
Proof. induction s as [|a s IH]; [done|]. by rewrite append_cons, IH. Qed.

(** The line of a leaf is indented by three spaces per bit of its path. *)
Lemma lignes_arbre_chemins (racine : Noeud A) indent branche c q :
  arbre_valide racine -> (c, q) ∈ chemins racine ->
  exists b f, ligne_noeud (feuille c f) (String.append indent (repeter (length q) "   ")) b
    ∈ lignes_arbre racine indent branche.
Proof.
  intros Hv. revert indent branche q. induction Hv as [c' f|f g d _ IHg _ IHd]; intros indent branche q.
  - cbn [chemins gauche droit caractere]. intros Hin. apply list_elem_of_singleton in Hin.
    injection Hin as -> ->. exists branche, f.
    rewrite append_vide. by left.
  - rewrite chemins_fusion, elem_of_app, !list_elem_of_fmap.
    intros [([c2 q'] & Heq & Hin)|([c2 q'] & Heq & Hin)]; injection Heq as -> ->.
    + destruct (IHg (String.append indent "   ") "G" _ Hin) as (b & f' & Hl). exists b, f'. right.
      apply elem_of_app. left. simpl length. cbn [repeter]. by rewrite <-append_assoc'.
    + destruct (IHd (String.append indent "   ") "D" _ Hin) as (b & f' & Hl). exists b, f'. right.
      apply elem_of_app. right. simpl length. cbn [repeter]. by rewrite <-append_assoc'.
Qed.

Lemma lignes_arbre_length (racine : Noeud A) indent branche :
  arbre_valide racine -> length (lignes_arbre racine indent branche) = (noeuds_internes racine + length (feuilles racine))%nat.
Proof.
  intros Hv. revert indent branche. induction Hv as [c f|f g d _ IHg _ IHd]; intros indent branche; [done|].
  cbn [lignes_arbre noeuds_internes feuilles gauche droit]. simpl length. rewrite !length_app, IHg, IHd. lia.
Qed.

(** With a total of [0] and at least one item, the first line of the
    table divides by zero. *)
Lemma afficher_frequences_zero (frequences : dict A Z) trier (w : Monde A) :
  frequences <> [] -> dict_somme frequences = 0%Z ->
  afficher_frequences frequences trier w =
  (mkMonde (fichiers w) (sortie w ++ entete_frequences frequences), raise ZeroDivisionError).
Proof.
  intros Hne Ht. unfold afficher_frequences, mbind, IO_bind.
  rewrite (pour_chaque_imprimer _ id) by done. cbn [fichiers sortie]. rewrite map_id.
  destruct (if trier then py_sorted snd true frequences else frequences) as [|it items] eqn:E.
  - exfalso. apply Hne. destruct trier; [|done].
    apply Permutation_nil_r. rewrite <-E. symmetry. apply py_sorted_perm.
  - simpl. unfold mbind, IO_bind, afficher_ligne. rewrite Ht, decide_True by done. done.
Qed.


End Proprietes.

Section Theoremes.
Context {A : Type} `{EqDecision A} `{Caracteres A}.


(** C33: [afficher_arbre(racine)] on a valid tree with [n] leaves prints
    [2n - 1] lines, one per node, and the line of each character is
    indented by three spaces per bit of its root-to-leaf path, the code
    [generer_codes_huffman] gives it. *)
Theorem afficher_arbre_correct (racine : Noeud A) (w : Monde A) :
  arbre_valide racine ->
  exists lignes,
    afficher_arbre (Some racine) "" "R" w = (mkMonde (fichiers w) (sortie w ++ lignes), Ok tt) /\
    length lignes = (2 * length (feuilles racine) - 1)%nat /\
    forall c q, (c, q) ∈ chemins racine ->
      exists b f, ligne_noeud (feuille c f) (repeter (length q) "   ") b ∈ lignes.
Proof.
  intros Hv. exists (lignes_arbre racine "" "R"). split_and!.
  - apply afficher_noeud_lignes.
  - rewrite lignes_arbre_length by done. pose proof (valide_noeuds_internes racine Hv). lia.
  - intros c q Hin. apply (lignes_arbre_chemins racine "" "R" c q Hv Hin).
Qed.

(** C32: [lire_fichier] raises [FileNotFoundError] for a missing file, and
    [TypeError] for a file that is not UTF-8 (the handler's call
    [UnicodeDecodeError(message)] fails), not the [UnicodeDecodeError]
    its docstring announces; otherwise it returns the text with universal
    newlines, which has no ['\r'] and is the file's text when that had
    none.  It changes nothing in the world. *)
Theorem lire_fichier_correct (chemin : string) (w : Monde A) :
  (dict_get (fichiers w) chemin = None -> lire_fichier chemin w = (w, Erreur FileNotFoundError)) /\
  (dict_get (fichiers w) chemin = Some Illisible -> lire_fichier chemin w = (w, Erreur TypeError)) /\
  (forall t, dict_get (fichiers w) chemin = Some (Texte t) ->
     exists t', lire_fichier chemin w = (w, Ok t') /\ (retour_chariot ∉ t') /\
       (retour_chariot ∉ t -> t' = t)).
Proof.
  unfold lire_fichier, rattraper, lire. split_and!; [intros Hg..|intros t Hg]; rewrite Hg; [done|done|].
  eexists. split_and!; [done|apply traduire_sans_cr|apply traduire_identite].
Qed.
End Theoremes.

(** ** Witnesses *)


Lemma afficher_arbre_correct_witness :
  exists lignes,
    afficher_arbre (Some arbre_aabbc) "" "R" (mkMonde [] []) = (mkMonde [] ([] ++ lignes), Ok tt) /\
    length lignes = (2 * length (feuilles arbre_aabbc) - 1)%nat /\
    forall c q, (c, q) ∈ chemins arbre_aabbc ->
      exists b f, ligne_noeud (feuille c f) (repeter (length q) "   ") b ∈ lignes.
Proof. apply (afficher_arbre_correct arbre_aabbc (mkMonde [] [])). repeat constructor. Defined.

Lemma lire_fichier_correct_witness :
  exists t', lire_fichier "test.txt" (mkMonde [("test.txt", Texte (lettres "ab"))] []) =
    (mkMonde [("test.txt", Texte (lettres "ab"))] [], Ok t') /\ (retour_chariot ∉ t') /\
    (retour_chariot ∉ lettres "ab" -> t' = lettres "ab").
Proof.
  apply (lire_fichier_correct "test.txt" (mkMonde [("test.txt", Texte (lettres "ab"))] [])).
  reflexivity.
Defined.
