(* ===== verification/Encodage.v ===== *)
(** * The encoder

    [encoder] ([src/huffman/encodage.py], lines 14-15) is
    ["".join(codes[char] for char in texte)]: [codes[char]] raises
    [KeyError] for a character without a code.  [src/encodage.py] runs the
    same expression inside [encoder_texte] (lines 133-148), after
    [recuperer_arbre_huffman] (lines 21-37) has rebuilt the tree from the
    text's frequencies and [generer_codes_huffman] has derived the table.
    The file [test.txt] both read is the parameter [texte] here. *)

From stdpp Require Import base list sets strings.
From Stdlib Require Import ZArith Ascii.
From S2P Require Import Prelude Noeud Validation Frequences Tas Construction Codes.

Section Encodage.
Context {A : Type} `{EqDecision A}.

(** [encoder(texte, codes)] *)
Fixpoint encoder (texte : list A) (codes : dict A chaine) : Resultat chaine :=
  match texte with
  | [] => Ok []
  | char :: texte =>
      code ← of_option KeyError (dict_get codes char);
      reste ← encoder texte codes;
      Ok (code ++ reste)
  end.

(** ** Lemmas *)

Lemma encoder_app t1 t2 codes :
  encoder (t1 ++ t2) codes = (b1 ← encoder t1 codes; b2 ← encoder t2 codes; Ok (b1 ++ b2)).
Proof.
  induction t1 as [|c t1 IH]; simpl.
  - by destruct (encoder t2 codes).
  - destruct (dict_get codes c); simpl; [|done]. rewrite IH.
    destruct (encoder t1 codes), (encoder t2 codes); simpl; by rewrite ?app_assoc.
Qed.

(** When every character has a code, the encoding is the concatenation of
    the codes, in text order. *)
Lemma encoder_Ok texte codes :
  Forall (fun c => is_Some (dict_get codes c)) texte ->
  encoder texte codes = Ok (mjoin (map (fun c => default [] (dict_get codes c)) texte)).
Proof.
  induction 1 as [|c t [code Hc] _ IH]; simpl; [done|].
  rewrite Hc. simpl. by rewrite IH.
Qed.

(** A successful encoding covers the text and is the concatenation of
    its codes. *)
Lemma encoder_Ok_inv texte codes bits :
  encoder texte codes = Ok bits ->
  Forall (fun c => is_Some (dict_get codes c)) texte /\
  bits = mjoin (map (fun c => default [] (dict_get codes c)) texte).
Proof.
  revert bits. induction texte as [|c t IH]; intros bits; simpl; [by intros [= <-]|].
  destruct (dict_get codes c) eqn:Hc; simpl; [|done].
  destruct (encoder t codes) as [b|]; simpl; [|done]. intros [= <-].
  destruct (IH b eq_refl) as [Hf ->]. split; [constructor; [by eexists|done]|]. simpl. by rewrite ?Hc.
Qed.

(** ** Properties *)

(** C23: The encoder raises [KeyError] exactly when some character has no
    code, and [verifier_codes_caracteres] predicts which case occurs. *)
Theorem encoder_KeyError texte codes :
  (encoder texte codes = raise KeyError <-> verifier_codes_caracteres codes texte = false) /\
  (verifier_codes_caracteres codes texte = true ->
     encoder texte codes = Ok (mjoin (map (fun c => default [] (dict_get codes c)) texte))).
Proof.
  split; [|intros ?%verifier_codes_caracteres_spec; by apply encoder_Ok].
  induction texte as [|c t IH]; simpl; [done|].
  unfold verifier_codes_caracteres in *. simpl.
  destruct (dict_get codes c); simpl; [|done].
  rewrite <-IH. destruct (encoder t codes); simpl; split; congruence.
Qed.

(** ** The pipeline of [src/encodage.py] *)

Context `{!Tas (Noeud A) noeud_lt}.

(** [recuperer_arbre_huffman()]: the frequencies of the file, its leaves,
    the tree. *)
Definition recuperer_arbre_huffman (texte : list A) : Resultat (option (Noeud A)) :=
  construire_arbre_huffman (creer_noeuds_feuilles (calculer_frequences texte)).

(** [encoder_texte()] *)
Definition encoder_texte (texte_original : list A) : Resultat chaine :=
  racine ← recuperer_arbre_huffman texte_original;
  table_codage ← generer_codes_huffman racine;
  encoder texte_original table_codage.
End Encodage.

(** ** Witnesses *)

Lemma encoder_KeyError_witness :
  encoder (lettres "abd") [("a"%char, [b0]); ("b"%char, [b1])] = raise KeyError.
Proof. apply encoder_KeyError. reflexivity. Defined.
