(* ===== verification/Decodage.v ===== *)
(** * The decoder

    [decoder] ([src/huffman/decodage.py], lines 1-11) walks the tree from
    the root, one character of the encoded text at a time: ['0'] goes to
    [noeud.gauche], any other character to [noeud.droite]; on reaching a
    node with a character it emits it and returns to the root.  The child
    read may be [None] (below a leaf), and [None.char] then raises
    [AttributeError].  At the end of the text the characters emitted are
    returned, whatever node the walk stopped at.

    The theorems: decoding inverts encoding for every tree whose root is
    internal ([decoder_encoder]); a one-leaf tree makes every non-empty
    text raise [AttributeError]; a trailing incomplete code is dropped
    without error; characters other than ['0'] and ['1'] are read as
    ['1']. *)

From stdpp Require Import base list sets strings.
From Stdlib Require Import ZArith Ascii.
From S2P Require Import Prelude Noeud Validation Codes Encodage.

Section Decodage.
Context {A : Type}.

(** One turn of [for bit in texte_encode]:
    [noeud = noeud.gauche if bit == '0' else noeud.droite;
     if noeud.char is not None:
         resultat.append(noeud.char); noeud = racine] *)
Definition etape_decoder (racine : Noeud A) (etat : Noeud A * list A) (bit : ascii)
    : Resultat (Noeud A * list A) :=
  let '(noeud, resultat) := etat in
  noeud ← of_option AttributeError (if decide (bit = b0) then gauche noeud else droit noeud);
  match caractere noeud with
  | Some c => Ok (racine, resultat ++ [c])
  | None => Ok (noeud, resultat)
  end.

(** The loop over the bits, from the state [(noeud, resultat)]. *)
Fixpoint boucle_decoder (racine : Noeud A) (bits : chaine) (etat : Noeud A * list A)
    : Resultat (Noeud A * list A) :=
  match bits with
  | [] => Ok etat
  | bit :: bits => etat ← etape_decoder racine etat bit; boucle_decoder racine bits etat
  end.

(** [decoder(texte_encode, racine)] *)
Definition decoder (texte_encode : chaine) (racine : Noeud A) : Resultat (list A) :=
  '(_, resultat) ← boucle_decoder racine texte_encode (racine, []);
  Ok resultat.

(** The child [etape_decoder] moves to on [bit]. *)
Definition enfant (bit : ascii) (noeud : Noeud A) : option (Noeud A) :=
  if decide (bit = b0) then gauche noeud else droit noeud.

(** ** Lemmas *)

Lemma boucle_decoder_app racine b1 b2 etat :
  boucle_decoder racine (b1 ++ b2) etat =
  (etat ← boucle_decoder racine b1 etat; boucle_decoder racine b2 etat).
Proof.
  revert etat. induction b1 as [|b b1 IH]; intros etat; simpl; [done|].
  destruct (etape_decoder racine etat b); simpl; [apply IH|done].
Qed.

(** Following the path [q] of a leaf [c] of the subtree [n], entered from
    [p] by [bit], emits [c] and returns to the root. *)
Lemma descente racine n c q :
  arbre_valide n -> (c, q) ∈ chemins n ->
  forall p bit acc rest, enfant bit p = Some n ->
  boucle_decoder racine (bit :: q ++ rest) (p, acc) = boucle_decoder racine rest (racine, acc ++ [c]).
Proof.
  intros Hv. revert c q. induction Hv as [c' f|f g d Hg IHg Hd IHd]; intros c q Hin p bit acc rest Hp.
  - simpl in Hin. apply list_elem_of_singleton in Hin. injection Hin as -> ->.
    simpl. unfold enfant in Hp. by rewrite Hp.
  - cbn [boucle_decoder]. unfold etape_decoder. unfold enfant in Hp. rewrite Hp. simpl.
    rewrite chemins_fusion, elem_of_app in Hin.
    destruct Hin as [([c0 q0] & Hq & Hin)%list_elem_of_fmap|([c0 q0] & Hq & Hin)%list_elem_of_fmap];
      injection Hq as -> ->.
    + apply IHg; [done|]. unfold enfant. by rewrite decide_True.
    + apply IHd; [done|]. unfold enfant. by rewrite decide_False.
Qed.

(** At an internal root, the path of a leaf decodes to its character. *)
Lemma decoder_chemin racine c q acc rest :
  arbre_valide racine -> caractere racine = None -> (c, q) ∈ chemins racine ->
  boucle_decoder racine (q ++ rest) (racine, acc) = boucle_decoder racine rest (racine, acc ++ [c]).
Proof.
  intros Hv Hc Hin. destruct Hv as [c' f|f g d Hg Hd]; [done|].
  rewrite chemins_fusion, elem_of_app in Hin.
  destruct Hin as [([c0 q0] & Hq & Hin)%list_elem_of_fmap|([c0 q0] & Hq & Hin)%list_elem_of_fmap];
    injection Hq as -> ->.
  - apply (descente _ g _ _ Hg Hin). unfold enfant. by rewrite decide_True.
  - apply (descente _ d _ _ Hd Hin). unfold enfant. by rewrite decide_False.
Qed.

Context `{EqDecision A}.

(** A table whose codes are paths of the tree. *)
Definition table_de (racine : Noeud A) (codes : dict A chaine) : Prop :=
  forall c q, dict_get codes c = Some q -> (c, q) ∈ chemins racine.

Lemma decoder_concat racine codes s acc rest :
  arbre_valide racine -> caractere racine = None -> table_de racine codes ->
  Forall (fun c => is_Some (dict_get codes c)) s ->
  boucle_decoder racine (mjoin (map (fun c => default [] (dict_get codes c)) s) ++ rest) (racine, acc)
  = boucle_decoder racine rest (racine, acc ++ s).
Proof.
  intros Hv Hc Ht Hs. revert acc. induction Hs as [|c s [q Hq] _ IH]; intros acc; simpl.
  - by rewrite app_nil_r.
  - rewrite Hq. simpl. rewrite <-app_assoc, (decoder_chemin racine c q) by auto.
    rewrite IH. by rewrite <-app_assoc.
Qed.

(** The concatenated codes of a text decode to the text. *)
Lemma decoder_mjoin racine codes texte :
  arbre_valide racine -> caractere racine = None -> table_de racine codes ->
  Forall (fun c => is_Some (dict_get codes c)) texte ->
  decoder (mjoin (map (fun c => default [] (dict_get codes c)) texte)) racine = Ok texte.
Proof.
  intros Hv Hc Ht Hcov. unfold decoder.
  by rewrite <-(app_nil_r (mjoin _)), decoder_concat.
Qed.

(** ** Properties *)

(** C1: decoding inverts encoding.  For a valid tree whose root is
    internal and any table of paths of that tree, a text that encodes
    without error decodes back to itself. *)
Theorem decoder_encoder (racine : Noeud A) (codes : dict A chaine) (texte : list A) bits :
  arbre_valide racine -> caractere racine = None -> table_de racine codes ->
  encoder texte codes = Ok bits ->
  decoder bits racine = Ok texte.
Proof.
  intros Hv Hc Ht (Hcov & ->)%encoder_Ok_inv. by apply decoder_mjoin.
Qed.

(** The table of the paths of a tree is a table of that tree. *)
Lemma table_de_chemins racine : table_de racine (chemins racine).
Proof. intros c q. apply dict_get_Some_In. Qed.

(** on a tree that is a single leaf, [decoder] raises
    [AttributeError] on every non-empty encoded text: the first bit moves
    to a child that is [None], and [None.char] is read. *)
Theorem decoder_feuille (c : A) f bit bits :
  decoder (bit :: bits) (feuille c f) = raise AttributeError.
Proof. unfold decoder. simpl. by case_decide. Qed.

(** Following a strict prefix of the path of a leaf of [n], entered from
    [p] by [bit], emits nothing and raises nothing. *)
Lemma descente_partielle racine n c q q' :
  arbre_valide n -> (c, q) ∈ chemins n -> q' `prefix_of` q -> q' <> q ->
  forall p bit acc, enfant bit p = Some n ->
  exists m, boucle_decoder racine (bit :: q') (p, acc) = Ok (m, acc).
Proof.
  intros Hv. revert c q q'.
  induction Hv as [c' f|f g d Hg IHg Hd IHd]; intros c q q' Hin Hpre Hne p bit acc Hp.
  - simpl in Hin. apply list_elem_of_singleton in Hin. injection Hin as -> ->.
    by apply prefix_nil_inv in Hpre.
  - cbn [boucle_decoder]. unfold etape_decoder. unfold enfant in Hp. rewrite Hp. simpl.
    rewrite chemins_fusion, elem_of_app in Hin.
    destruct q' as [|b q']; [by eexists|].
    destruct Hin as [([c0 q0] & Hq & Hin)%list_elem_of_fmap|([c0 q0] & Hq & Hin)%list_elem_of_fmap];
      injection Hq as -> ->; pose proof (prefix_cons_inv_1 _ _ _ _ Hpre) as ->;
      apply prefix_cons_inv_2 in Hpre.
    + eapply IHg; [done|done|congruence|]. unfold enfant. by rewrite decide_True.
    + eapply IHd; [done|done|congruence|]. unfold enfant. by rewrite decide_False.
Qed.

(** C17: a trailing incomplete code is dropped without any error: the
    decoder returns the text of the complete codes before it. *)
Theorem decoder_tronque (racine : Noeud A) codes texte bits c q q' :
  arbre_valide racine -> caractere racine = None -> table_de racine codes ->
  encoder texte codes = Ok bits ->
  (c, q) ∈ chemins racine -> q' `prefix_of` q -> q' <> q ->
  decoder (bits ++ q') racine = Ok texte.
Proof.
  intros Hv Hc Ht (Hcov & ->)%encoder_Ok_inv Hin Hpre Hne.
  unfold decoder. rewrite decoder_concat by done. simpl.
  destruct q' as [|b q']; [done|].
  destruct Hv as [c' f|f g d Hg Hd]; [done|].
  rewrite chemins_fusion, elem_of_app in Hin.
  destruct Hin as [([c0 q0] & Hq & Hin)%list_elem_of_fmap|([c0 q0] & Hq & Hin)%list_elem_of_fmap];
    injection Hq as -> ->; pose proof (prefix_cons_inv_1 _ _ _ _ Hpre) as ->;
    apply prefix_cons_inv_2 in Hpre.
  - destruct (descente_partielle (mkNoeud None f (Some g) (Some d)) g c0 q0 q' Hg Hin Hpre
      ltac:(congruence) (mkNoeud None f (Some g) (Some d)) b0 texte) as (m & ->);
      [unfold enfant; by rewrite decide_True|done].
  - destruct (descente_partielle (mkNoeud None f (Some g) (Some d)) d c0 q0 q' Hd Hin Hpre
      ltac:(congruence) (mkNoeud None f (Some g) (Some d)) b1 texte) as (m & ->);
      [unfold enfant; by rewrite decide_False|done].
Qed.

(** [bit == '0'] is the only test: every other character reads as ['1']. *)
Definition normaliser (bit : ascii) : ascii := if decide (bit = b0) then b0 else b1.

(** C18: no character of the encoded text is rejected; decoding a text is
    decoding its normalisation to ['0'] and ['1']. *)
Theorem decoder_normaliser (racine : Noeud A) bits :
  decoder bits racine = decoder (map normaliser bits) racine.
Proof.
  unfold decoder. f_equal. generalize (racine, @nil A) as etat.
  induction bits as [|bit bits IH]; intros [noeud acc]; simpl; [done|].
  unfold normaliser. destruct (decide (bit = b0)) as [->|Hb]; simpl.
  - destruct (gauche noeud) as [n|]; simpl; [|done].
    destruct (caractere n); simpl; apply IH.
  - destruct (droit noeud) as [n|]; simpl; [|done].
    destruct (caractere n); simpl; apply IH.
Qed.
End Decodage.

(** ** Witnesses, on the tree of ["aabbc"] (a = 0, c = 10, b = 11) *)

Lemma decoder_encoder_witness :
  decoder (lettres "00111110") arbre_aabbc = Ok (lettres "aabbc").
Proof.
  apply (decoder_encoder arbre_aabbc (chemins arbre_aabbc) (lettres "aabbc")).
  - repeat constructor.
  - reflexivity.
  - apply table_de_chemins.
  - vm_compute. reflexivity.
Defined.

Lemma decoder_tronque_witness :
  decoder (lettres "00111110" ++ [b1]) arbre_aabbc = Ok (lettres "aabbc").
Proof.
  apply (decoder_tronque arbre_aabbc (chemins arbre_aabbc) (lettres "aabbc") _ "b"%char [b1; b1]).
  - repeat constructor.
  - reflexivity.
  - apply table_de_chemins.
  - vm_compute. reflexivity.
  - par_calcul.
  - by exists [b1].
  - discriminate.
Defined.

Lemma decoder_normaliser_witness :
  decoder (lettres "0x0") arbre_aabbc = Ok (lettres "ac").
Proof. rewrite decoder_normaliser. vm_compute. reflexivity. Defined.
