(* ===== verification/Pipeline.v ===== *)
(** * The two programs, end to end

    [main] ([src/huffman/main.py], lines 7-26) counts the text, builds the
    tree, derives the table, encodes, decodes, and prints whether the
    decoded text equals the original; [main_encodage] (the
    [if __name__ == '__main__'] block of [src/encodage.py], lines 201-215)
    builds the tree and the table, encodes, and asserts the three checks of
    the validator.  Reading [test.txt], the prints, the statistics and the
    file written are left out: the text is the parameter, and each program
    returns what decides its outcome (the boolean printed, or an
    [AssertionError]). *)

From stdpp Require Import base list sets strings.
From Stdlib Require Import ZArith Ascii.
From S2P Require Import Prelude Noeud Validation Frequences Tas Construction Codes Encodage Decodage.

Section Pipeline.
Context {A : Type} `{EqDecision A} `{!Tas (Noeud A) noeud_lt}.

(** [main()] of [src/huffman/main.py], up to the print of the check. *)
Definition main (texte : list A) : Resultat bool :=
  let frequences := analyser_frequences texte in
  arbre ← construire_arbre frequences;
  codes ← generer_codes arbre;
  texte_encode ← encoder texte codes;
  texte_decode ← decoder texte_encode arbre;
  Ok (bool_decide (texte = texte_decode)).

(** The [__main__] block of [src/encodage.py]. *)
Definition main_encodage (texte : list A) : Resultat unit :=
  racine ← recuperer_arbre_huffman texte;
  table_codage ← generer_codes_huffman racine;
  texte_encode ← encoder_texte texte;
  if negb (verifier_codes_caracteres table_codage texte) then raise AssertionError else
  if negb (verifier_propriete_prefixe table_codage) then raise AssertionError else
  if negb (verifier_texte_encode_non_vide texte_encode) then raise AssertionError else
  Ok tt.

(** ** Lemmas *)

Lemma creer_noeuds_feuilles_caracteres (d : dict A Z) :
  map caractere (creer_noeuds_feuilles d) = map Some (dict_keys d).
Proof. induction d as [|[c f] d IH]; simpl; [done|]. by f_equal. Qed.

Lemma elem_of_map_Some (c : A) l : Some c ∈ map Some l <-> c ∈ l.
Proof. rewrite !list_elem_of_In, in_map_iff. naive_solver. Qed.

Lemma NoDup_map_Some (l : list A) : NoDup (map Some l) <-> NoDup l.
Proof.
  induction l as [|x l IH]; simpl; [split; constructor|].
  by rewrite !NoDup_cons, elem_of_map_Some, IH.
Qed.

(** A tree whose leaves are those of the frequencies of [texte] has the
    distinct characters of [texte]. *)
Lemma caracteres_texte (racine : Noeud A) texte :
  arbre_valide racine ->
  feuilles racine ≡ₚ creer_noeuds_feuilles (calculer_frequences texte) ->
  NoDup (caracteres racine) /\ (forall c, c ∈ caracteres racine <-> c ∈ texte).
Proof.
  intros Hv Hl. apply (Permutation_map caractere) in Hl.
  rewrite <-caracteres_feuilles, creer_noeuds_feuilles_caracteres in Hl by done.
  split.
  - apply NoDup_map_Some. rewrite Hl.
    apply NoDup_map_Some, calculer_frequences_NoDup.
  - intros c. rewrite <-(calculer_frequences_keys texte c).
    rewrite <-(elem_of_map_Some c (caracteres racine)), <-(elem_of_map_Some c (dict_keys _)).
    by rewrite Hl.
Qed.

Context `{!TasLois (Noeud A) noeud_lt}.

(** The tree of a text with two distinct characters: valid, internal
    root, the text's characters, once each. *)
Lemma arbre_texte texte x y :
  x ∈ texte -> y ∈ texte -> x <> y ->
  exists racine f g d,
    construire_arbre (analyser_frequences texte) = Ok racine /\
    construire_arbre_huffman (creer_noeuds_feuilles (calculer_frequences texte)) = Ok (Some racine) /\
    racine = mkNoeud None f (Some g) (Some d) /\ arbre_valide racine /\ freq_positives racine /\
    NoDup (caracteres racine) /\ (forall c, c ∈ caracteres racine <-> c ∈ texte).
Proof.
  intros Hx Hy Hxy.
  destruct (construire_arbre_bon texte) as (r & Hr & (Hv & Hp & _) & Hl & _);
    [intros ->; by apply not_elem_of_nil in Hx|].
  assert (2 <= length (feuilles r)) as H2.
  { rewrite (Permutation_length Hl), creer_noeuds_feuilles_length.
    by apply (calculer_frequences_deux texte x y). }
  destruct (valide_racine_interne r Hv H2) as (f & g & d & Hrfgd & _ & _).
  destruct (caracteres_texte r texte Hv Hl) as [Hnd Hmem].
  exists r, f, g, d. split_and!; try done.
  rewrite construire_arbres_bind, <-analyser_calculer_frequences, Hr; [done|].
  intros Hnil. pose proof (calculer_frequences_deux texte x y Hx Hy Hxy) as H.
  rewrite Hnil in H. simpl in H. lia.
Qed.

Lemma couverture (racine : Noeud A) texte :
  (forall c, c ∈ caracteres racine <-> c ∈ texte) ->
  Forall (fun c => is_Some (dict_get (chemins racine) c)) texte.
Proof. intros Hmem. apply Forall_forall. intros c Hc. by apply chemins_couvre, Hmem. Qed.

(** Below an internal root, a non-empty text encodes to a non-empty string. *)
Lemma encodage_non_vide (f : Z) (g d : Noeud A) (c : A) (texte : list A) :
  Forall (fun c => is_Some (dict_get (chemins (mkNoeud None f (Some g) (Some d))) c)) (c :: texte) ->
  mjoin (map (fun c => default [] (dict_get (chemins (mkNoeud None f (Some g) (Some d))) c))
    (c :: texte)) <> [].
Proof.
  intros Hcov. apply Forall_cons in Hcov as [[q Hq] _].
  change (mjoin (map ?F (c :: texte))) with (F c ++ mjoin (map F texte)). cbv beta.
  rewrite Hq. apply dict_get_Some_In in Hq.
  pose proof (chemins_non_vides f g d) as Hne. rewrite Forall_forall in Hne.
  apply Hne in Hq. simpl in Hq. by intros [? _]%app_eq_nil.
Qed.

(** The steps of [main] on a text with two distinct characters: the
    tree, its code table (the paths), the encoding, and its decoding. *)
Lemma main_etapes (texte : list A) x y :
  x ∈ texte -> y ∈ texte -> x <> y ->
  exists racine bits,
    construire_arbre (analyser_frequences texte) = Ok racine /\
    generer_codes racine = Ok (chemins racine) /\
    encoder texte (chemins racine) = Ok bits /\
    decoder bits racine = Ok texte.
Proof.
  intros Hx Hy Hxy.
  destruct (arbre_texte texte x y Hx Hy Hxy) as (r & f & g & d & Hr & _ & -> & Hv & _ & Hnd & Hmem).
  pose proof (couverture _ texte Hmem) as Hcov.
  eexists _, _. split_and!; [done| |by apply encoder_Ok|].
  - by rewrite generer_codes_chemins, ou_zero_chemins_interne.
  - rewrite decoder_mjoin; [done|done|done|apply table_de_chemins|done].
Qed.

(** The steps of [main] on one character repeated: a lone leaf, the code
    ["0"], and the decoder reads [None.char] below the leaf. *)
Lemma main_un_caractere_etapes (c : A) n :
  construire_arbre (analyser_frequences (replicate (S n) c)) = Ok (feuille c (Z.of_nat (S n))) /\
  generer_codes (feuille c (Z.of_nat (S n))) = Ok [(c, [b0])] /\
  encoder (replicate (S n) c) [(c, [b0])] = Ok (mjoin (replicate (S n) [b0])) /\
  decoder (mjoin (replicate (S n) [b0])) (feuille c (Z.of_nat (S n))) = raise AttributeError.
Proof.
  rewrite analyser_calculer_frequences, calculer_frequences_replicate.
  split_and!; [apply construire_arbre_singleton|done| |done].
  rewrite encoder_Ok; [|apply Forall_replicate; simpl; rewrite decide_True by done; by eexists].
  f_equal. generalize (S n) as k. induction k as [|k IH]; [done|].
  simpl in *. rewrite decide_True by done. simpl. by f_equal.
Qed.

(** ** Properties *)

(** C2: [main] of [src/huffman/main.py] prints "Décodage correct" for
    every text with at least two distinct characters: the text decoded
    from its encoding is the text. *)
Theorem main_correct (texte : list A) x y :
  x ∈ texte -> y ∈ texte -> x <> y -> main texte = Ok true.
Proof.
  intros Hx Hy Hxy.
  destruct (main_etapes texte x y Hx Hy Hxy) as (r & bits & Hr & Hc & He & Hd).
  unfold main. rewrite Hr, bind_ret, Hc, bind_ret, He, bind_ret, Hd, bind_ret.
  f_equal. by apply bool_decide_eq_true_2.
Qed.

(** C19: on a text made of one character repeated, [main] raises
    [AttributeError]: the tree is a single leaf, its code is ["0"], and
    the decoder reads [None.char] below the leaf. *)
Theorem main_un_caractere (c : A) n : main (replicate (S n) c) = raise AttributeError.
Proof.
  destruct (main_un_caractere_etapes c n) as (Hr & Hc & He & Hd).
  unfold main. by rewrite Hr, bind_ret, Hc, bind_ret, He, bind_ret, Hd.
Qed.

(** C20: the [__main__] block of [src/encodage.py] passes its three
    assertions on every text with at least two distinct characters. *)
Theorem main_encodage_correct (texte : list A) x y :
  x ∈ texte -> y ∈ texte -> x <> y -> main_encodage texte = Ok tt.
Proof.
  intros Hx Hy Hxy.
  destruct (arbre_texte texte x y Hx Hy Hxy) as (r & f & g & d & _ & Hr & -> & Hv & Hp & Hnd & Hmem).
  pose proof (couverture _ texte Hmem) as Hcov.
  unfold main_encodage, encoder_texte, recuperer_arbre_huffman.
  rewrite Hr, !bind_ret, generer_codes_huffman_chemins by done.
  rewrite !bind_ret, encoder_Ok by done. rewrite bind_ret.
  rewrite (proj2 (verifier_codes_caracteres_spec _ _)) by done. cbn [negb].
  rewrite verifier_propriete_prefixe_complete by (by apply chemins_sans_prefixe).
  cbn [negb].
  destruct texte as [|c t]; [by apply not_elem_of_nil in Hx|].
  unfold verifier_texte_encode_non_vide.
  destruct (mjoin _) eqn:E; [by apply encodage_non_vide in E|done].
Qed.

(** C21: on a text made of one character repeated, the [__main__] block
    of [src/encodage.py] fails its last assertion: the lone leaf gets the
    empty code, so the encoded text is empty. *)
Theorem main_encodage_un_caractere (c : A) n :
  generer_codes_huffman (Some (feuille c (Z.of_nat (S n)))) = Ok [(c, [])] /\
  encoder_texte (replicate (S n) c) = Ok [] /\
  main_encodage (replicate (S n) c) = raise AssertionError.
Proof.
  assert (generer_codes_huffman (Some (feuille c (Z.of_nat (S n)))) = Ok [(c, [])]) as Hg.
  { unfold generer_codes_huffman. simpl. done. }
  assert (recuperer_arbre_huffman (replicate (S n) c) = Ok (Some (feuille c (Z.of_nat (S n))))) as Hr.
  { unfold recuperer_arbre_huffman. rewrite calculer_frequences_replicate.
    apply construire_arbre_huffman_singleton. }
  assert (encoder (replicate (S n) c) [(c, [])] = Ok []) as He.
  { generalize (S n) as k. induction k as [|k IH]; [done|].
    simpl. rewrite decide_True by done. simpl. by rewrite IH. }
  split_and!; [done| |].
  - unfold encoder_texte. by rewrite Hr, bind_ret, Hg, bind_ret.
  - unfold main_encodage, encoder_texte. rewrite Hr, !bind_ret, Hg, !bind_ret, He, !bind_ret.
    rewrite (proj2 (verifier_codes_caracteres_spec _ _)).
    2:{ apply Forall_replicate. simpl. rewrite decide_True by done. by eexists. }
    rewrite verifier_propriete_prefixe_complete by apply sans_prefixe_singleton.
    done.
Qed.

End Pipeline.

(** ** Witnesses, with CPython's [heapq] *)

Lemma main_correct_witness : main (lettres "aabbc") = Ok true.
Proof.
  apply (main_correct (lettres "aabbc") "a"%char "b"%char); [par_calcul|par_calcul|discriminate].
Defined.

Lemma main_encodage_correct_witness : main_encodage (lettres "aabbc") = Ok tt.
Proof.
  apply (main_encodage_correct (lettres "aabbc") "a"%char "c"%char); [par_calcul|par_calcul|discriminate].
Defined.

Lemma main_un_caractere_witness : main (lettres "xxxx") = raise AttributeError.
Proof. apply (main_un_caractere "x"%char 3). Defined.

Lemma main_encodage_un_caractere_witness :
  main_encodage (lettres "xxxx") = raise AssertionError.
Proof. apply (main_encodage_un_caractere "x"%char 3). Defined.

