(* ===== verification/Compression.v ===== *)
(** * The encoded text is as short as a prefix code of a tree allows

    The length of [encoder(texte, codes)] is the sum over the characters
    of their count times the length of their code.  For the table of the
    root-to-leaf paths of a tree, that is the weighted path length of the
    tree with the counts at its leaves ([longueur_encodage]).  With
    [Optimalite], the text the program encodes is at most as long as the
    text encoded with the paths of any other tree over the same characters
    ([encodage_optimal]). *)

From stdpp Require Import base list sets strings relations.
From Stdlib Require Import ZArith Ascii.
From S2P Require Import Prelude Noeud Validation Frequences Tas TasOrdre Construction Glouton.
From S2P Require Import Optimalite Codes Encodage Pipeline.

Section Compression.
Context {A : Type} `{EqDecision A}.

(** The weighted tree of the shape of [n], each leaf weighing [w] of its
    character. *)
Fixpoint ponderer (w : A -> Z) (n : Noeud A) : arbre :=
  match n with
  | mkNoeud _ _ (Some g) (Some d) => N (ponderer w g) (ponderer w d)
  | mkNoeud (Some c) _ _ _ => F (w c)
  | mkNoeud None f _ _ => F f
  end.

(** The sum over a table of the weight of each character times the
    length of its code. *)
Definition somme_codes (w : A -> Z) (table : list (A * chaine)) : Z :=
  foldr (fun cq s => w cq.1 * Z.of_nat (length cq.2) + s)%Z 0%Z table.

Definition somme_poids (w : A -> Z) (table : list (A * chaine)) : Z :=
  foldr (fun cq s => w cq.1 + s)%Z 0%Z table.

(** ** Lemmas *)

Lemma somme_codes_branche w b (l : list (A * chaine)) :
  somme_codes w (map (fun '(c, q) => (c, b :: q)) l) = (somme_codes w l + somme_poids w l)%Z.
Proof. induction l as [|[c q] l IH]; simpl; [done|]. rewrite IH. lia. Qed.

Lemma somme_codes_app w l1 l2 : somme_codes w (l1 ++ l2) = (somme_codes w l1 + somme_codes w l2)%Z.
Proof. induction l1 as [|[c q] l IH]; simpl; [done|]. rewrite IH. lia. Qed.

Lemma somme_poids_app w l1 l2 : somme_poids w (l1 ++ l2) = (somme_poids w l1 + somme_poids w l2)%Z.
Proof. induction l1 as [|[c q] l IH]; simpl; [done|]. rewrite IH. lia. Qed.

Lemma somme_poids_branche w b (l : list (A * chaine)) :
  somme_poids w (map (fun '(c, q) => (c, b :: q)) l) = somme_poids w l.
Proof. induction l as [|[c q] l IH]; simpl; [done|]. by rewrite IH. Qed.

Lemma ponderer_chemins w n :
  arbre_valide n ->
  poids_a (ponderer w n) = somme_poids w (chemins n) /\
  cout (ponderer w n) = somme_codes w (chemins n) /\
  feuilles_a (ponderer w n) = map w (caracteres n).
Proof.
  unfold caracteres. induction 1 as [c f|f g d _ [Pg [Cg Fg]] _ [Pd [Cd Fd]]]; [simpl; split_and!; [lia|lia|done]|].
  rewrite chemins_fusion. cbn [ponderer cout poids_a feuilles_a]. rewrite somme_poids_app, somme_codes_app, !somme_poids_branche, !somme_codes_branche.
  split_and!; [lia|lia|]. rewrite Fg, Fd, !map_map, map_app, !map_map. f_equal; apply map_ext; by intros [].
Qed.

(** The nodes of the builders carry their frequencies: at the leaves,
    the weights [w] of their characters. *)
Lemma abstrait_ponderer w n :
  arbre_valide n -> Forall (fun l => exists c, l = feuille c (w c)) (feuilles n) ->
  abstrait n = ponderer w n.
Proof.
  induction 1 as [c f|f g d _ IHg _ IHd]; simpl.
  - intros [(c' & Hc) _]%Forall_cons. by injection Hc as -> ->.
  - rewrite Forall_app. intros [Hg Hd]. by rewrite IHg, IHd.
Qed.

Lemma occurrences_cons (c x : A) t :
  occurrences c (x :: t) = ((if decide (x = c) then 1 else 0) + occurrences c t)%Z.
Proof. unfold occurrences. rewrite filter_cons. case_decide; simpl; lia. Qed.

Lemma somme_codes_ext w w' (table : list (A * chaine)) :
  (forall c, w c = w' c) -> somme_codes w table = somme_codes w' table.
Proof. intros Hw. induction table as [|[c q] l IH]; simpl; [done|]. by rewrite IH, Hw. Qed.

Lemma somme_codes_nulle (table : list (A * chaine)) : somme_codes (fun _ => 0%Z) table = 0%Z.
Proof. induction table as [|[c q] l IH]; simpl; [done|]. lia. Qed.

Lemma somme_codes_indicatrice x (table : dict A chaine) w :
  NoDup (dict_keys table) ->
  somme_codes (fun c => (if decide (x = c) then 1 else 0) + w c)%Z table =
  (Z.of_nat (length (default [] (dict_get table x))) + somme_codes w table)%Z.
Proof.
  unfold dict_keys. induction table as [|[c q] l IH]; simpl; [done|].
  rewrite NoDup_cons. intros [Hc Hnd]. rewrite IH by done.
  case_decide as Hxc; simpl; [|lia].
  subst c. rewrite (proj2 (dict_get_None l x)) by done. simpl. lia.
Qed.

(** The length of an encoded text: each character counts the length of
    its code once per occurrence. *)
Lemma longueur_encodage (table : dict A chaine) texte :
  NoDup (dict_keys table) ->
  Z.of_nat (length (mjoin (map (fun c => default [] (dict_get table c)) texte))) =
  somme_codes (fun c => occurrences c texte) table.
Proof.
  intros Hnd. induction texte as [|x t IH].
  - simpl. symmetry. apply somme_codes_nulle.
  - change (mjoin (map ?F (x :: t))) with (F x ++ mjoin (map F t)). cbv beta.
    rewrite length_app, Nat2Z.inj_add, IH.
    rewrite <-(somme_codes_indicatrice x) by done. apply somme_codes_ext. intros c. by rewrite occurrences_cons.
Qed.

Lemma feuilles_occurrences (texte : list A) :
  Forall (fun l => exists c, l = feuille c (occurrences c texte))
    (creer_noeuds_feuilles (calculer_frequences texte)).
Proof.
  unfold creer_noeuds_feuilles. apply Forall_fmap.
  eapply Forall_impl; [apply calculer_frequences_valeurs|]. intros [c f] ->. by exists c.
Qed.

Lemma frequences_occurrences (texte : list A) :
  map frequence (creer_noeuds_feuilles (calculer_frequences texte)) =
  map (fun c => occurrences c texte) (dict_keys (calculer_frequences texte)).
Proof.
  unfold creer_noeuds_feuilles, dict_keys. rewrite !map_map.
  apply map_ext_Forall. eapply Forall_impl; [apply calculer_frequences_valeurs|]. by intros [c f] ->.
Qed.

(** The characters of a code tree over the characters of the text are
    the keys of the frequency dict, up to order. *)
Lemma caracteres_cles (t : Noeud A) texte :
  NoDup (caracteres t) -> (forall c, c ∈ caracteres t <-> c ∈ texte) ->
  caracteres t ≡ₚ dict_keys (calculer_frequences texte).
Proof.
  intros Hnd Hmem. apply NoDup_Permutation; [done|apply calculer_frequences_NoDup|].
  intros c. by rewrite Hmem, calculer_frequences_keys.
Qed.

(** The length of the text encoded with the paths of a code tree is its
    cost with the counts of the text at its leaves. *)
Lemma longueur_chemins (t : Noeud A) texte bits :
  arbre_valide t -> NoDup (caracteres t) -> encoder texte (chemins t) = Ok bits ->
  Z.of_nat (length bits) = cout (ponderer (fun c => occurrences c texte) t).
Proof.
  intros Hv Hnd (_ & ->)%encoder_Ok_inv.
  rewrite longueur_encodage by done. symmetry. apply ponderer_chemins, Hv.
Qed.

Context `{!Tas (Noeud A) noeud_lt} `{!TasLois (Noeud A) noeud_lt}.
Context (inv : list (Noeud A) -> Prop) `{!TasMin (Noeud A) noeud_lt inv}.

(** The text the program encodes is at most as long as the text encoded
    with the paths of any code tree over the same characters: the sum
    over those paths of the count of the character times the length. *)
Lemma encodage_le_arbre (texte : list A) x y :
  x ∈ texte -> y ∈ texte -> x <> y ->
  exists racine bits,
    construire_arbre (analyser_frequences texte) = Ok racine /\
    generer_codes racine = Ok (chemins racine) /\ encoder texte (chemins racine) = Ok bits /\
    Z.of_nat (length bits) = cout (ponderer (fun c => occurrences c texte) racine) /\
    forall t, arbre_valide t -> NoDup (caracteres t) ->
      (forall c, c ∈ caracteres t <-> c ∈ texte) ->
      (Z.of_nat (length bits) <= somme_codes (fun c => occurrences c texte) (chemins t))%Z.
Proof.
  intros Hx Hy Hxy.
  destruct (arbre_texte texte x y Hx Hy Hxy) as (r & f & g & d & Hr & _ & Hrfgd & Hv & _ & Hnd & Hmem).
  destruct (construire_arbre_bon texte) as (r' & Hr' & _ & Hl & _);
    [intros ->; by apply not_elem_of_nil in Hx|].
  rewrite Hr in Hr'. injection Hr' as <-. rewrite analyser_calculer_frequences in Hr.
  destruct (construire_arbre_glouton inv (calculer_frequences texte)) as (r' & Hr' & Hrun);
    [intros Hn; pose proof (proj2 (calculer_frequences_keys texte x) Hx) as H;
     rewrite Hn in H; set_solver|].
  rewrite Hr in Hr'. injection Hr' as <-.
  assert (Hcodes : generer_codes r = Ok (chemins r)).
  { rewrite generer_codes_chemins by done. subst r. by rewrite ou_zero_chemins_interne. }
  pose proof (encoder_Ok texte (chemins r) (couverture r texte Hmem)) as Hbits.
  eexists r, _. split_and!; [by rewrite analyser_calculer_frequences|exact Hcodes|exact Hbits
    |by apply (longueur_chemins r texte)|].
  intros t Hvt Hndt Hmemt.
  rewrite (longueur_chemins r texte), <-(proj1 (proj2 (ponderer_chemins _ t Hvt))) by done.
  rewrite <-abstrait_ponderer by (done || (rewrite Hl; apply feuilles_occurrences)).
  apply (glouton_feuilles_optimal (creer_noeuds_feuilles (calculer_frequences texte)) r).
  - eapply Forall_impl; [apply feuilles_occurrences|]. intros l [c ->]. by exists c, (occurrences c texte).
  - done.
  - rewrite (proj2 (proj2 (ponderer_chemins _ t Hvt))), frequences_occurrences.
    by apply Permutation_map, caracteres_cles.
Qed.

(** C5: with a priority queue for [heapq], the program compresses
    optimally: on a text of at least two distinct characters, the tree of
    [construire_arbre], its codes and the encoded text exist, the length of
    the encoded text is the cost of the tree weighted by the counts of the
    characters, and the text
    encoded with the paths of any other code tree over the same characters
    is at least as long. *)
Theorem encodage_optimal (texte : list A) x y :
  x ∈ texte -> y ∈ texte -> x <> y ->
  exists racine codes bits,
    construire_arbre (analyser_frequences texte) = Ok racine /\
    generer_codes racine = Ok codes /\ encoder texte codes = Ok bits /\
    Z.of_nat (length bits) = cout (ponderer (fun c => occurrences c texte) racine) /\
    forall t bits', arbre_valide t -> NoDup (caracteres t) ->
      (forall c, c ∈ caracteres t <-> c ∈ texte) ->
      encoder texte (chemins t) = Ok bits' -> length bits <= length bits'.
Proof.
  intros Hx Hy Hxy.
  destruct (encodage_le_arbre texte x y Hx Hy Hxy) as (r & bits & Hr & Hc & Hb & Hl & Hopt).
  exists r, (chemins r), bits. split_and!; [done..|].
  intros t bits' Hvt Hndt Hmemt Hbits'. apply Nat2Z.inj_le.
  rewrite (longueur_chemins t texte bits'), (proj1 (proj2 (ponderer_chemins _ t Hvt))) by done.
  by apply Hopt.
Qed.
End Compression.

(** ** Witness, with CPython's [heapq] *)

Lemma encodage_optimal_witness :
  exists racine codes bits,
    construire_arbre (analyser_frequences (lettres "aabbc")) = Ok racine /\
    generer_codes racine = Ok codes /\ encoder (lettres "aabbc") codes = Ok bits /\
    Z.of_nat (length bits) = cout (ponderer (fun c => occurrences c (lettres "aabbc")) racine) /\
    forall t bits', arbre_valide t -> NoDup (caracteres t) ->
      (forall c, c ∈ caracteres t <-> c ∈ lettres "aabbc") ->
      encoder (lettres "aabbc") (chemins t) = Ok bits' -> length bits <= length bits'.
Proof.
  apply (encodage_optimal (est_tas noeud_lt) (lettres "aabbc") "a"%char "b"%char);
    [simpl; left|simpl; do 2 right; left|discriminate].
Defined.
