(* ===== verification/Borne.v ===== *)
(** * A bound on the length of the encoded text

    A text with [n] distinct characters can be written with fixed-length
    codes of [⌈log2 n⌉] bits: the paths of a balanced code tree
    ([equilibre], the leaves halved at each level).  The tree of
    [construire_arbre] costs at most as much as any code tree over the
    same characters ([Compression.encodage_le_arbre]), so the text
    [encoder] returns has at most [⌈log2 n⌉] bits per character
    ([encodage_borne]).  With at most 256 distinct characters that is at
    most the 8 bits per character the programs compare the encoded size
    with. *)

From stdpp Require Import base list sets strings.
From Stdlib Require Import ZArith Ascii.
From S2P Require Import Prelude Noeud Frequences Tas TasOrdre Construction Glouton.
From S2P Require Import Optimalite Codes Encodage Pipeline Compression.

Section Equilibre.
Context {A : Type}.

(** The code tree of depth at most [k] over the characters [l], in order,
    the first half of [l] on the left; [None] when [l] is empty or has
    more than [2^k] characters. *)
Fixpoint equilibre (k : nat) (l : list A) : option (Noeud A) :=
  match l with
  | [] => None
  | [c] => Some (feuille c 0)
  | _ =>
      match k with
      | O => None
      | S k =>
          g ← equilibre k (take (length l / 2) l);
          d ← equilibre k (drop (length l / 2) l);
          Some (fusion g d)
      end
  end.

(** Halving a list of at most [2^(k+1)] characters, at least two, gives
    two non-empty halves of at most [2^k]. *)
Lemma moities_bornees (n k : nat) :
  2 <= n -> n <= 2 ^ S k ->
  0 < n / 2 <= 2 ^ k /\ n / 2 <= n /\ 0 < n - n / 2 <= 2 ^ k.
Proof.
  intros H2 Hk. rewrite Nat.pow_succ_r' in Hk.
  pose proof (Nat.div_mod n 2 ltac:(lia)). pose proof (Nat.mod_upper_bound n 2 ltac:(lia)). lia.
Qed.

Lemma equilibre_spec k l :
  l <> [] -> length l <= 2 ^ k ->
  exists t, equilibre k l = Some t /\ arbre_valide t /\ caracteres t = l /\
    Forall (fun cq => length cq.2 <= k) (chemins t).
Proof.
  revert l. induction k as [|k IH]; intros l Hne Hk.
  - destruct l as [|c [|c' l]]; simpl in *; [done| |lia].
    eexists. split_and!; [done|constructor|done|]. repeat constructor; simpl; lia.
  - destruct l as [|c [|c' l']]; [done| |].
    { eexists. split_and!; [done|constructor|done|]. repeat constructor; simpl; lia. }
    remember (c :: c' :: l') as l eqn:El.
    destruct (moities_bornees (length l) k) as ([Hg1 Hg2] & Hm & Hd1 & Hd2); [subst l; simpl; lia|done|].
    destruct (IH (take (length l / 2) l)) as (g & Eg & Hvg & Cg & Pg);
      [intros Hn%(f_equal length); rewrite length_take_le in Hn by done; cbn [length] in Hn; lia
      |rewrite length_take_le; lia|].
    destruct (IH (drop (length l / 2) l)) as (d & Ed & Hvd & Cd & Pd);
      [intros Hn%(f_equal length); rewrite length_drop in Hn; cbn [length] in Hn; lia|rewrite length_drop; lia|].
    exists (fusion g d). assert (equilibre (S k) l = Some (fusion g d)) as ->.
    { rewrite El at 1. cbn -[take drop length Nat.div]. rewrite <-El, Eg, Ed. done. }
    unfold fusion, caracteres in *. rewrite chemins_fusion.
    split_and!; [done|by constructor| |].
    + by rewrite map_app, !chemins_cles_branche, Cg, Cd, take_drop.
    + apply Forall_app. split; apply Forall_fmap;
        [eapply Forall_impl; [exact Pg|]|eapply Forall_impl; [exact Pd|]];
        intros [c0 q]; simpl; lia.
Qed.
End Equilibre.

Section Borne.
Context {A : Type} `{EqDecision A}.

Lemma somme_codes_borne (w : A -> Z) (k : nat) table :
  Forall (fun cq => 0 <= w cq.1)%Z table -> Forall (fun cq => length cq.2 <= k) table ->
  (somme_codes w table <= Z.of_nat k * somme_poids w table)%Z.
Proof.
  induction table as [|[c q] table IH]; intros Hw Hl; simpl; [lia|].
  apply Forall_cons in Hw as [Hw Hws], Hl as [Hq Hl]. simpl in *.
  specialize (IH Hws Hl). nia.
Qed.

Lemma somme_poids_cles (w : A -> Z) table (d : dict A Z) :
  map fst table = dict_keys d -> Forall (fun kv => kv.2 = w kv.1) d ->
  somme_poids w table = dict_somme d.
Proof.
  unfold dict_keys. revert table. induction d as [|[c f] d IH]; intros [|[c' q] table];
    simpl; try done; intros [= -> Ht] [Hf Hd]%Forall_cons; simpl in *.
  by rewrite Hf, IH.
Qed.

(** Two distinct characters of the text are two keys of its dict. *)
Lemma deux_cles (texte : list A) x y :
  x ∈ texte -> y ∈ texte -> x <> y -> 1 < length (analyser_frequences texte).
Proof.
  intros Hx Hy Hxy. rewrite analyser_calculer_frequences.
  assert (2 <= length (dict_keys (calculer_frequences texte))) as H.
  { change 2 with (length [x; y]). apply NoDup_incl_length.
    - repeat constructor; set_solver.
    - intros c Hc%list_elem_of_In. apply list_elem_of_In, calculer_frequences_keys. set_solver. }
  unfold dict_keys in H. rewrite length_map in H. lia.
Qed.

(** The text encoded with the paths of the balanced tree over the
    characters of the text has at most [k] bits per character. *)
Lemma encodage_equilibre (texte : list A) k :
  texte <> [] -> length (analyser_frequences texte) <= 2 ^ k ->
  exists t bits,
    equilibre k (dict_keys (analyser_frequences texte)) = Some t /\
    arbre_valide t /\ caracteres t = dict_keys (calculer_frequences texte) /\
    encoder texte (chemins t) = Ok bits /\ length bits <= k * length texte.
Proof.
  intros Hne Hk. rewrite analyser_calculer_frequences in *.
  destruct (equilibre_spec k (dict_keys (calculer_frequences texte))) as (t & Et & Hvt & Ct & Pt).
  { destruct texte as [|x texte]; [done|]. intros Hn.
    pose proof (proj2 (calculer_frequences_keys (x :: texte) x) (list_elem_of_here _ _)) as H.
    rewrite Hn in H. set_solver. }
  { unfold dict_keys. by rewrite length_map. }
  assert (forall c, c ∈ caracteres t <-> c ∈ texte) as Hmem.
  { intros c. rewrite Ct. apply calculer_frequences_keys. }
  pose proof (encoder_Ok texte (chemins t) (couverture t texte Hmem)) as Hb.
  eexists t, _. split_and!; [done..|].
  apply Nat2Z.inj_le.
  rewrite Nat2Z.inj_mul, (longueur_chemins t texte) by (done || (rewrite Ct; apply calculer_frequences_NoDup)).
  rewrite (proj1 (proj2 (ponderer_chemins _ t Hvt))).
  etransitivity; [apply (somme_codes_borne _ k)|]; [|done|].
  - apply Forall_forall. intros cq _. unfold occurrences. lia.
  - rewrite (somme_poids_cles _ _ (calculer_frequences texte)), calculer_frequences_somme; [lia|done|].
    eapply Forall_impl; [apply calculer_frequences_valeurs|]. by intros [c f].
Qed.

Context `{!Tas (Noeud A) noeud_lt} `{!TasLois (Noeud A) noeud_lt}.
Context (inv : list (Noeud A) -> Prop) `{!TasMin (Noeud A) noeud_lt inv}.

(** The text the program encodes is no longer than the text encoded
    with the balanced tree, so it has at most [k] bits per character when
    the text has at most [2^k] distinct characters. *)
Lemma encodage_borne_pow (texte : list A) x y k :
  x ∈ texte -> y ∈ texte -> x <> y -> length (analyser_frequences texte) <= 2 ^ k ->
  exists racine bits t bits',
    construire_arbre (analyser_frequences texte) = Ok racine /\
    generer_codes racine = Ok (chemins racine) /\ encoder texte (chemins racine) = Ok bits /\
    equilibre k (dict_keys (analyser_frequences texte)) = Some t /\
    encoder texte (chemins t) = Ok bits' /\
    length bits <= length bits' /\ length bits' <= k * length texte.
Proof.
  intros Hx Hy Hxy Hk.
  destruct (encodage_le_arbre inv texte x y Hx Hy Hxy) as (r & bits & Hr & Hc & Hb & _ & Hopt).
  destruct (encodage_equilibre texte k) as (t & bits' & Et & Hvt & Ct & Hb' & Hl');
    [by intros ->; apply not_elem_of_nil in Hx|done|].
  exists r, bits, t, bits'. split_and!; [done..| |done].
  apply Nat2Z.inj_le.
  rewrite (longueur_chemins t texte bits'), (proj1 (proj2 (ponderer_chemins _ t Hvt)))
    by (done || (rewrite Ct; apply calculer_frequences_NoDup)).
  apply (Hopt t Hvt).
  - rewrite Ct. apply calculer_frequences_NoDup.
  - intros c. rewrite Ct. apply calculer_frequences_keys.
Qed.
(** C8: on a text with [n >= 2] distinct characters, the program builds
    the tree, its codes and the encoded text, and the encoded text is no
    longer than the text encoded with the balanced code tree of depth
    [⌈log2 n⌉] over the same characters, which has at most [⌈log2 n⌉]
    bits per character. *)
Theorem encodage_borne (texte : list A) x y :
  x ∈ texte -> y ∈ texte -> x <> y ->
  exists racine codes bits t bits',
    construire_arbre (analyser_frequences texte) = Ok racine /\
    generer_codes racine = Ok codes /\ encoder texte codes = Ok bits /\
    equilibre (Nat.log2_up (length (analyser_frequences texte)))
      (dict_keys (analyser_frequences texte)) = Some t /\
    encoder texte (chemins t) = Ok bits' /\
    length bits <= length bits' /\
    length bits' <= Nat.log2_up (length (analyser_frequences texte)) * length texte.
Proof.
  intros Hx Hy Hxy.
  destruct (encodage_borne_pow texte x y (Nat.log2_up (length (analyser_frequences texte))))
    as (r & bits & t & bits' & H); [done..| |by eauto 10].
  apply Nat.log2_up_spec, (deux_cles texte x y Hx Hy Hxy).
Qed.
End Borne.

(** ** Witness, with CPython's [heapq] *)

Lemma encodage_borne_witness :
  exists racine codes bits t bits',
    construire_arbre (analyser_frequences (lettres "aabbc")) = Ok racine /\
    generer_codes racine = Ok codes /\ encoder (lettres "aabbc") codes = Ok bits /\
    equilibre (Nat.log2_up (length (analyser_frequences (lettres "aabbc"))))
      (dict_keys (analyser_frequences (lettres "aabbc"))) = Some t /\
    encoder (lettres "aabbc") (chemins t) = Ok bits' /\
    length bits <= length bits' /\
    length bits' <= Nat.log2_up (length (analyser_frequences (lettres "aabbc"))) * length (lettres "aabbc").
Proof.
  apply (encodage_borne (est_tas noeud_lt) (lettres "aabbc") "a"%char "b"%char);
    [simpl; left|simpl; do 2 right; left|discriminate].
Defined.
