(* ===== verification/Prefixe.v ===== *)
(** * Huffman's code against every binary prefix code

    [Compression.encodage_optimal] compares the program's encoding with
    the encodings by the paths of code trees.  Here the comparison is with
    any table of codes a Python dict can hold that the repository's own
    checker [verifier_propriete_prefixe] accepts, written with ['0'] and
    ['1']: such a table is read as a trie, with its one-child nodes
    removed ([arbre_de_table]), which gives a code tree over the same
    characters whose paths are no longer than the codes.  So no binary
    prefix code encodes the text in fewer bits than the program
    ([encodage_optimal_prefixe]). *)

From stdpp Require Import base list sets strings.
From Stdlib Require Import ZArith Ascii.
From S2P Require Import Prelude Noeud Validation Frequences Tas TasOrdre Construction Glouton.
From S2P Require Import Optimalite Codes Encodage Pipeline Compression.

(** ** Prefix-free lists of codes, pair by pair *)

(** No code of the list is a prefix of a later one, nor a later one of it. *)
Fixpoint libre (l : list chaine) : Prop :=
  match l with
  | [] => True
  | x :: l => Forall (fun y => ~ x `prefix_of` y /\ ~ y `prefix_of` x) l /\ libre l
  end.

(** A string of ['0'] and ['1']. *)
Definition binaire (q : chaine) : Prop := Forall (fun b => b = b0 \/ b = b1) q.

Lemma sans_prefixe_libre l : sans_prefixe l -> libre l.
Proof.
  induction l as [|x l IH]; simpl; [done|]. intros H. split.
  - apply Forall_forall. intros y Hy. apply list_elem_of_lookup_1 in Hy as [j Hj].
    split; [apply (H 0 (S j))|apply (H (S j) 0)]; done.
  - apply IH. intros i j ci cj Hij Hi Hj. by apply (H (S i) (S j)); [congruence| |].
Qed.

(** Codes that all start with [b] stay prefix-free without it. *)
Lemma libre_queues b l : Forall (fun q => head q = Some b) l -> libre l -> libre (map tail l).
Proof.
  induction 1 as [|x l Hx Hl IH]; simpl; [done|]. intros [Hxl H]. split; [|auto].
  apply Forall_fmap, Forall_forall. intros y Hy.
  rewrite Forall_forall in Hxl, Hl. destruct (Hxl y Hy) as [Hxy Hyx]. specialize (Hl y Hy).
  destruct x as [|bx x], y as [|bz y]; simpl in *; try discriminate.
  injection Hx as ->. injection Hl as ->.
  split; intros Hp; [apply Hxy|apply Hyx]; by apply prefix_cons.
Qed.

Section Table.
Context {A : Type} `{EqDecision A}.

(** The code of the entry starts with the bit [b]. *)
Definition commence_par (b : ascii) (kv : A * chaine) : Prop := head kv.2 = Some b.

#[local] Instance commence_par_dec b kv : Decision (commence_par b kv).
Proof. unfold commence_par. apply _. Defined.

(** The entries whose code starts with [b], without that bit: the
    subtable of the child [b] of the trie. *)
Definition branche (b : ascii) (T : list (A * chaine)) : list (A * chaine) :=
  map (fun kv => (kv.1, tail kv.2)) (filter (commence_par b) T).

(** The code tree of a table: a leaf for a table of one entry, otherwise
    the two subtables below ['0'] and ['1'], a one-child node being
    replaced by its child; [n] bounds the length of the codes. *)
Fixpoint arbre_de_table (n : nat) (T : list (A * chaine)) : option (Noeud A) :=
  match T with
  | [] => None
  | [(c, _)] => Some (feuille c 0)
  | _ =>
      match n with
      | O => None
      | S n =>
          match branche b0 T, branche b1 T with
          | [], T1 => arbre_de_table n T1
          | T0, [] => arbre_de_table n T0
          | T0, T1 => g ← arbre_de_table n T0; d ← arbre_de_table n T1; Some (fusion g d)
          end
      end
  end.

(** An entry of a tree table is no longer than its entry of the code table. *)
Definition plus_court (p p' : A * chaine) : Prop := p.1 = p'.1 /\ length p.2 <= length p'.2.

(** ** Lemmas *)

Lemma NoDup_map_filter {X Y} (f : X -> Y) (P : X -> Prop) `{!forall x, Decision (P x)} l :
  NoDup (map f l) -> NoDup (map f (filter P l)).
Proof.
  induction l as [|x l IH]; simpl; [done|]. rewrite NoDup_cons. intros [Hx Hl].
  rewrite filter_cons. case_decide; simpl; [|auto].
  rewrite NoDup_cons. split; [|auto]. intros (y & Hy & Hyl)%list_elem_of_fmap.
  apply Hx, list_elem_of_fmap. exists y. split; [done|]. by apply list_elem_of_filter in Hyl as [_ ?].
Qed.

Lemma libre_filter (P : A * chaine -> Prop) `{!forall x, Decision (P x)} T :
  libre (map snd T) -> libre (map snd (filter P T)).
Proof.
  induction T as [|kv T IH]; simpl; [done|]. intros [Hkv HT].
  rewrite filter_cons. case_decide; simpl; [|auto]. split; [|auto].
  rewrite Forall_fmap, Forall_forall in *. intros kv' Hkv'%list_elem_of_filter. apply Hkv, Hkv'.
Qed.

Lemma branche_fst b T : map fst (branche b T) = map fst (filter (commence_par b) T).
Proof. unfold branche. by rewrite map_map. Qed.

Lemma branche_snd b T : map snd (branche b T) = map tail (map snd (filter (commence_par b) T)).
Proof. unfold branche. by rewrite !map_map. Qed.

(** Putting the bit back gives the entries that start with it. *)
Lemma branche_rebrancher b T :
  map (fun '(c, q) => (c, b :: q)) (branche b T) = filter (commence_par b) T.
Proof.
  unfold branche. rewrite map_map. induction T as [|[c q] T IH]; [done|].
  rewrite filter_cons. case_decide as Hb; simpl; [|done].
  rewrite IH. unfold commence_par in Hb. destruct q; simpl in *; [discriminate|by injection Hb as ->].
Qed.

(** In a prefix-free list of two codes or more, no code is empty. *)
Lemma libre_non_vide l : 2 <= length l -> libre l -> Forall (fun q => q <> []) l.
Proof.
  induction l as [|x l IH]; simpl; [lia|]. intros Hn [Hx Hl]. destruct l as [|y l']; [simpl in *; lia|].
  apply Forall_cons in Hx as [[Hxy Hyx] _]. constructor.
  - intros ->. apply Hxy, prefix_nil.
  - destruct l' as [|z l'].
    + constructor; [|constructor]. intros ->. apply Hyx, prefix_nil.
    + apply IH; [simpl; lia|done].
Qed.

(** A table of two binary codes or more splits by the first bit. *)
Lemma table_partition T :
  Forall (fun kv => kv.2 <> [] /\ binaire kv.2) T ->
  T ≡ₚ filter (commence_par b0) T ++ filter (commence_par b1) T.
Proof.
  intros HT. transitivity (filter (commence_par b0) T ++ filter (fun kv => ~ commence_par b0 kv) T);
    [by rewrite filter_app_complement|]. apply reflexive_eq. f_equal.
  induction HT as [|[c q] T [Hq Hb] _ IH]; [done|]. rewrite !filter_cons, IH.
  unfold commence_par. destruct q as [|b q]; [done|]. cbn [head snd].
  apply Forall_cons in Hb as [[-> | ->] _].
  - rewrite decide_False, decide_False; [done|discriminate|tauto].
  - rewrite decide_True, decide_True; [done..|discriminate].
Qed.

Lemma plus_court_branche b l l' :
  Forall2 plus_court l l' ->
  Forall2 plus_court (map (fun '(c, q) => (c, b :: q)) l) (map (fun '(c, q) => (c, b :: q)) l').
Proof.
  induction 1 as [|[c q] [c' q'] l l' [Hc Hq] _ IH]; simpl; constructor; [|done].
  split; simpl in *; [done|lia].
Qed.

Lemma plus_court_allonge b l l' :
  Forall2 plus_court l l' -> Forall2 plus_court l (map (fun '(c, q) => (c, b :: q)) l').
Proof.
  induction 1 as [|[c q] [c' q'] l l' [Hc Hq] _ IH]; simpl; constructor; [|done].
  split; simpl in *; [done|lia].
Qed.

Lemma Forall_snd (P : chaine -> Prop) (T : list (A * chaine)) :
  Forall P (map snd T) -> Forall (fun kv => P kv.2) T.
Proof. induction T as [|kv T IH]; simpl; intros H; [constructor|]. inversion H; subst; constructor; auto. Qed.

(** The hypotheses on a table that the construction keeps: distinct
    characters, prefix-free binary codes of at most [n] bits. *)
Definition table_ok (n : nat) (T : list (A * chaine)) : Prop :=
  NoDup (map fst T) /\ libre (map snd T) /\
  Forall (fun kv => binaire kv.2 /\ length kv.2 <= n) T.

Lemma branche_ok b n T :
  table_ok (S n) T -> Forall (fun kv => kv.2 <> []) T -> table_ok n (branche b T).
Proof.
  intros (Hnd & Hl & Hb) Hne. split_and!.
  - rewrite branche_fst. by apply NoDup_map_filter.
  - rewrite branche_snd. apply (libre_queues b); [|by apply libre_filter].
    apply Forall_fmap, Forall_forall. intros kv Hkv%list_elem_of_filter. apply Hkv.
  - unfold branche. apply Forall_fmap, Forall_forall. intros [c q] [_ Hkv]%list_elem_of_filter.
    rewrite Forall_forall in Hb, Hne. destruct (Hb _ Hkv) as [Hq Hlen]. pose proof (Hne _ Hkv) as Hq0.
    simpl in *. destruct q as [|b' q]; simpl in *; [done|]. apply Forall_cons in Hq as [_ Hq]. split; [done|lia].
Qed.

Lemma arbre_de_table_S n T :
  2 <= length T ->
  arbre_de_table (S n) T =
    match branche b0 T, branche b1 T with
    | [], T1 => arbre_de_table n T1
    | T0, [] => arbre_de_table n T0
    | T0, T1 => g ← arbre_de_table n T0; d ← arbre_de_table n T1; Some (fusion g d)
    end.
Proof. intros Hn. destruct T as [|[c q] [|kv T]]; [simpl in *; lia..|reflexivity]. Qed.

Lemma branche_vide b T : branche b T = [] -> filter (commence_par b) T = [].
Proof. intros E. by rewrite <-branche_rebrancher, E. Qed.

(** The tree of a table has the table's characters, each at a depth no
    larger than the length of its code. *)
Lemma arbre_de_table_spec n T :
  T <> [] -> table_ok n T ->
  exists t T', arbre_de_table n T = Some t /\ arbre_valide t /\ T' ≡ₚ T /\
    Forall2 plus_court (chemins t) T'.
Proof.
  revert T. induction n as [|n IH]; intros T Hne HT.
  all: destruct T as [|[c q] [|kv T0]]; [done| |].
  1,3: exists (feuille c 0), [(c, q)]; split_and!; [done|constructor|done|];
    repeat constructor; simpl; lia.
  - destruct HT as (_ & Hl & Hb). apply libre_non_vide in Hl; [|simpl; lia].
    apply Forall_cons in Hl as [Hq _], Hb as [[_ Hlen] _]. destruct q; simpl in *; [done|lia].
  - remember ((c, q) :: kv :: T0) as T eqn:ET.
    assert (2 <= length T) as H2 by (subst; simpl; lia).
    assert (Forall (fun kv => kv.2 <> []) T) as Hnv.
    { destruct HT as (_ & Hl & _). apply libre_non_vide in Hl; [|by rewrite length_map].
      by apply (Forall_snd (fun q => q <> [])). }
    assert (T ≡ₚ filter (commence_par b0) T ++ filter (commence_par b1) T) as Hp.
    { apply table_partition. destruct HT as (_ & _ & Hb). rewrite Forall_forall in *.
      intros kv' Hkv. split; [by apply Hnv|apply Hb, Hkv]. }
    pose proof (branche_ok b0 n T HT Hnv) as H0. pose proof (branche_ok b1 n T HT Hnv) as H1.
    pose proof (branche_rebrancher b0 T) as R0. pose proof (branche_rebrancher b1 T) as R1.
    rewrite arbre_de_table_S by done.
    destruct (branche b0 T) as [|e0 T0'] eqn:E0, (branche b1 T) as [|e1 T1'] eqn:E1.
    + simpl in R0, R1. rewrite <-R0, <-R1 in Hp. apply Permutation_nil_r in Hp. by subst.
    + destruct (IH (e1 :: T1')) as (t & T1'' & Ht & Hv & HpT & Hf); [done|done|].
      exists t, (map (fun '(c, q) => (c, b1 :: q)) T1''). split_and!; [done|done| |].
      * rewrite Hp, <-R0, <-R1, HpT. done.
      * by apply plus_court_allonge.
    + destruct (IH (e0 :: T0')) as (t & T0'' & Ht & Hv & HpT & Hf); [done|done|].
      exists t, (map (fun '(c, q) => (c, b0 :: q)) T0''). split_and!; [done|done| |].
      * rewrite Hp, <-R0, <-R1, HpT. simpl. by rewrite app_nil_r.
      * by apply plus_court_allonge.
    + destruct (IH (e0 :: T0')) as (g & T0'' & Hg & Hvg & HpT0 & Hf0); [done|done|].
      destruct (IH (e1 :: T1')) as (d & T1'' & Hd & Hvd & HpT1 & Hf1); [done|done|].
      exists (fusion g d), (map (fun '(c, q) => (c, b0 :: q)) T0'' ++ map (fun '(c, q) => (c, b1 :: q)) T1'').
      cbv zeta. rewrite Hg, Hd. split_and!; [done|by apply valide_fusion| |].
      * rewrite Hp, <-R0, <-R1, HpT0, HpT1. done.
      * unfold fusion. rewrite chemins_fusion. apply Forall2_app; by apply plus_court_branche.
Qed.
End Table.

Section Optimal.
Context {A : Type} `{EqDecision A}.

Lemma plus_court_fst (l l' : list (A * chaine)) : Forall2 plus_court l l' -> map fst l = map fst l'.
Proof. induction 1 as [|p p' l l' [Hp _] _ IH]; simpl; [done|]. by rewrite Hp, IH. Qed.

Lemma plus_court_somme (w : A -> Z) (l l' : list (A * chaine)) :
  Forall (fun kv => 0 <= w kv.1)%Z l' -> Forall2 plus_court l l' ->
  (somme_codes w l <= somme_codes w l')%Z.
Proof.
  intros Hw Hf. revert Hw. induction Hf as [|[c q] [c' q'] l l' [Hc Hq] _ IH]; simpl in *; [lia|].
  intros [Hw' Hw]%Forall_cons. subst c'. specialize (IH Hw). simpl in Hw'. nia.
Qed.

Lemma somme_codes_perm (w : A -> Z) (l l' : list (A * chaine)) :
  l ≡ₚ l' -> somme_codes w l = somme_codes w l'.
Proof. induction 1; simpl in *; lia. Qed.

(** Entries of weight zero count for nothing. *)
Lemma somme_codes_filtre (w : A -> Z) (P : A * chaine -> Prop) `{!forall x, Decision (P x)} l :
  (forall kv, kv ∈ l -> ~ P kv -> w kv.1 = 0%Z) -> somme_codes w (filter P l) = somme_codes w l.
Proof.
  induction l as [|[c q] l IH]; intros Hw; [done|]. rewrite filter_cons.
  assert (forall kv, kv ∈ l -> ~ P kv -> w kv.1 = 0%Z) as Hw' by (intros; apply Hw; [by right|done]).
  case_decide as HP; simpl; rewrite IH by done; [done|].
  pose proof (Hw (c, q) ltac:(left) HP) as E. simpl in E. lia.
Qed.

Lemma longueur_mjoin (q : chaine) L : q ∈ L -> length q <= length (mjoin L).
Proof.
  induction L as [|q' L IH]; [by intros ?%not_elem_of_nil|].
  intros [->|Hq]%elem_of_cons; simpl; rewrite length_app; [lia|]. specialize (IH Hq). lia.
Qed.

Context `{!Tas (Noeud A) noeud_lt} `{!TasLois (Noeud A) noeud_lt}.
Context (inv : list (Noeud A) -> Prop) `{!TasMin (Noeud A) noeud_lt inv}.

(** C7: with a priority queue for [heapq], on a text with at least two
    distinct characters, the text the program encodes with the codes of
    [construire_arbre] and [generer_codes] is no longer than the text
    [encoder] makes with any dict of codes written with ['0'] and ['1']
    that [verifier_propriete_prefixe] accepts: Huffman's code is optimal
    among the binary prefix codes. *)
Theorem encodage_optimal_prefixe (texte : list A) x y (codes : dict A chaine) bits' :
  x ∈ texte -> y ∈ texte -> x <> y ->
  NoDup (dict_keys codes) -> Forall binaire (dict_values codes) ->
  verifier_propriete_prefixe codes = true ->
  encoder texte codes = Ok bits' ->
  exists racine codes_h bits,
    construire_arbre (analyser_frequences texte) = Ok racine /\
    generer_codes racine = Ok codes_h /\ encoder texte codes_h = Ok bits /\
    length bits <= length bits'.
Proof.
  intros Hx Hy Hxy Hnd Hbin Hpre Henc.
  destruct (encodage_le_arbre inv texte x y Hx Hy Hxy) as (r & bits & Hr & Hc & Hb & _ & Hopt).
  exists r, (chemins r), bits. split_and!; [done..|].
  destruct (encoder_Ok_inv _ _ _ Henc) as [Hcov ->].
  set (T := filter (fun kv => kv.1 ∈ texte) codes).
  assert (forall kv, kv ∈ T <-> kv ∈ codes /\ kv.1 ∈ texte) as HT by (intros; unfold T; rewrite list_elem_of_filter; tauto).
  assert (table_ok (length (mjoin (map snd T))) T) as Hok.
  { split_and!.
    - by apply NoDup_map_filter.
    - by apply libre_filter, sans_prefixe_libre, verifier_propriete_prefixe_sound.
    - apply Forall_forall. intros kv Hkv. split.
      + apply (proj1 (Forall_forall _ _) Hbin). apply list_elem_of_fmap. exists kv. split; [done|]. by apply HT.
      + apply longueur_mjoin, list_elem_of_fmap. by exists kv. }
  assert (T <> []) as HneT.
  { rewrite Forall_forall in Hcov. destruct (Hcov x Hx) as [q Hq].
    intros HT0. apply (not_elem_of_nil (x, q)). rewrite <-HT0. apply HT. split; [by apply dict_get_Some_In|done]. }
  destruct (arbre_de_table_spec _ T HneT Hok) as (t & T' & _ & Hvt & HpT & Hf).
  assert (caracteres t = map fst T') as Hcar by (by apply plus_court_fst).
  assert (map fst T' ≡ₚ map fst T) as HpF by (by apply Permutation_map).
  apply Nat2Z.inj_le. rewrite longueur_encodage by done.
  etransitivity; [apply (Hopt t Hvt)|].
  - rewrite Hcar, HpF. apply Hok.
  - intros c. rewrite Hcar, HpF, list_elem_of_fmap. split.
    + intros ([c' q] & -> & Hkv). by apply HT in Hkv as [_ ?].
    + intros Hc'. rewrite Forall_forall in Hcov. destruct (Hcov c Hc') as [q Hq].
      exists (c, q). split; [done|]. apply HT. split; [by apply dict_get_Some_In|done].
  - etransitivity; [apply (plus_court_somme _ _ T')|]; [|done|].
    + apply Forall_forall. intros kv _. unfold occurrences. lia.
    + rewrite (somme_codes_perm _ T' T HpT). unfold T. rewrite somme_codes_filtre; [done|].
      intros kv _ Hkv. by apply occurrences_zero.
Qed.
End Optimal.

(** ** Witness, with CPython's [heapq] and a fixed-length code *)

Lemma encodage_optimal_prefixe_witness :
  exists racine codes_h bits,
    construire_arbre (analyser_frequences (lettres "aabbc")) = Ok racine /\
    generer_codes racine = Ok codes_h /\ encoder (lettres "aabbc") codes_h = Ok bits /\
    length bits <= length (lettres "0000010110").
Proof.
  apply (encodage_optimal_prefixe (est_tas noeud_lt) (lettres "aabbc") "a"%char "b"%char
    [("a"%char, lettres "00"); ("b"%char, lettres "01"); ("c"%char, lettres "10")]);
    [simpl; left|simpl; do 2 right; left|discriminate|par_calcul
    |repeat ((left; reflexivity) || (right; reflexivity) || constructor)
    |vm_compute; reflexivity|vm_compute; reflexivity].
Defined.
