(* ===== verification/Sauvegarde.v ===== *)
(** * Saving the encoded text and the statistics

    [sauvegarder_texte_encode] ([src/encodage.py], lines 154-175) writes the
    encoded text to a file whose name is built from [nom_fichier] with
    [nom_fichier[:nom_fichier.rfind('.')] + "_compressé." +
     nom_fichier[nom_fichier.rfind('.')+1:]], then compares the encoded size
    with eight bits per character of the original text and prints which
    case holds.  [calculer_stats] ([src/huffman/decodage.py], lines 13-23)
    computes the same sizes, the ratio and the gain.

    A file name is a [chaine], the UTF-8 bytes of the Python string: the
    only character searched for is ['.'], a single byte that occurs in no
    multi-byte sequence, so slicing the bytes at the position of the last
    ['.'] gives the bytes of the slices of the string.  The function is an
    [IO] run ([Systeme]): it writes the file, reads [test.txt] again with
    [lire_fichier] of [src/analyse_frequences.py] (whose errors it lets
    through) and prints the two sizes and the verdict.  Python's floats in
    [calculer_stats] are rationals here ([Q]). *)

From stdpp Require Import base list sets strings.
From Stdlib Require Import ZArith Ascii QArith.
From S2P Require Import Prelude Systeme Affichage.

(** ** Python string operations *)

(** [s.rfind(c)]: the index of the last occurrence of [c], or [-1]. *)
Fixpoint rfind_depuis (s : chaine) (c : ascii) (i : Z) (trouve : Z) : Z :=
  match s with
  | [] => trouve
  | x :: s => rfind_depuis s c (i + 1) (if decide (x = c) then i else trouve)
  end.

Definition rfind (s : chaine) (c : ascii) : Z := rfind_depuis s c 0 (-1).

(** A Python index [k] into a sequence of length [n], negative indices
    counting from the end, clamped to [0, n] as slices do. *)
Definition indice_tranche (n : nat) (k : Z) : nat :=
  if decide (k < 0)%Z then Z.to_nat (Z.of_nat n + k) else Z.to_nat k.

(** [s[:k]] *)
Definition tranche_jusqua (s : chaine) (k : Z) : chaine := take (indice_tranche (length s) k) s.

(** [s[k:]] *)
Definition tranche_depuis (s : chaine) (k : Z) : chaine := drop (indice_tranche (length s) k) s.

(** ** [sauvegarder_texte_encode] *)

(** The name of the file written. *)
Definition nom_fichier_compresse (nom_fichier : chaine) : chaine :=
  tranche_jusqua nom_fichier (rfind nom_fichier ".") ++ lettres "_compressé." ++
  tranche_depuis nom_fichier (rfind nom_fichier "." + 1).

(** [sauvegarder_texte_encode(texte_encode, nom_fichier)] *)
Definition sauvegarder_texte_encode {A} `{EqDecision A} `{Caracteres A}
    (texte_encode : chaine) (nom_fichier : chaine) : IO A unit :=
  _ ← ecrire (String.string_of_list_ascii (nom_fichier_compresse nom_fichier)) (bits_en_texte texte_encode);
  texte_original ← lire_fichier "test.txt";
  let taille_original := (length texte_original * 8)%nat in
  let taille_encode := length texte_encode in
  _ ← imprimer [Lit "Taille fichier original : "; Entier (Z.of_nat taille_original); Lit " bits"];
  _ ← imprimer [Lit "Taille fichier encodé : "; Entier (Z.of_nat taille_encode); Lit " bits"];
  if decide (taille_encode < taille_original)%nat then imprimer [Lit "Compression réussie !"]
  else imprimer [Lit "Aucune compression obtenue."].

(** [calculer_stats(texte_original, texte_encode)]: the sizes in bits, the
    ratio and the gain it prints. *)
Definition calculer_stats {A} (texte_original : list A) (texte_encode : chaine)
    : Resultat (Z * Z * Q * Q) :=
  let original := (Z.of_nat (length texte_original) * 8)%Z in
  let compresse := Z.of_nat (length texte_encode) in
  if decide (original = 0%Z) then raise ZeroDivisionError else
  let taux := (inject_Z compresse / inject_Z original)%Q in
  let gain := (1 - taux)%Q in
  Ok (original, compresse, taux, gain).

(** ** Lemmas *)

Lemma rfind_depuis_app p q c i trouve :
  rfind_depuis (p ++ q) c i trouve =
  rfind_depuis q c (i + Z.of_nat (length p)) (rfind_depuis p c i trouve).
Proof.
  revert i trouve. induction p as [|x p IH]; intros i trouve; simpl; [by rewrite Z.add_0_r|].
  rewrite IH. f_equal. lia.
Qed.

Lemma rfind_depuis_absent q c i trouve : c ∉ q -> rfind_depuis q c i trouve = trouve.
Proof.
  revert i. induction q as [|x q IH]; intros i Hc; simpl; [done|].
  apply not_elem_of_cons in Hc as [Hx Hq]. rewrite decide_False by congruence. auto.
Qed.

(** The last ['.'] of [base ++ "." :: ext], when [ext] has none, is at
    [length base]. *)
Lemma rfind_dernier base ext c : c ∉ ext -> rfind (base ++ c :: ext) c = Z.of_nat (length base).
Proof.
  intros Hc. unfold rfind. rewrite rfind_depuis_app. simpl.
  rewrite decide_True by done. by rewrite rfind_depuis_absent.
Qed.

Lemma indice_tranche_pos n k : (0 <= k)%Z -> indice_tranche n k = Z.to_nat k.
Proof. intros Hk. unfold indice_tranche. by rewrite decide_False by lia. Qed.

(** ** Properties *)

(** C28: the name of the file [sauvegarder_texte_encode] writes.  When
    [nom_fichier] has a ['.'], ["_compressé"] is inserted before its last
    one ([texte_encode.txt] gives [texte_encode_compressé.txt]).  When it
    has none, [rfind] returns [-1]: the slice [[:-1]] drops the last
    character and the slice [[0:]] repeats the whole name after the dot
    ([texte] gives [text_compressé.texte]). *)
Theorem nom_fichier_compresse_correct (nom_fichier base ext : chaine) :
  "."%char ∉ ext ->
  nom_fichier_compresse (base ++ "."%char :: ext) = base ++ lettres "_compressé." ++ ext /\
  ("."%char ∉ nom_fichier -> nom_fichier <> [] ->
   nom_fichier_compresse nom_fichier =
   removelast nom_fichier ++ lettres "_compressé." ++ nom_fichier).
Proof.
  intros Hext. split.
  - unfold nom_fichier_compresse, tranche_jusqua, tranche_depuis.
    rewrite rfind_dernier by done. rewrite !indice_tranche_pos by lia.
    rewrite Nat2Z.id, take_app_length, Z2Nat.inj_add, Nat2Z.id by lia.
    by rewrite (drop_app_add base (_ :: ext) 1).
  - intros Hnom Hne. destruct (exists_last Hne) as (init & x & ->).
    unfold nom_fichier_compresse, tranche_jusqua, tranche_depuis, rfind.
    rewrite rfind_depuis_absent by done. unfold indice_tranche.
    rewrite decide_True, decide_False by lia. rewrite removelast_last, length_app. simpl.
    replace (Z.to_nat (Z.of_nat (length init + 1) + -1)) with (length init) by lia.
    by rewrite take_app_length.
Qed.

(** ** Witnesses *)

(** The file [src/encodage.py]'s main block writes, and a name without
    extension. *)
Lemma nom_fichier_compresse_correct_witness :
  nom_fichier_compresse (lettres "texte_encode" ++ "."%char :: lettres "txt") =
    lettres "texte_encode" ++ lettres "_compressé." ++ lettres "txt" /\
  nom_fichier_compresse (lettres "texte") = lettres "text" ++ lettres "_compressé." ++ lettres "texte".
Proof.
  destruct (nom_fichier_compresse_correct (lettres "texte") (lettres "texte_encode") (lettres "txt"))
    as [H1 H2]; [par_calcul|].
  split; [exact H1|]. apply H2; [par_calcul|discriminate].
Defined.

