(* ===== verification/Programme.v ===== *)
(** * [main()] of [src/huffman/main.py], with its files and prints

    [main_io] is the whole of [main()]: it reads [test.txt], prints the
    text length, the frequency table and the code table, encodes, decodes,
    prints whether the decoded text is the text, prints the statistics of
    [calculer_stats] and writes the encoded text to [texte_encode.txt]
    with [sauvegarder] ([src/huffman/decodage.py]).  [Pipeline.main] is
    its pure core, up to the comparison. *)

From stdpp Require Import base list sets strings.
From Stdlib Require Import ZArith Ascii QArith.
From S2P Require Import Prelude Systeme Tri Noeud Frequences Tas Construction Codes Affichage.
From S2P Require Import Encodage Decodage Pipeline Sauvegarde.

Section Programme.
Context {A : Type} `{EqDecision A} `{Caracteres A} `{!Tas (Noeud A) noeud_lt}.

(** [sauvegarder(texteencode, chemin)] *)
Definition sauvegarder (texteencode : chaine) (chemin : string) : IO A unit :=
  ecrire chemin (bits_en_texte texteencode).

(** The lines [calculer_stats] prints. *)
Definition lignes_stats (stats : Z * Z * Q * Q) : list (Ligne A) :=
  let '(original, compresse, taux, gain) := stats in
  [[Lit (String.append nl "STATISTIQUES")];
   [Lit "Taille originale  : "; Entier original; Lit " bits"];
   [Lit "Taille compressée : "; Entier compresse; Lit " bits"];
   [Lit "Taux compression  : "; Format ".2%" (Flottant taux)];
   [Lit "Gain              : "; Format ".2%" (Flottant gain)]].

(** [calculer_stats(texte_original, texte_encode)], with its prints: the
    ratio is computed before the first print. *)
Definition calculer_stats_sortie (texte_original : list A) (texte_encode : chaine) : IO A unit :=
  stats ← de_resultat (calculer_stats texte_original texte_encode);
  pour_chaque imprimer (lignes_stats stats).

(** The line printed after the comparison. *)
Definition ligne_verdict (correct : bool) : Ligne A :=
  [Lit (if correct then String.append nl "✓ Décodage correct" else "✗ Erreur de décodage")].

(** [main()] *)
Definition main_io : IO A unit :=
  _ ← imprimer [Lit "=== CODAGE DE HUFFMAN (FICHIER) ==="];
  texte ← Huffman.lire_fichier "test.txt";
  _ ← imprimer [Lit (String.append nl "Texte original ("); Entier (Z.of_nat (length texte));
                Lit (String.append " caractères)" nl)];
  let frequences := analyser_frequences texte in
  _ ← Huffman.afficher_frequences frequences;
  arbre ← de_resultat (construire_arbre frequences);
  codes ← de_resultat (generer_codes arbre);
  _ ← Huffman.afficher_codes codes;
  texte_encode ← de_resultat (encoder texte codes);
  texte_decode ← de_resultat (decoder texte_encode arbre);
  _ ← imprimer (ligne_verdict (bool_decide (texte = texte_decode)));
  _ ← calculer_stats_sortie texte texte_encode;
  sauvegarder texte_encode "texte_encode.txt".

End Programme.

(** ** Lemmas *)

Section Lemmes.
Context {A : Type} `{EqDecision A} `{Caracteres A} `{!Tas (Noeud A) noeud_lt}.

Lemma imprime_afficher_frequences (frequences : dict A Z) :
  exists l, imprime (Huffman.afficher_frequences frequences) l.
Proof.
  eexists. apply imprime_seq; [apply imprime_imprimer|].
  apply (imprime_pour_chaque _ (fun '(c, f) => [Lit "  "; Huffman.symbole c; Lit ": "; Entier f])).
  intros [c f]. apply imprime_imprimer.
Qed.

Lemma imprime_afficher_codes (codes : dict A chaine) :
  exists l, imprime (Huffman.afficher_codes codes) l.
Proof.
  eexists. apply imprime_seq; [apply imprime_imprimer|].
  apply (imprime_pour_chaque _ (fun '(c, q) => [Lit "  "; Huffman.symbole c; Lit ": "; Bits q])).
  intros [c q]. apply imprime_imprimer.
Qed.

(** The statistics of a non-empty text. *)
Lemma calculer_stats_texte (texte : list A) (bits : chaine) :
  texte <> [] ->
  calculer_stats texte bits =
  Ok ((Z.of_nat (length texte) * 8)%Z, Z.of_nat (length bits),
      (inject_Z (Z.of_nat (length bits)) / inject_Z (Z.of_nat (length texte) * 8))%Q,
      (1 - inject_Z (Z.of_nat (length bits)) / inject_Z (Z.of_nat (length texte) * 8))%Q).
Proof.
  intros Hne. unfold calculer_stats. rewrite decide_False; [done|].
  destruct texte; [done|simpl; lia].
Qed.

Lemma imprime_calculer_stats (texte : list A) (bits : chaine) stats :
  calculer_stats texte bits = Ok stats ->
  imprime (calculer_stats_sortie texte bits) (lignes_stats stats).
Proof.
  intros Hs w. unfold calculer_stats_sortie. rewrite Hs, bind_de_resultat_Ok.
  rewrite (pour_chaque_imprimer _ id) by done. by rewrite map_id.
Qed.
End Lemmes.

Section Theoremes.
Context {A : Type} `{EqDecision A} `{Caracteres A} {tas : Tas (Noeud A) noeud_lt}
  {lois : TasLois (Noeud A) noeud_lt}.

(** C9: [main()] on a readable [test.txt] whose text has at least two
    distinct characters raises nothing: it prints its lines, then
    "✓ Décodage correct" followed by the statistics of [calculer_stats],
    and writes to [texte_encode.txt] the encoded text, which decodes to
    the text read. *)
Theorem main_io_correct (w : Monde A) (t texte : list A) x y :
  dict_get (fichiers w) "test.txt" = Some (Texte t) ->
  traduire_fins_de_ligne false t = texte ->
  x ∈ texte -> y ∈ texte -> x <> y ->
  exists racine bits stats lignes,
    construire_arbre (analyser_frequences texte) = Ok racine /\
    calculer_stats texte bits = Ok stats /\
    main_io w =
      (mkMonde (dict_set (fichiers w) "texte_encode.txt" (Texte (bits_en_texte bits)))
               (sortie w ++ lignes ++ ligne_verdict true :: lignes_stats stats), Ok tt) /\
    decoder bits racine = Ok texte.
Proof.
  intros Hg Ht Hx Hy Hxy.
  destruct (@main_etapes A _ tas lois texte x y Hx Hy Hxy) as (r & bits & Hr & Hc & He & Hd).
  destruct (imprime_afficher_frequences (analyser_frequences texte)) as [lf Hf].
  destruct (imprime_afficher_codes (chemins r)) as [lc Hcodes].
  assert (texte <> []) as Hne by (intros ->; by apply not_elem_of_nil in Hx).
  pose proof (calculer_stats_texte texte bits Hne) as Hs.
  eexists r, bits, _, ([[Lit "=== CODAGE DE HUFFMAN (FICHIER) ==="];
    [Lit (String.append nl "Texte original ("); Entier (Z.of_nat (length texte));
     Lit (String.append " caractères)" nl)]] ++ lf ++ lc).
  split_and!; [exact Hr|exact Hs| |exact Hd].
  unfold main_io. rewrite (bind_imprime _ _ _ _ (imprime_imprimer _)).
  unfold Huffman.lire_fichier. rewrite (bind_lire _ t) by exact Hg. rewrite Ht.
  rewrite (bind_imprime _ _ _ _ (imprime_imprimer _)), (bind_imprime _ _ _ _ Hf).
  rewrite Hr, bind_de_resultat_Ok, Hc, bind_de_resultat_Ok, (bind_imprime _ _ _ _ Hcodes).
  rewrite He, bind_de_resultat_Ok, Hd, bind_de_resultat_Ok, bool_decide_eq_true_2 by done.
  rewrite (bind_imprime _ _ _ _ (imprime_imprimer _)).
  rewrite (bind_imprime _ _ _ _ (imprime_calculer_stats _ _ _ Hs)).
  unfold sauvegarder, ecrire. cbn [fichiers sortie]. rewrite <-!app_assoc. reflexivity.
Qed.

(** C29: where [main()] stops on an exception, having written no file:
    [FileNotFoundError] without [test.txt], [UnicodeDecodeError] when it
    is not UTF-8 (both after the banner only), [IndexError] on an empty
    text ([heap[0]] on an empty heap), and [AttributeError] on one
    character repeated (the decoder reads [None.char] below the lone
    leaf), after the tables are printed. *)
Theorem main_io_erreurs (w : Monde A) :
  (dict_get (fichiers w) "test.txt" = None ->
     main_io w = (mkMonde (fichiers w) (sortie w ++ [[Lit "=== CODAGE DE HUFFMAN (FICHIER) ==="]]),
                  Erreur FileNotFoundError)) /\
  (dict_get (fichiers w) "test.txt" = Some Illisible ->
     main_io w = (mkMonde (fichiers w) (sortie w ++ [[Lit "=== CODAGE DE HUFFMAN (FICHIER) ==="]]),
                  Erreur UnicodeDecodeError)) /\
  (forall t, dict_get (fichiers w) "test.txt" = Some (Texte t) -> traduire_fins_de_ligne false t = [] ->
     exists lignes, main_io w = (mkMonde (fichiers w) (sortie w ++ lignes), Erreur IndexError)) /\
  (forall t c n, dict_get (fichiers w) "test.txt" = Some (Texte t) ->
     traduire_fins_de_ligne false t = replicate (S n) c ->
     exists lignes, main_io w = (mkMonde (fichiers w) (sortie w ++ lignes), Erreur AttributeError)).
Proof.
  unfold main_io. rewrite (bind_imprime _ _ _ _ (imprime_imprimer _)). unfold Huffman.lire_fichier.
  split_and!.
  - intros Hg. unfold mbind at 1, IO_bind at 1, lire. cbn [fichiers sortie]. by rewrite Hg.
  - intros Hg. unfold mbind at 1, IO_bind at 1, lire. cbn [fichiers sortie]. by rewrite Hg.
  - intros t Hg Ht. rewrite (bind_lire _ t) by exact Hg. rewrite Ht.
    destruct (imprime_afficher_frequences (analyser_frequences (A:=A) [])) as [lf Hf].
    rewrite (bind_imprime _ _ _ _ (imprime_imprimer _)), (bind_imprime _ _ _ _ Hf).
    change (analyser_frequences (A:=A) []) with (@nil (A * Z)).
    rewrite construire_arbre_vide, bind_de_resultat_Erreur. cbn [fichiers sortie].
    eexists. by rewrite <-!app_assoc.
  - intros t c n Hg Ht. rewrite (bind_lire _ t) by exact Hg. rewrite Ht.
    destruct (main_un_caractere_etapes (Tas0:=tas) c n) as (Hr & Hc & He & Hd).
    destruct (imprime_afficher_frequences (analyser_frequences (replicate (S n) c))) as [lf Hf].
    destruct (imprime_afficher_codes [(c, [b0])]) as [lc Hcodes].
    rewrite (bind_imprime _ _ _ _ (imprime_imprimer _)), (bind_imprime _ _ _ _ Hf).
    rewrite Hr, bind_de_resultat_Ok, Hc, bind_de_resultat_Ok, (bind_imprime _ _ _ _ Hcodes).
    rewrite He, bind_de_resultat_Ok, Hd, bind_de_resultat_Erreur. cbn [fichiers sortie].
    eexists. by rewrite <-!app_assoc.
Qed.
End Theoremes.

(** ** Witness, with CPython's [heapq] *)

Lemma main_io_correct_witness :
  exists racine bits stats lignes,
    construire_arbre (analyser_frequences (lettres "aabbc")) = Ok racine /\
    calculer_stats (lettres "aabbc") bits = Ok stats /\
    main_io (mkMonde [("test.txt", Texte (lettres "aabbc"))] []) =
      (mkMonde (dict_set [("test.txt", Texte (lettres "aabbc"))] "texte_encode.txt" (Texte (bits_en_texte bits)))
               ([] ++ lignes ++ ligne_verdict true :: lignes_stats stats), Ok tt) /\
    decoder bits racine = Ok (lettres "aabbc").
Proof.
  apply (main_io_correct (mkMonde [("test.txt", Texte (lettres "aabbc"))] []) (lettres "aabbc") _
    "a"%char "b"%char); [reflexivity|reflexivity|simpl; left|simpl; do 2 right; left|discriminate].
Defined.

Lemma main_io_erreurs_witness :
  main_io (A:=ascii) (mkMonde [] []) =
    (mkMonde [] ([] ++ [[Lit "=== CODAGE DE HUFFMAN (FICHIER) ==="]]), Erreur FileNotFoundError).
Proof. apply (main_io_erreurs (mkMonde [] [])). reflexivity. Defined.
