(* ===== verification/App.v ===== *)
(** * The Streamlit application [src/huffman/app.py]

    The script runs top to bottom on the uploaded file and shows elements
    on the page: titles, texts, metrics, a bar chart, the Graphviz graph
    of the tree.  [Page A X] is a computation that appends the elements
    it shows to the page and returns an [X] or raises; the elements are in
    the order the script shows them (the columns and expanders that lay
    them out are not modelled).

    [visualiser_arbre] builds the graph with a shared mutable counter
    [node_id] (a one-element list passed to every recursive call) and a
    shared [graphviz.Digraph] that every call adds to: both are threaded
    through the calls here, the counter as a [nat] and the graph as a
    value, which is what their mutation amounts to since no call keeps
    an older copy. *)

From stdpp Require Import base list sets strings.
From Stdlib Require Import ZArith Ascii QArith.
From S2P Require Import Prelude Systeme Tri Noeud Frequences Tas TasOrdre Construction Glouton Codes Encodage.
From S2P Require Import Pipeline Compression Borne.

(** ** The page *)

(** A [graphviz.Digraph]: the nodes ([id], label, fill colour) and the
    edges ([parent], [id], label, colour), in the order they were added;
    [str(n)] of the counter is the node id [n]. *)
Record Digraphe (A : Type) : Type := mkDigraphe {
  sommets : list (nat * Ligne A * string);
  aretes : list (nat * nat * string * string)
}.
Arguments mkDigraphe {A} sommets aretes.
Arguments sommets {A} d.
Arguments aretes {A} d.

Inductive Element (A : Type) : Type :=
  | Titre (s : string)
  | Sous_titre (s : string)
  | Ecrire (l : Ligne A)
  | Texte_brut (t : list A)
  | Information (l : Ligne A)
  | Succes (l : Ligne A)
  | Bloc_code (l : Ligne A)
  | Metrique (etiquette : string) (valeur : Ligne A)
  | Histogramme (donnees : dict A Z)
  | Graphe (g : Digraphe A).
Arguments Titre {A} s.
Arguments Sous_titre {A} s.
Arguments Ecrire {A} l.
Arguments Texte_brut {A} t.
Arguments Information {A} l.
Arguments Succes {A} l.
Arguments Bloc_code {A} l.
Arguments Metrique {A} etiquette valeur.
Arguments Histogramme {A} donnees.
Arguments Graphe {A} g.

Definition Page (A X : Type) : Type := list (Element A) -> list (Element A) * Resultat X.

#[export] Instance Page_ret {A} : MRet (Page A) := fun _ x p => (p, Ok x).
#[export] Instance Page_bind {A} : MBind (Page A) := fun _ _ k m p =>
  match m p with
  | (p', Ok x) => k x p'
  | (p', Erreur e) => (p', Erreur e)
  end.

Section App.
Context {A : Type} `{EqDecision A} `{Caracteres A} `{!Tas (Noeud A) noeud_lt}.

(** [st.title], [st.write], ...: one more element on the page. *)
Definition montrer (e : Element A) : Page A unit := fun p => (p ++ [e], Ok tt).

Definition page_de {X} (r : Resultat X) : Page A X := fun p => (p, r).

Fixpoint pour_tout {X} (f : X -> Page A unit) (l : list X) : Page A unit :=
  match l with
  | [] => mret tt
  | x :: l => _ ← f x; pour_tout f l
  end.

(** [repr(char) if char in ['\n', '\t', ' '] else char] *)
Definition char_display (char : A) : Segment A :=
  if decide (char ∈ [saut_de_ligne; tabulation; espace]) then Repr char else Car char.

(** ** [visualiser_arbre] *)

Definition graphe_vide : Digraphe A := mkDigraphe [] [].

(** The label and fill colour of a node. *)
Definition etiquette_sommet (noeud : Noeud A) : Ligne A * string :=
  match caractere noeud with
  | Some c => ([char_display c; Lit nl; Lit "("; Entier (frequence noeud); Lit ")"], "lightblue")
  | None => ([Entier (frequence noeud)], "lightgray")
  end.

(** [graph.node(current_id, label, fillcolor=...)] *)
Definition ajouter_sommet (graph : Digraphe A) (id : nat) (noeud : Noeud A) : Digraphe A :=
  let '(label, couleur) := etiquette_sommet noeud in
  mkDigraphe (sommets graph ++ [(id, label, couleur)]) (aretes graph).

(** [graph.edge(parent, current_id, label=edge_label,
    color='red' if edge_label == '0' else 'green')] *)
Definition ajouter_arete (graph : Digraphe A) (parent id : nat) (edge_label : string) : Digraphe A :=
  mkDigraphe (sommets graph)
    (aretes graph ++ [(parent, id, edge_label, if decide (edge_label = "0") then "red" else "green")]).

(** [visualiser_arbre(noeud, graph, parent, edge_label, node_id)]: the
    graph and the counter [node_id[0]] after the call. *)
Fixpoint visualiser_arbre (noeud : Noeud A) (graph : option (Digraphe A)) (parent : option nat)
    (edge_label : string) (node_id : nat) : Digraphe A * nat :=
  let graph := match graph with Some g => g | None => graphe_vide end in
  let current_id := node_id in
  let node_id := S node_id in
  let graph := ajouter_sommet graph current_id noeud in
  let graph := match parent with Some p => ajouter_arete graph p current_id edge_label | None => graph end in
  let '(graph, node_id) :=
    match gauche noeud with
    | Some g => visualiser_arbre g (Some graph) (Some current_id) "0" node_id
    | None => (graph, node_id)
    end in
  match droit noeud with
  | Some d => visualiser_arbre d (Some graph) (Some current_id) "1" node_id
  | None => (graph, node_id)
  end.

(** ** The script *)

(** The frequency table: the ten most frequent characters, and how many
    others there are. *)
Definition tableau_frequences (freq_sorted : dict A Z) : Page A unit :=
  _ ← montrer (Ecrire [Lit "**Tableau des fréquences:**"]);
  _ ← pour_tout (fun '(char, freq) => montrer (Ecrire [Lit "`"; char_display char; Lit "` : "; Entier freq]))
        (take 10 freq_sorted);
  if decide (10 < length freq_sorted)%nat then
    montrer (Ecrire [Lit "... et "; Entier (Z.of_nat (length freq_sorted - 10)%nat); Lit " autres caractères"])
  else mret tt.

(** The code table: the fifteen shortest codes, and how many others. *)
Definition tableau_codes (codes_sorted : dict A chaine) : Page A unit :=
  _ ← montrer (Ecrire [Lit "**Table des codes:**"]);
  _ ← pour_tout (fun '(char, code) => montrer (Bloc_code [char_display char; Lit " → "; Bits code]))
        (take 15 codes_sorted);
  if decide (15 < length codes_sorted)%nat then
    montrer (Ecrire [Lit "... et "; Entier (Z.of_nat (length codes_sorted - 15)%nat); Lit " autres codes"])
  else mret tt.

(** [min(code_lengths)], [max(code_lengths)]: [ValueError] on an empty
    list. *)
Definition py_min (l : list Z) : Resultat Z :=
  match l with [] => raise ValueError | x :: l => Ok (foldl Z.min x l) end.
Definition py_max (l : list Z) : Resultat Z :=
  match l with [] => raise ValueError | x :: l => Ok (foldl Z.max x l) end.

(** [sum(l) / len(l)]: [ZeroDivisionError] on an empty list. *)
Definition moyenne (l : list Z) : Resultat Q :=
  if decide (length l = 0)%nat then raise ZeroDivisionError
  else Ok (inject_Z (foldr Z.add 0%Z l) / inject_Z (Z.of_nat (length l)))%Q.

(** The statistics of the codes. *)
Definition statistiques_codes (codes : dict A chaine) : Page A unit :=
  _ ← montrer (Ecrire [Lit "**Statistiques des codes:**"]);
  let code_lengths := map (fun c => Z.of_nat (length c.2)) codes in
  mini ← page_de (py_min code_lengths);
  _ ← montrer (Ecrire [Lit "Longueur minimale : "; Entier mini; Lit " bits"]);
  maxi ← page_de (py_max code_lengths);
  _ ← montrer (Ecrire [Lit "Longueur maximale : "; Entier maxi; Lit " bits"]);
  moy ← page_de (moyenne code_lengths);
  montrer (Ecrire [Lit "Longueur moyenne : "; Format ".2f" (Flottant moy); Lit " bits"]).

(** [taux_compression = (1 - len(texte_encode) / (len(texte) * 8)) * 100] *)
Definition taux_compression (texte : list A) (texte_encode : chaine) : Resultat Q :=
  if decide (length texte = 0)%nat then raise ZeroDivisionError
  else Ok ((1 - inject_Z (Z.of_nat (length texte_encode)) / inject_Z (Z.of_nat (length texte) * 8)) * 100)%Q.

(** [texte_encode[:500] + ("..." if len(texte_encode) > 500 else "")] *)
Definition apercu (texte_encode : chaine) : chaine :=
  take 500 texte_encode ++ (if decide (500 < length texte_encode)%nat then lettres "..." else []).

(** The branch [if fichier:], on the text of the uploaded file. *)
Definition afficher_texte (texte : list A) : Page A unit :=
  _ ← montrer (Sous_titre "Texte original");
  _ ← montrer (Texte_brut texte);
  _ ← montrer (Information [Lit "Longueur du texte : "; Entier (Z.of_nat (length texte)); Lit " caractères"]);
  _ ← montrer (Sous_titre "Analyse des fréquences");
  let frequences := analyser_frequences texte in
  let freq_sorted := py_sorted snd true frequences in
  _ ← tableau_frequences freq_sorted;
  _ ← montrer (Histogramme (take 15 freq_sorted));
  _ ← montrer (Sous_titre " Arbre de Huffman");
  arbre ← page_de (construire_arbre frequences);
  let graph := fst (visualiser_arbre arbre None None "" 0) in
  _ ← montrer (Graphe graph);
  _ ← montrer (Information [Lit "Arête rouge = bit '0' | Arête verte = bit '1'"]);
  _ ← montrer (Sous_titre " Codes de Huffman");
  codes ← page_de (generer_codes arbre);
  _ ← tableau_codes (py_sorted (fun x => Z.of_nat (length x.2)) false codes);
  _ ← statistiques_codes codes;
  _ ← montrer (Sous_titre "Encodage");
  texte_encode ← page_de (encoder texte codes);
  _ ← montrer (Metrique "Taille originale" [Entier (Z.of_nat (length texte) * 8); Lit " bits"]);
  _ ← montrer (Metrique "Taille encodée" [Entier (Z.of_nat (length texte_encode)); Lit " bits"]);
  taux ← page_de (taux_compression texte texte_encode);
  _ ← montrer (Succes [Lit "Taux de compression : "; Format ".2f" (Flottant taux); Lit "%"]);
  montrer (Bloc_code [Bits (apercu texte_encode)]).

(** The explanation shown when no file is uploaded. *)
Definition explication : string := "
        **Comment fonctionne l'algorithme de Huffman ?**

        1. **Analyse des fréquences** : Compte l'occurrence de chaque caractère
        2. **Construction de l'arbre** : Crée un arbre binaire optimal basé sur les fréquences
        3. **Génération des codes** : Assigne des codes binaires courts aux caractères fréquents
        4. **Encodage** : Remplace chaque caractère par son code de Huffman

        Les caractères les plus fréquents reçoivent les codes les plus courts !
        ".

(** The script, on the uploaded file ([None] when there is none);
    [fichier.read().decode("utf-8")] raises [UnicodeDecodeError] on bytes
    that are not UTF-8. *)
Definition app (fichier : option (Fichier A)) : Page A unit :=
  _ ← montrer (Titre " Codage de Huffman – Visualisation & Animation");
  match fichier with
  | Some contenu =>
      texte ← page_de (match contenu with Texte t => Ok t | Illisible => raise UnicodeDecodeError end);
      afficher_texte texte
  | None =>
      _ ← montrer (Information [Lit " Veuillez importer un fichier texte pour commencer l'analyse"]);
      montrer (Ecrire [Lit explication])
  end.

End App.

(** ** Reading the graph *)

Local Open Scope nat_scope.

Section Graphe.
Context {A : Type} `{EqDecision A} `{Caracteres A}.

Abbreviation arete := (nat * nat * string * string)%type.

(** The label of the edge of a bit. *)
Definition etiquette_bit (b : ascii) : string := if decide (b = b0) then "0" else "1".

(** The target of the first edge that leaves [i] with label [l]. *)
Fixpoint trouver (es : list arete) (i : nat) (l : string) : option nat :=
  match es with
  | [] => None
  | (p, j, l', _) :: es => if decide (p = i /\ l' = l) then Some j else trouver es i l
  end.

(** From [i], along the edges labelled by the bits of [q]. *)
Fixpoint suivre (es : list arete) (i : nat) (q : chaine) : option nat :=
  match q with
  | [] => Some i
  | b :: q => trouver es i (etiquette_bit b) ≫= fun j => suivre es j q
  end.

Definition source (e : arete) : nat := e.1.1.1.
Definition cible (e : arete) : nat := e.1.1.2.

Lemma trouver_app es1 es2 i l :
  trouver (es1 ++ es2) i l = match trouver es1 i l with Some j => Some j | None => trouver es2 i l end.
Proof. induction es1 as [|[[[p j] l'] c] es1 IH]; simpl; [done|]. case_decide; [done|apply IH]. Qed.

Lemma trouver_absent es i l : Forall (fun e => source e <> i) es -> trouver es i l = None.
Proof.
  induction 1 as [|[[[p j] l'] c] es Hp _ IH]; simpl; [done|].
  rewrite decide_False; [done|]. unfold source in Hp. simpl in Hp. naive_solver.
Qed.

Lemma trouver_cible es i l j : trouver es i l = Some j -> exists e, e ∈ es /\ cible e = j.
Proof.
  induction es as [|[[[p j'] l'] c] es IH]; simpl; [done|]. case_decide.
  - intros [= <-]. eexists. split; [left|done].
  - intros (e & He & <-)%IH. exists e. split; [by right|done].
Qed.

Lemma suivre_cons es i j b q :
  trouver es i (etiquette_bit b) = Some j -> suivre es i (b :: q) = suivre es j q.
Proof. intros Ht. simpl. by rewrite Ht. Qed.

(** A walk in the edges added for a subtree is a walk in the whole graph:
    the edges added before leave nodes of smaller ids. *)
Lemma suivre_milieu pre es post k i q j :
  Forall (fun e => source e < k) pre -> Forall (fun e => k < cible e) es -> k <= i ->
  suivre es i q = Some j -> suivre (pre ++ es ++ post) i q = Some j.
Proof.
  intros Hpre Hes. revert i. induction q as [|b q IH]; intros i Hi; simpl; [done|].
  destruct (trouver es i (etiquette_bit b)) as [j'|] eqn:E; simpl; [|done]. intros Hq.
  rewrite trouver_app, trouver_absent, trouver_app, E; simpl.
  - apply IH; [|done]. destruct (trouver_cible _ _ _ _ E) as (e & He & <-).
    rewrite Forall_forall in Hes. specialize (Hes e He). lia.
  - eapply Forall_impl; [exact Hpre|]. simpl. lia.
Qed.

(** The label of the node of a leaf. *)
Definition etiquette_feuille (c : A) (f : Z) : Ligne A :=
  [char_display c; Lit nl; Lit "("; Entier f; Lit ")"].

(** The edge to the node [k] from its parent, if it has one. *)
Definition arete_parent (parent : option nat) (k : nat) (edge_label : string) : list arete :=
  match parent with
  | Some p => [(p, k, edge_label, if decide (edge_label = "0") then "red" else "green")]
  | None => []
  end.

Lemma ajouter_noeud (g0 : Digraphe A) parent k edge_label (n : Noeud A) :
  match parent with
  | Some p => ajouter_arete (ajouter_sommet g0 k n) p k edge_label
  | None => ajouter_sommet g0 k n
  end =
  mkDigraphe (sommets g0 ++ [(k, (etiquette_sommet n).1, (etiquette_sommet n).2)])
    (aretes g0 ++ arete_parent parent k edge_label).
Proof.
  unfold ajouter_arete, ajouter_sommet. destruct (etiquette_sommet n) as [l col].
  destruct parent; simpl; by rewrite ?app_nil_r.
Qed.

(** The call on a subtree adds its nodes with the ids [k], [k+1], ...
    in preorder, the edge from its parent, and edges among its nodes
    along which each code leads from [k] to the node of its character. *)
Lemma visualiser_structure `{!Tas (Noeud A) noeud_lt} (n : Noeud A) g0 parent edge_label k :
  arbre_valide n ->
  Forall (fun e => source e < k) (aretes g0) -> (forall p, parent = Some p -> p < k) ->
  exists S E,
    visualiser_arbre n (Some g0) parent edge_label k =
      (mkDigraphe (sommets g0 ++ S) (aretes g0 ++ arete_parent parent k edge_label ++ E),
       k + (noeuds_internes n + length (feuilles n))) /\
    map (fun s => s.1.1) S = seq k (noeuds_internes n + length (feuilles n)) /\
    Forall (fun e => k <= source e < k + (noeuds_internes n + length (feuilles n)) /\ k < cible e) E /\
    forall c q, (c, q) ∈ chemins n ->
      exists j f, suivre E k q = Some j /\ (j, etiquette_feuille c f, "lightblue") ∈ S.
Proof.
  intros Hv. revert g0 parent edge_label k.
  induction Hv as [c f|f g d Hg IHg Hd IHd]; intros g0 parent edge_label k Hg0 Hp.
  - exists [(k, etiquette_feuille c f, "lightblue")], []. split_and!.
    + cbn [visualiser_arbre gauche droit]. rewrite ajouter_noeud. simpl. rewrite app_nil_r.
      f_equal. lia.
    + simpl. done.
    + constructor.
    + cbn [chemins gauche droit caractere]. intros c' q Hin.
      apply list_elem_of_singleton in Hin. injection Hin as -> ->.
      exists k, f. split; [done|by left].
  - set (tg := (noeuds_internes g + length (feuilles g))%nat).
    set (td := (noeuds_internes d + length (feuilles d))%nat).
    assert (noeuds_internes (mkNoeud None f (Some g) (Some d)) + length (feuilles (mkNoeud None f (Some g) (Some d)))
            = S (tg + td))%nat as Ht.
    { cbn [noeuds_internes feuilles gauche droit]. rewrite length_app. subst tg td. lia. }
    rewrite Ht. cbn [visualiser_arbre gauche droit]. rewrite ajouter_noeud.
    set (g1 := mkDigraphe _ _).
    destruct (IHg g1 (Some k) "0" (S k)) as (Sg & Eg & Hvg & Hsg & Heg & Hpg).
    { subst g1. simpl. apply Forall_app. split.
      - eapply Forall_impl; [exact Hg0|]. simpl. lia.
      - destruct parent as [p|]; simpl; [|done]. constructor; [|done]. unfold source. simpl.
        specialize (Hp p eq_refl). lia. }
    { intros p [= <-]. lia. }
    rewrite Hvg. cbv beta iota zeta. fold tg.
    set (g2 := mkDigraphe (sommets g1 ++ Sg) (aretes g1 ++ arete_parent (Some k) (S k) "0" ++ Eg)).
    destruct (IHd g2 (Some k) "1" (S k + tg)) as (Sd & Ed & Hvd & Hsd & Hed & Hpd).
    { subst g2 g1. simpl. rewrite !Forall_app. split_and!.
      - eapply Forall_impl; [exact Hg0|]. simpl. lia.
      - destruct parent as [p|]; simpl; [|done]. constructor; [|done]. unfold source. simpl.
        specialize (Hp p eq_refl). lia.
      - constructor; [unfold source; simpl; lia|]. eapply Forall_impl; [exact Heg|]. simpl. lia. }
    { intros p [= <-]. lia. }
    rewrite Hvd.
    exists ((k, [Entier f], "lightgray") :: Sg ++ Sd),
      (arete_parent (Some k) (S k) "0" ++ Eg ++ arete_parent (Some k) (S k + tg) "1" ++ Ed).
    split_and!.
    + subst g2 g1. simpl. rewrite <-!app_assoc. simpl. f_equal. lia.
    + simpl. rewrite map_app, Hsg, Hsd. fold tg td. by rewrite seq_app.
    + unfold tg, td in *. simpl. constructor; [unfold source, cible; simpl; lia|].
      apply Forall_app. split.
      * eapply Forall_impl; [exact Heg|]. simpl. lia.
      * constructor; [unfold source, cible; simpl; lia|]. eapply Forall_impl; [exact Hed|]. simpl. lia.
    + intros c q. rewrite chemins_fusion, elem_of_app, !list_elem_of_fmap.
      intros [([c2 q'] & Heq & Hin)|([c2 q'] & Heq & Hin)]; injection Heq as -> ->.
      * destruct (Hpg c2 q' Hin) as (j & f' & Hj & Hs). exists j, f'.
        split; [|right; apply elem_of_app; by left].
        rewrite (suivre_cons _ _ (S k)).
        2: { unfold etiquette_bit. rewrite decide_True by done.
             rewrite trouver_app. cbn [arete_parent trouver]. by rewrite decide_True. }
        apply (suivre_milieu (arete_parent (Some k) (S k) "0") Eg _ (S k)); [|by eapply Forall_impl; [exact Heg|]; simpl; lia|done|done].
        cbn [arete_parent]. repeat constructor; unfold source; simpl; lia.
      * destruct (Hpd c2 q' Hin) as (j & f' & Hj & Hs). exists j, f'.
        split; [|right; apply elem_of_app; by right].
        rewrite (suivre_cons _ _ (S k + tg)).
        2: { unfold etiquette_bit. rewrite decide_False by done.
             rewrite trouver_app. cbn [arete_parent trouver]. rewrite decide_False by naive_solver.
             rewrite trouver_app, trouver_absent, trouver_app.
             2: { eapply Forall_impl; [exact Heg|]. unfold source. simpl. lia. }
             cbn [trouver]. by rewrite decide_True. }
        replace (arete_parent (Some k) (S k) "0" ++ Eg ++ arete_parent (Some k) (S k + tg) "1" ++ Ed)
          with ((arete_parent (Some k) (S k) "0" ++ Eg ++ arete_parent (Some k) (S k + tg) "1") ++ Ed ++ [])
          by (by rewrite app_nil_r, <-!app_assoc).
        apply (suivre_milieu _ Ed _ (S k + tg)); [|by eapply Forall_impl; [exact Hed|]; simpl; lia|done|done].
        unfold tg in *. cbn [arete_parent]. rewrite !Forall_app. split_and!.
        -- constructor; [|done]. unfold source. simpl. lia.
        -- eapply Forall_impl; [exact Heg|]. simpl. lia.
        -- constructor; [|done]. unfold source. simpl. lia.
Qed.
End Graphe.

(** ** Running the page *)

Section Page.
Context {A : Type} `{EqDecision A} `{Caracteres A} `{!Tas (Noeud A) noeud_lt}.

(** [m] only shows the elements [es]: it raises nothing. *)
Definition montre (m : Page A unit) (es : list (Element A)) : Prop :=
  forall p, m p = (p ++ es, Ok tt).

Lemma bind_montre {X} (m : Page A unit) es (k : unit -> Page A X) p :
  montre m es -> (x ← m; k x) p = k tt (p ++ es).
Proof. intros Hm. unfold mbind, Page_bind. by rewrite Hm. Qed.

Lemma bind_page_de_Ok {X Y} (x : X) (k : X -> Page A Y) p : (y ← page_de (Ok x); k y) p = k x p.
Proof. reflexivity. Qed.

Lemma montre_montrer (e : Element A) : montre (montrer e) [e].
Proof. intros p. reflexivity. Qed.

Lemma montre_rien : montre (mret tt) [].
Proof. intros p. by rewrite app_nil_r. Qed.

Lemma montre_seq (m1 m2 : Page A unit) es1 es2 :
  montre m1 es1 -> montre m2 es2 -> montre (_ ← m1; m2) (es1 ++ es2).
Proof. intros H1 H2 p. rewrite (bind_montre m1 es1) by done. by rewrite H2, app_assoc. Qed.

Lemma montre_pour_tout {X} (f : X -> Page A unit) (g : X -> Element A) l :
  (forall x, montre (f x) [g x]) -> montre (pour_tout f l) (map g l).
Proof.
  intros Hf. induction l as [|x l IH]; [apply montre_rien|]. cbn [pour_tout map].
  apply (montre_seq _ _ [g x]); [apply Hf|apply IH].
Qed.

Lemma montre_tableau_frequences (freq_sorted : dict A Z) :
  exists es, montre (tableau_frequences freq_sorted) es.
Proof.
  unfold tableau_frequences. case_decide; eexists;
    (apply montre_seq; [apply montre_montrer|]);
    (apply montre_seq; [apply (montre_pour_tout _ (fun '(char, freq) => Ecrire [Lit "`"; char_display char; Lit "` : "; Entier freq])); intros [c f]; apply montre_montrer|]);
    [apply montre_montrer|apply montre_rien].
Qed.

Lemma montre_tableau_codes (codes_sorted : dict A chaine) :
  exists es, montre (tableau_codes codes_sorted) es.
Proof.
  unfold tableau_codes. case_decide; eexists;
    (apply montre_seq; [apply montre_montrer|]);
    (apply montre_seq; [apply (montre_pour_tout _ (fun '(char, code) => Bloc_code [char_display char; Lit " → "; Bits code])); intros [c q]; apply montre_montrer|]);
    [apply montre_montrer|apply montre_rien].
Qed.

(** The statistics of a non-empty table of codes. *)
Lemma montre_statistiques_codes (codes : dict A chaine) c q :
  (c, q) ∈ codes ->
  exists mini maxi moy,
    py_min (map (fun c => Z.of_nat (length c.2)) codes) = Ok mini /\
    py_max (map (fun c => Z.of_nat (length c.2)) codes) = Ok maxi /\
    moyenne (map (fun c => Z.of_nat (length c.2)) codes) = Ok moy /\
    montre (statistiques_codes codes)
      [Ecrire [Lit "**Statistiques des codes:**"];
       Ecrire [Lit "Longueur minimale : "; Entier mini; Lit " bits"];
       Ecrire [Lit "Longueur maximale : "; Entier maxi; Lit " bits"];
       Ecrire [Lit "Longueur moyenne : "; Format ".2f" (Flottant moy); Lit " bits"]].
Proof.
  intros Hin. destruct codes as [|cq codes]; [by apply not_elem_of_nil in Hin|].
  eexists _, _, _. split_and!; [done|done|unfold moyenne; rewrite decide_False by (simpl; lia); done|].
  intros p. unfold statistiques_codes, mbind, Page_bind, montrer, page_de, moyenne.
  rewrite decide_False by (simpl; lia). simpl. rewrite <-?app_assoc. reflexivity.
Qed.

Lemma foldl_min x l : foldl Z.min x l ∈ x :: l /\ Forall (fun z => foldl Z.min x l <= z)%Z (x :: l).
Proof.
  revert x. induction l as [|y l IH]; intros x; simpl.
  - split; [left|repeat constructor; lia].
  - destruct (IH (Z.min x y)) as [Hin Hle]. split.
    + apply elem_of_cons in Hin as [->|Hin]; [|by right; right].
      destruct (Z.min_spec x y) as [[_ ->]|[_ ->]]; [left|right; left].
    + apply Forall_cons in Hle as [Hm Hle]. repeat constructor; [lia|lia|done].
Qed.

Lemma foldl_max x l : foldl Z.max x l ∈ x :: l /\ Forall (fun z => z <= foldl Z.max x l)%Z (x :: l).
Proof.
  revert x. induction l as [|y l IH]; intros x; simpl.
  - split; [left|repeat constructor; lia].
  - destruct (IH (Z.max x y)) as [Hin Hle]. split.
    + apply elem_of_cons in Hin as [->|Hin]; [|by right; right].
      destruct (Z.max_spec x y) as [[_ ->]|[_ ->]]; [right; left|left].
    + apply Forall_cons in Hle as [Hm Hle]. repeat constructor; [lia|lia|done].
Qed.

(** [min(l)] is an item of [l], at most every item. *)
Lemma py_min_spec l m : py_min l = Ok m -> m ∈ l /\ Forall (fun z => m <= z)%Z l.
Proof. destruct l as [|x l]; simpl; [done|]. intros [= <-]. apply foldl_min. Qed.

(** [max(l)] is an item of [l], at least every item. *)
Lemma py_max_spec l m : py_max l = Ok m -> m ∈ l /\ Forall (fun z => z <= m)%Z l.
Proof. destruct l as [|x l]; simpl; [done|]. intros [= <-]. apply foldl_max. Qed.

(** [sum(l) / len(l)] times [len(l)] is [sum(l)]. *)
Lemma moyenne_spec l m :
  moyenne l = Ok m -> (m * inject_Z (Z.of_nat (length l)) == inject_Z (foldr Z.add 0%Z l))%Q.
Proof.
  unfold moyenne. case_decide as Hn; [discriminate|]. intros [= <-].
  field. intros Heq. apply Hn. unfold Qeq in Heq. simpl in Heq. lia.
Qed.

(** A path is no longer than the number of internal nodes. *)
Lemma chemins_profondeur (n : Noeud A) c q :
  arbre_valide n -> (c, q) ∈ chemins n -> (length q <= noeuds_internes n)%nat.
Proof.
  intros Hv. revert q. induction Hv as [c' f|f g d _ IHg _ IHd]; intros q.
  - cbn [chemins gauche droit caractere]. intros Hin. apply list_elem_of_singleton in Hin.
    injection Hin as _ ->. simpl. lia.
  - rewrite chemins_fusion, elem_of_app, !list_elem_of_fmap.
    intros [([c2 q'] & Heq & Hin)|([c2 q'] & Heq & Hin)]; injection Heq as -> ->;
      cbn [noeuds_internes gauche droit length].
    + specialize (IHg _ Hin). lia.
    + specialize (IHd _ Hin). lia.
Qed.
End Page.

Section Execution.
Context {A : Type} `{EqDecision A} `{Caracteres A} `{!Tas (Noeud A) noeud_lt} `{!TasLois (Noeud A) noeud_lt}.

(** The run of the script on a text with two distinct characters: it
    raises nothing, shows the graph of the tree and the extreme code
    lengths. *)
Lemma app_execution (texte : list A) x y :
  x ∈ texte -> y ∈ texte -> x <> y ->
  exists racine page mini maxi,
    construire_arbre (analyser_frequences texte) = Ok racine /\ arbre_valide racine /\
    (exists f g d, racine = mkNoeud None f (Some g) (Some d)) /\
    length (feuilles racine) = length (analyser_frequences texte) /\
    generer_codes racine = Ok (chemins racine) /\
    app (Some (Texte texte)) [] = (page, Ok tt) /\
    Graphe (fst (visualiser_arbre racine None None "" 0)) ∈ page /\
    py_min (map (fun c => Z.of_nat (length c.2)) (chemins racine)) = Ok mini /\
    py_max (map (fun c => Z.of_nat (length c.2)) (chemins racine)) = Ok maxi /\
    Ecrire [Lit "Longueur minimale : "; Entier mini; Lit " bits"] ∈ page /\
    Ecrire [Lit "Longueur maximale : "; Entier maxi; Lit " bits"] ∈ page /\
    exists bits taux moy,
      encoder texte (chemins racine) = Ok bits /\ taux_compression texte bits = Ok taux /\
      Succes [Lit "Taux de compression : "; Format ".2f" (Flottant taux); Lit "%"] ∈ page /\
      moyenne (map (fun c => Z.of_nat (length c.2)) (chemins racine)) = Ok moy /\
      Ecrire [Lit "Longueur moyenne : "; Format ".2f" (Flottant moy); Lit " bits"] ∈ page.
Proof.
  intros Hx Hy Hxy.
  destruct (arbre_texte texte x y Hx Hy Hxy) as (r & f & g & d & Hr & _ & Hrfgd & Hv & _ & Hnd & Hmem).
  assert (texte <> []) as Hne by (intros ->; by apply not_elem_of_nil in Hx).
  destruct (construire_arbre_bon texte Hne) as (r' & Hr' & _ & Hl & _).
  rewrite Hr in Hr'. injection Hr' as <-.
  assert (generer_codes r = Ok (chemins r)) as Hc.
  { rewrite generer_codes_chemins by done. subst r. by rewrite ou_zero_chemins_interne. }
  pose proof (encoder_Ok texte (chemins r) (couverture r texte Hmem)) as He.
  pose proof (proj2 (Hmem x) Hx) as Hxr. unfold caracteres in Hxr.
  apply list_elem_of_fmap in Hxr as ([x' q] & Hxq & Hin). simpl in Hxq. subst x'.
  destruct (montre_statistiques_codes (chemins r) x q Hin) as (mini & maxi & moy & Hmin & Hmax & Hmoy & Hst).
  destruct (montre_tableau_frequences (py_sorted snd true (analyser_frequences texte))) as [esf Hf].
  destruct (montre_tableau_codes (py_sorted (fun x => Z.of_nat (length x.2)) false (chemins r))) as [esc Hct].
  assert (exists taux, taux_compression texte
    (mjoin (map (fun c => default [] (dict_get (chemins r) c)) texte)) = Ok taux) as [taux Htaux].
  { unfold taux_compression. rewrite decide_False; [by eexists|]. destruct texte; [done|simpl; lia]. }
  eexists r, _, mini, maxi. split_and!; [done|done|by eauto| |done| | |done|done| | |].
  - rewrite Hl, creer_noeuds_feuilles_length. by rewrite analyser_calculer_frequences.
  - unfold app. rewrite (bind_montre _ _ _ _ (montre_montrer _)). cbn [page_de].
    rewrite bind_page_de_Ok. unfold afficher_texte.
    rewrite !(bind_montre _ _ _ _ (montre_montrer _)), (bind_montre _ _ _ _ Hf).
    rewrite !(bind_montre _ _ _ _ (montre_montrer _)), Hr, bind_page_de_Ok.
    rewrite !(bind_montre _ _ _ _ (montre_montrer _)), Hc, bind_page_de_Ok.
    rewrite (bind_montre _ _ _ _ Hct), (bind_montre _ _ _ _ Hst).
    rewrite !(bind_montre _ _ _ _ (montre_montrer _)), He, bind_page_de_Ok.
    rewrite !(bind_montre _ _ _ _ (montre_montrer _)), Htaux, bind_page_de_Ok.
    rewrite !(bind_montre _ _ _ _ (montre_montrer _)). rewrite <-?app_assoc. reflexivity.
  - dans_liste.
  - dans_liste.
  - dans_liste.
  - eexists _, taux, moy. split_and!; [exact He|exact Htaux|dans_liste|exact Hmoy|dans_liste].
Qed.

(** The rate shown is not negative when the encoded text has at most
    eight bits per character. *)
Lemma taux_compression_positif (texte : list A) bits taux :
  taux_compression texte bits = Ok taux -> length bits <= 8 * length texte -> (0 <= taux)%Q.
Proof.
  unfold taux_compression. case_decide as Hn; [discriminate|]. intros [= <-] Hb.
  apply Qmult_le_0_compat; [|discriminate].
  apply (proj1 (Qle_minus_iff _ 1)), Qle_shift_div_r.
  - unfold Qlt. simpl. lia.
  - rewrite Qmult_1_l. rewrite <-Zle_Qle. lia.
Qed.
End Execution.

Section Theoremes.
Context {A : Type} `{EqDecision A} `{Caracteres A} `{!Tas (Noeud A) noeud_lt}.

(** C11: on a valid tree with [n] leaves, [visualiser_arbre(arbre,
    node_id=[0])] numbers the [2n - 1] nodes [0], [1], ... in preorder
    and leaves the counter at [2n - 1]; from the root, the edges labelled
    by the bits of the root-to-leaf path of a character ('0' red, '1'
    green) lead to the node drawn with that character. *)
Theorem visualiser_arbre_correct (racine : Noeud A) :
  arbre_valide racine ->
  exists graph,
    visualiser_arbre racine None None "" 0 = (graph, (2 * length (feuilles racine) - 1)%nat) /\
    map (fun s => s.1.1) (sommets graph) = seq 0 (2 * length (feuilles racine) - 1) /\
    forall c q, (c, q) ∈ chemins racine ->
      exists j f, suivre (aretes graph) 0 q = Some j /\
        (j, etiquette_feuille c f, "lightblue") ∈ sommets graph.
Proof.
  intros Hv. pose proof (valide_noeuds_internes racine Hv) as Hn.
  destruct (visualiser_structure racine graphe_vide None "" 0 Hv) as (S & E & Hvis & Hs & _ & Hp);
    [constructor|done|].
  exists (mkDigraphe S E). split_and!.
  - replace (visualiser_arbre racine None None "" 0) with (visualiser_arbre racine (Some graphe_vide) None "" 0)
      by (by destruct racine). rewrite Hvis. simpl. f_equal. lia.
  - simpl. rewrite Hs. f_equal. lia.
  - exact Hp.
Qed.
End Theoremes.

Section TheoremesApp.
Context {A : Type} `{EqDecision A} `{Caracteres A} `{!Tas (Noeud A) noeud_lt} `{!TasLois (Noeud A) noeud_lt}.

(** C10: the page of [app.py] for a text with at least two distinct
    characters raises nothing and shows the graph of the tree, in which
    the edges labelled by the bits of each code of the table
    [generer_codes] lead from the root to the node drawn with its
    character: the graph and the table agree. *)
Theorem app_graphe_codes (texte : list A) x y :
  x ∈ texte -> y ∈ texte -> x <> y ->
  exists racine codes graph page,
    construire_arbre (analyser_frequences texte) = Ok racine /\
    generer_codes racine = Ok codes /\
    app (Some (Texte texte)) [] = (page, Ok tt) /\ Graphe graph ∈ page /\
    forall c code, (c, code) ∈ codes ->
      exists j f, suivre (aretes graph) 0 code = Some j /\
        (j, etiquette_feuille c f, "lightblue") ∈ sommets graph.
Proof.
  intros Hx Hy Hxy.
  destruct (app_execution texte x y Hx Hy Hxy) as (r & page & _ & _ & Hr & Hv & _ & _ & Hc & Happ & Hg & _).
  destruct (visualiser_structure r graphe_vide None "" 0 Hv) as (S & E & Hvis & _ & _ & Hp);
    [constructor|done|].
  replace (visualiser_arbre r None None "" 0) with (visualiser_arbre r (Some graphe_vide) None "" 0)
    in Hg by (by destruct r).
  rewrite Hvis in Hg. eexists r, _, _, page. split_and!; [done|exact Hc|done|exact Hg|].
  exact Hp.
Qed.

(** C30: on a text with [n >= 2] distinct characters, the statistics of
    the codes on the page of [app.py] are those of the table
    [generer_codes] returns: the minimal length shown is the length of a
    code and at most every code's length, the maximal one likewise at
    least every code's length, and the mean shown times [n] is the sum of
    the lengths; the minimum is at least one bit and the maximum at most
    [n - 1] bits. *)
Theorem app_longueurs_codes (texte : list A) x y :
  x ∈ texte -> y ∈ texte -> x <> y ->
  exists racine codes page mini maxi moy,
    construire_arbre (analyser_frequences texte) = Ok racine /\
    generer_codes racine = Ok codes /\
    app (Some (Texte texte)) [] = (page, Ok tt) /\
    Ecrire [Lit "Longueur minimale : "; Entier mini; Lit " bits"] ∈ page /\
    Ecrire [Lit "Longueur maximale : "; Entier maxi; Lit " bits"] ∈ page /\
    Ecrire [Lit "Longueur moyenne : "; Format ".2f" (Flottant moy); Lit " bits"] ∈ page /\
    (exists c q, (c, q) ∈ codes /\ mini = Z.of_nat (length q)) /\
    (exists c q, (c, q) ∈ codes /\ maxi = Z.of_nat (length q)) /\
    (forall c q, (c, q) ∈ codes -> mini <= Z.of_nat (length q) <= maxi)%Z /\
    (moy * inject_Z (Z.of_nat (length (analyser_frequences texte))) ==
       inject_Z (foldr Z.add 0%Z (map (fun cq => Z.of_nat (length cq.2)) codes)))%Q /\
    (1 <= mini)%Z /\ (maxi <= Z.of_nat (length (analyser_frequences texte)) - 1)%Z.
Proof.
  intros Hx Hy Hxy.
  destruct (app_execution texte x y Hx Hy Hxy) as (r & page & mini & maxi & Hr & Hv & (f & g & d & Er) & Hn
    & Hc & Happ & _ & Hmin & Hmax & Hemin & Hemax & bits & taux & moy & _ & _ & _ & Hmoy & Hemoy).
  apply py_min_spec in Hmin as [Hmin1 Hmin2]. apply py_max_spec in Hmax as [Hmax1 Hmax2].
  rewrite Forall_forall in Hmin2, Hmax2.
  assert (length (chemins r) = length (analyser_frequences texte)) as Hlc.
  { rewrite <-Hn. pose proof (f_equal length (caracteres_feuilles r Hv)) as E.
    unfold caracteres in E. by rewrite !length_map in E. }
  exists r, (chemins r), page, mini, maxi, moy. split_and!; [done..| | | | | |].
  - apply list_elem_of_fmap in Hmin1 as ([c q] & -> & Hq). by exists c, q.
  - apply list_elem_of_fmap in Hmax1 as ([c q] & -> & Hq). by exists c, q.
  - intros c q Hq. split; [apply Hmin2|apply Hmax2]; apply list_elem_of_fmap; by exists (c, q).
  - rewrite <-Hlc. apply moyenne_spec in Hmoy. by rewrite length_map in Hmoy.
  - apply list_elem_of_fmap in Hmin1 as ([c q] & -> & Hq). subst r.
    pose proof (chemins_non_vides f g d) as Hne. rewrite Forall_forall in Hne.
    specialize (Hne _ Hq). destruct q as [|b q]; simpl in *; [done|lia].
  - apply list_elem_of_fmap in Hmax1 as ([c q] & -> & Hq).
    pose proof (chemins_profondeur _ c q Hv Hq) as Hp.
    pose proof (valide_noeuds_internes _ Hv) as Hi. simpl. lia.
Qed.

End TheoremesApp.

Section TheoremesTaux.
Context {A : Type} `{EqDecision A} `{Caracteres A} `{!Tas (Noeud A) noeud_lt} `{!TasLois (Noeud A) noeud_lt}.
Context (inv : list (Noeud A) -> Prop) `{!TasMin (Noeud A) noeud_lt inv}.

(** C13: on a text with at least two and at most 256 distinct
    characters, the page of [app.py] shows a compression rate that is not
    negative: the encoded text has at most the eight bits per character
    the rate compares it with. *)
Theorem app_taux_positif (texte : list A) x y :
  x ∈ texte -> y ∈ texte -> x <> y -> length (analyser_frequences texte) <= 256 ->
  exists page taux,
    app (Some (Texte texte)) [] = (page, Ok tt) /\
    Succes [Lit "Taux de compression : "; Format ".2f" (Flottant taux); Lit "%"] ∈ page /\
    (0 <= taux)%Q.
Proof.
  intros Hx Hy Hxy Hn.
  destruct (app_execution texte x y Hx Hy Hxy)
    as (r & page & _ & _ & Hr & _ & _ & _ & _ & Happ & _ & _ & _ & _ & _ & bits & taux & moy & Hb & Ht & Hs & _).
  destruct (encodage_borne_pow inv texte x y 8 Hx Hy Hxy Hn)
    as (r' & bits' & t & bf & Hr' & _ & Hb' & _ & _ & Hle & Hle').
  rewrite Hr in Hr'. injection Hr' as Er. subst r'. rewrite Hb in Hb'. injection Hb' as Eb. subst bits'.
  exists page, taux. split_and!; [done|done|].
  apply (taux_compression_positif texte bits taux Ht). lia.
Qed.
End TheoremesTaux.

(** ** Witnesses, with CPython's [heapq] *)

Lemma visualiser_arbre_correct_witness :
  exists graph,
    visualiser_arbre arbre_aabbc None None "" 0 = (graph, (2 * length (feuilles arbre_aabbc) - 1)%nat) /\
    map (fun s => s.1.1) (sommets graph) = seq 0 (2 * length (feuilles arbre_aabbc) - 1) /\
    forall c q, (c, q) ∈ chemins arbre_aabbc ->
      exists j f, suivre (aretes graph) 0 q = Some j /\
        (j, etiquette_feuille c f, "lightblue") ∈ sommets graph.
Proof. apply (visualiser_arbre_correct arbre_aabbc). repeat constructor. Defined.

Lemma app_graphe_codes_witness :
  exists racine codes graph page,
    construire_arbre (analyser_frequences (lettres "aabbc")) = Ok racine /\
    generer_codes racine = Ok codes /\
    app (Some (Texte (lettres "aabbc"))) [] = (page, Ok tt) /\ Graphe graph ∈ page /\
    forall c code, (c, code) ∈ codes ->
      exists j f, suivre (aretes graph) 0 code = Some j /\
        (j, etiquette_feuille c f, "lightblue") ∈ sommets graph.
Proof.
  apply (app_graphe_codes (lettres "aabbc") "a"%char "b"%char); [simpl; left|simpl; do 2 right; left|discriminate].
Defined.

Lemma app_longueurs_codes_witness :
  exists racine codes page mini maxi moy,
    construire_arbre (analyser_frequences (lettres "aabbc")) = Ok racine /\
    generer_codes racine = Ok codes /\
    app (Some (Texte (lettres "aabbc"))) [] = (page, Ok tt) /\
    Ecrire [Lit "Longueur minimale : "; Entier mini; Lit " bits"] ∈ page /\
    Ecrire [Lit "Longueur maximale : "; Entier maxi; Lit " bits"] ∈ page /\
    Ecrire [Lit "Longueur moyenne : "; Format ".2f" (Flottant moy); Lit " bits"] ∈ page /\
    (exists c q, (c, q) ∈ codes /\ mini = Z.of_nat (length q)) /\
    (exists c q, (c, q) ∈ codes /\ maxi = Z.of_nat (length q)) /\
    (forall c q, (c, q) ∈ codes -> mini <= Z.of_nat (length q) <= maxi)%Z /\
    (moy * inject_Z (Z.of_nat (length (analyser_frequences (lettres "aabbc")))) ==
       inject_Z (foldr Z.add 0%Z (map (fun cq => Z.of_nat (length cq.2)) codes)))%Q /\
    (1 <= mini)%Z /\ (maxi <= Z.of_nat (length (analyser_frequences (lettres "aabbc"))) - 1)%Z.
Proof.
  apply (app_longueurs_codes (lettres "aabbc") "a"%char "b"%char); [simpl; left|simpl; do 2 right; left|discriminate].
Defined.

Lemma app_taux_positif_witness :
  exists page taux,
    app (Some (Texte (lettres "aabbc"))) [] = (page, Ok tt) /\
    Succes [Lit "Taux de compression : "; Format ".2f" (Flottant taux); Lit "%"] ∈ page /\
    (0 <= taux)%Q.
Proof.
  apply (app_taux_positif (est_tas noeud_lt) (lettres "aabbc") "a"%char "b"%char);
    [simpl; left|simpl; do 2 right; left|discriminate|vm_compute; lia].
Defined.
