(* ===== verification/Tests.v ===== *)
(** * The unit tests of the repository

    [src/analyse_frequences.py] (lines 173-250) and
    [src/construction_arbre.py] (lines 109-154) carry their own unit tests:
    functions that print, build a few values and [assert] facts about
    them, and an [executer_tous_les_tests] that runs them in order.  Each
    test is an [IO] computation ([Systeme]): its prints, and [affirmer] for
    [assert], which raises [AssertionError] (the message is not kept).
    [==] on dicts is [dict_eqb], Python's equality of mappings, whatever the
    order of insertion.  The demonstrations ([Demonstrations]) run them;
    the properties they check are the theorems of the components. *)

From stdpp Require Import base list sets strings.
From Stdlib Require Import ZArith Ascii.
From S2P Require Import Prelude Systeme Noeud Frequences Tas TasOrdre Construction.

(** [assert condition] *)
Definition py_assert (condition : bool) : Resultat unit :=
  if condition then Ok tt else raise AssertionError.

(** ** [src/analyse_frequences.py] *)

(** [test_calculer_frequences()] *)
Definition test_calculer_frequences : IO ascii unit :=
  _ ← imprimer [Lit (String.append nl "🧪 Test : calculer_frequences")];
  _ ← affirmer (dict_eqb (calculer_frequences (lettres "aabbc"))
        [("a"%char, 2%Z); ("b"%char, 2%Z); ("c"%char, 1%Z)]);
  _ ← imprimer [Lit "✅ Test 1 réussi : 'aabbc'"];
  _ ← affirmer (dict_eqb (calculer_frequences (lettres "hello"))
        [("h"%char, 1%Z); ("e"%char, 1%Z); ("l"%char, 2%Z); ("o"%char, 1%Z)]);
  _ ← imprimer [Lit "✅ Test 2 réussi : 'hello'"];
  _ ← affirmer (dict_eqb (calculer_frequences (lettres "")) []);
  _ ← imprimer [Lit "✅ Test 3 réussi : texte vide"];
  imprimer [Lit (String.append "✅ Tous les tests de calculer_frequences sont réussis !" nl)].

(** [test_creer_noeuds_feuilles()]; [isinstance(n, Noeud)] holds of every
    element by typing. *)
Definition test_creer_noeuds_feuilles : IO ascii unit :=
  _ ← imprimer [Lit (String.append nl "🧪 Test : creer_noeuds_feuilles")];
  let frequences := [("a"%char, 5%Z); ("b"%char, 3%Z)] in
  let noeuds := creer_noeuds_feuilles frequences in
  _ ← affirmer (length noeuds =? 2);
  _ ← affirmer (forallb (fun _ => true) noeuds);
  _ ← affirmer (forallb est_feuille noeuds);
  imprimer [Lit (String.append "✅ Tous les tests de creer_noeuds_feuilles sont réussis !" nl)].

(** [test_noeud()] *)
Definition test_noeud : IO ascii unit :=
  _ ← imprimer [Lit (String.append nl "🧪 Test : Classe Noeud")];
  let noeud1 := mkNoeud (Some "a"%char) 5 None None in
  _ ← affirmer (bool_decide (caractere noeud1 = Some "a"%char));
  _ ← affirmer (frequence noeud1 =? 5)%Z;
  _ ← affirmer (est_feuille noeud1);
  _ ← imprimer [Lit "✅ Test 1 réussi : création nœud feuille"];
  let noeud2 := mkNoeud (Some "b"%char) 3 None None in
  let noeud_parent := mkNoeud None 8 (Some noeud1) (Some noeud2) in
  _ ← affirmer (negb (est_feuille noeud_parent));
  _ ← affirmer (frequence noeud_parent =? 8)%Z;
  _ ← imprimer [Lit "✅ Test 2 réussi : création nœud interne"];
  _ ← affirmer (noeud_lt noeud2 noeud1);
  _ ← imprimer [Lit "✅ Test 3 réussi : comparaison de nœuds"];
  imprimer [Lit (String.append "✅ Tous les tests de Noeud sont réussis !" nl)].

(** [executer_tous_les_tests()] of [src/analyse_frequences.py] *)
Definition executer_tous_les_tests_analyse : IO ascii unit :=
  _ ← imprimer [Lit (String.append nl (repeter 60 "="))];
  _ ← imprimer [Lit "EXÉCUTION DES TESTS UNITAIRES"];
  _ ← imprimer [Lit (repeter 60 "=")];
  _ ← test_noeud;
  _ ← test_calculer_frequences;
  _ ← test_creer_noeuds_feuilles;
  _ ← imprimer [Lit (repeter 60 "=")];
  _ ← imprimer [Lit "🎉 TOUS LES TESTS SONT RÉUSSIS !"];
  imprimer [Lit (String.append (repeter 60 "=") nl)].

(** ** [src/construction_arbre.py] *)

Section TestsConstruction.
Context {A : Type} `{!Tas (Noeud A) noeud_lt}.

(** The body of [test_construction_arbre_simple()], for the dict
    [frequences] it builds. *)
Definition verifier_construction (frequences : dict A Z) : Resultat unit :=
  let feuilles := creer_noeuds_feuilles frequences in
  racine ← construire_arbre_huffman feuilles;
  py_assert (bool_decide (is_Some racine));;
  let frequence_totale := dict_somme frequences in
  r ← of_option AttributeError racine;
  py_assert (frequence r =? frequence_totale)%Z.

(** The body of [test_cas_un_seul_caractere()], for the one-item dict
    [{c: f}] it builds ([{'x': 10}] in the source). *)
Definition verifier_un_seul_caractere (c : A) (f : Z) : Resultat unit :=
  let frequences := [(c, f)] in
  let feuilles := creer_noeuds_feuilles frequences in
  racine ← construire_arbre_huffman feuilles;
  py_assert (bool_decide (is_Some racine));;
  r ← of_option AttributeError racine;
  py_assert (frequence r =? f)%Z;;
  py_assert (est_feuille r).
End TestsConstruction.

(** [test_construction_arbre_simple()] *)
Definition test_construction_arbre_simple : IO ascii unit :=
  _ ← imprimer [Lit (String.append nl "🧪 Test : construire_arbre_huffman (cas simple)")];
  _ ← de_resultat (verifier_construction [("a"%char, 5%Z); ("b"%char, 1%Z); ("c"%char, 1%Z)]);
  imprimer [Lit "✅ Test construction de l'arbre réussi"].

(** [test_cas_un_seul_caractere()] *)
Definition test_cas_un_seul_caractere : IO ascii unit :=
  _ ← imprimer [Lit (String.append nl "🧪 Test : cas un seul caractère")];
  _ ← de_resultat (verifier_un_seul_caractere "x"%char 10);
  imprimer [Lit "✅ Test cas un seul caractère réussi"].

(** [executer_tous_les_tests()] of [src/construction_arbre.py] *)
Definition executer_tous_les_tests_construction : IO ascii unit :=
  _ ← imprimer [Lit (String.append nl (repeter 60 "="))];
  _ ← imprimer [Lit "EXÉCUTION DES TESTS UNITAIRES - CONSTRUCTION_ARBRE"];
  _ ← imprimer [Lit (repeter 60 "=")];
  _ ← test_construction_arbre_simple;
  _ ← test_cas_un_seul_caractere;
  _ ← imprimer [Lit (repeter 60 "=")];
  _ ← imprimer [Lit "🎉 TOUS LES TESTS DE CONSTRUCTION_ARBRE SONT RÉUSSIS !"];
  imprimer [Lit (String.append (repeter 60 "=") nl)].
