(* ===== verification/Demonstrations.v ===== *)
(** * The demonstrations run as scripts

    [src/analyse_frequences.py] and [src/construction_arbre.py] end with an
    [if __name__ == "__main__":] block: banners, the unit tests
    ([Tests]), an example text analysed or turned into a tree and printed,
    and for the first one an attempt on [test.txt] whose
    [FileNotFoundError] is caught.  Both are [IO] runs on the world of
    [Systeme].  Only [FileNotFoundError] is caught: a [test.txt] that is
    not UTF-8 makes [lire_fichier] raise [TypeError]
    ([Affichage.lire_fichier]), which ends the demonstration. *)

From stdpp Require Import base list sets strings.
From Stdlib Require Import ZArith Ascii QArith.
From S2P Require Import Prelude Systeme Tri Noeud Frequences Tas TasOrdre Construction.
From S2P Require Import Codes Affichage Tests.

(** [enumerate(l)] *)
Definition enumerer {X} (l : list X) : list (nat * X) := zip (seq 0 (length l)) l.

(** ** [src/analyse_frequences.py] *)

(** The [try:] block: [analyser_fichier('test.txt')] and its report. *)
Definition essai_fichier : IO ascii unit :=
  r ← analyser_fichier "test.txt";
  let '(texte, frequences, noeuds) := r in
  _ ← afficher_frequences frequences true;
  _ ← imprimer [Lit (String.append nl "✅ Fichier analysé avec succès!")];
  _ ← imprimer [Lit "   - Taille du texte : "; Entier (Z.of_nat (length texte)); Lit " caractères"];
  _ ← imprimer [Lit "   - Caractères uniques : "; Entier (Z.of_nat (length frequences))];
  imprimer [Lit "   - Nœuds créés : "; Entier (Z.of_nat (length noeuds))].

(** [except FileNotFoundError:]; any other exception goes on. *)
Definition fichier_absent (e : Exception) : IO ascii unit :=
  match e with
  | FileNotFoundError =>
      _ ← imprimer [Lit "⚠️  Fichier 'test.txt' non trouvé."];
      imprimer [Lit "   Créez un fichier test.txt dans le même dossier pour tester."]
  | e => lever e
  end.

(** The [__main__] block of [src/analyse_frequences.py]. *)
Definition demo_analyse : IO ascii unit :=
  _ ← imprimer [Lit (String.append nl (repeter 60 "="))];
  _ ← imprimer [Lit "MODULE D'ANALYSE DES FRÉQUENCES - HUFFMAN"];
  _ ← imprimer [Lit (String.append (repeter 60 "=") nl)];
  _ ← executer_tous_les_tests_analyse;
  _ ← imprimer [Lit (repeter 60 "=")];
  _ ← imprimer [Lit "EXEMPLE D'UTILISATION"];
  _ ← imprimer [Lit (String.append (repeter 60 "=") nl)];
  let texte_exemple := lettres "HOURRA HOURRA HOURRRRA ?" in
  _ ← imprimer [Lit "Texte d'exemple : "; Lit guillemet; Chaine texte_exemple; Lit guillemet; Lit nl];
  let frequences := calculer_frequences texte_exemple in
  _ ← afficher_frequences frequences true;
  let noeuds := creer_noeuds_feuilles frequences in
  _ ← imprimer [Lit "Nombre de nœuds créés : "; Entier (Z.of_nat (length noeuds))];
  _ ← imprimer [Lit (String.append nl "Exemples de nœuds créés :")];
  _ ← pour_chaque (fun p => imprimer ([Lit "  "; Entier (Z.of_nat p.1 + 1); Lit ". "] ++ repr_noeud p.2))
        (enumerer (take 5 noeuds));
  _ ← imprimer [Lit (String.append nl (repeter 60 "="))];
  _ ← imprimer [Lit "TEST AVEC UN FICHIER"];
  _ ← imprimer [Lit (String.append (repeter 60 "=") nl)];
  _ ← rattraper essai_fichier fichier_absent;
  _ ← imprimer [Lit (String.append nl (repeter 60 "="))];
  _ ← imprimer [Lit "Pour analyser votre propre fichier, utilisez :"];
  _ ← imprimer [Lit "  texte, frequences, noeuds = analyser_fichier('mon_fichier.txt')"];
  imprimer [Lit (String.append (repeter 60 "=") nl)].

(** ** [src/construction_arbre.py] *)

(** The [__main__] block of [src/construction_arbre.py], with CPython's
    [heapq]; the counting loop is [frequences[c] = frequences.get(c, 0) + 1]. *)
Definition demo_construction : IO ascii unit :=
  _ ← executer_tous_les_tests_construction;
  _ ← imprimer [Lit (String.append nl (repeter 60 "="))];
  _ ← imprimer [Lit "EXEMPLE D'UTILISATION DE L'ARBRE DE HUFFMAN (AFFICHAGE)"];
  _ ← imprimer [Lit (String.append (repeter 60 "=") nl)];
  let texte := lettres "Bonjour le monde" in
  let frequences := fold_left compter_counter texte [] in
  let feuilles := creer_noeuds_feuilles frequences in
  racine ← de_resultat (construire_arbre_huffman feuilles);
  _ ← imprimer [Lit "Texte :"; Lit " "; Chaine texte];
  _ ← imprimer [Lit "Fréquences :"; Lit " "; Dico frequences];
  _ ← imprimer [Lit (String.append nl (String.append "Arbre de Huffman construit :" nl))];
  afficher_arbre racine "" "R".

(** The first line [analyser_fichier('test.txt')] prints. *)
Definition ligne_lecture : Ligne ascii := [Lit "Lecture du fichier : "; Lit "test.txt"].

#[export] Hint Resolve afficher_frequences_calculees : imprime.

(** ** The runs *)

Lemma lire_fichier_texte (w : Monde ascii) chemin t :
  dict_get (fichiers w) chemin = Some (Texte t) ->
  lire_fichier chemin w = (w, Ok (traduire_fins_de_ligne false t)).
Proof. intros H. unfold lire_fichier, rattraper, lire. by rewrite H. Qed.

(** [analyser_fichier] on a readable file: three lines, and the text with
    its counts and leaves. *)
Lemma analyser_fichier_texte (w : Monde ascii) t :
  dict_get (fichiers w) "test.txt" = Some (Texte t) ->
  let texte := traduire_fins_de_ligne false t in
  analyser_fichier "test.txt" w =
  (mkMonde (fichiers w) (sortie w ++ [ligne_lecture; [Lit "Calcul des fréquences..."];
     [Lit "Création des nœuds feuilles..."]]),
   Ok (texte, calculer_frequences texte, creer_noeuds_feuilles (calculer_frequences texte))).
Proof.
  intros H texte. unfold analyser_fichier. rewrite (bind_imprime _ _ _ _ (imprime_imprimer _)).
  erewrite bind_io_Ok by (apply lire_fichier_texte; exact H).
  rewrite !(bind_imprime _ _ _ _ (imprime_imprimer _)). cbn. by rewrite <-!app_assoc.
Qed.

(** The [try:] block on a readable [test.txt]: the table of its counts and
    the report. *)
Lemma essai_texte w t :
  dict_get (fichiers w) "test.txt" = Some (Texte t) ->
  let texte := traduire_fins_de_ligne false t in
  rattraper essai_fichier fichier_absent w =
  (mkMonde (fichiers w) (sortie w ++ [ligne_lecture;
     [Lit "Calcul des fréquences..."]; [Lit "Création des nœuds feuilles..."]] ++
     (entete_frequences (calculer_frequences texte) ++
      map (ligne_frequence (Z.of_nat (length texte))) (py_sorted snd true (calculer_frequences texte)) ++
      [[Lit (String.append (repeter 50 "=") nl)]]) ++
     [[Lit (String.append nl "✅ Fichier analysé avec succès!")];
      [Lit "   - Taille du texte : "; Entier (Z.of_nat (length texte)); Lit " caractères"];
      [Lit "   - Caractères uniques : "; Entier (Z.of_nat (length (calculer_frequences texte)))];
      [Lit "   - Nœuds créés : "; Entier (Z.of_nat (length (creer_noeuds_feuilles (calculer_frequences texte))))]]),
   Ok tt).
Proof.
  intros H texte. unfold rattraper, essai_fichier.
  rewrite (bind_io_Ok _ _ _ _ _ (analyser_fichier_texte w t H)). cbv beta iota zeta.
  rewrite (bind_imprime _ _ _ _ (afficher_frequences_calculees _ _)).
  rewrite !(bind_imprime _ _ _ _ (imprime_imprimer _)), imprimer_sortie. cbn [fichiers sortie].
  by rewrite <-!app_assoc.
Qed.

(** [analyser_fichier] stops on the exception of [lire_fichier]. *)
Lemma analyser_fichier_erreur (w : Monde ascii) e :
  lire_fichier "test.txt" w = (w, Erreur e) ->
  analyser_fichier "test.txt" w = (mkMonde (fichiers w) (sortie w ++ [ligne_lecture]), Erreur e).
Proof.
  intros H. unfold analyser_fichier. rewrite (bind_imprime _ _ _ _ (imprime_imprimer _)).
  unfold mbind at 1, IO_bind. unfold lire_fichier, rattraper, lire in *. cbn [fichiers] in *.
  destruct (dict_get (fichiers w) "test.txt") as [[|t]|]; cbv [lever] in *; simpl in *;
    try discriminate; injection H as <-; reflexivity.
Qed.

(** Without [test.txt], the handler prints its two lines. *)
Lemma essai_absent w :
  dict_get (fichiers w) "test.txt" = None ->
  rattraper essai_fichier fichier_absent w =
  (mkMonde (fichiers w) (sortie w ++ [ligne_lecture;
     [Lit "⚠️  Fichier 'test.txt' non trouvé."];
     [Lit "   Créez un fichier test.txt dans le même dossier pour tester."]]), Ok tt).
Proof.
  intros H. unfold rattraper, essai_fichier.
  rewrite (bind_io_Erreur _ _ _ _ _ (analyser_fichier_erreur w FileNotFoundError ltac:(unfold lire_fichier, rattraper, lire; by rewrite H))).
  cbn [fichier_absent]. rewrite (bind_imprime _ _ _ _ (imprime_imprimer _)), imprimer_sortie. cbn [fichiers sortie].
  by rewrite <-!app_assoc.
Qed.

(** A [test.txt] that is not UTF-8: [TypeError] goes through the handler. *)
Lemma essai_illisible w :
  dict_get (fichiers w) "test.txt" = Some Illisible ->
  rattraper essai_fichier fichier_absent w =
  (mkMonde (fichiers w) (sortie w ++ [ligne_lecture]), Erreur TypeError).
Proof.
  intros H. unfold rattraper, essai_fichier.
  rewrite (bind_io_Erreur _ _ _ _ _ (analyser_fichier_erreur w TypeError ltac:(unfold lire_fichier, rattraper, lire; by rewrite H))).
  reflexivity.
Qed.

(** Everything before the [try:] only prints, the same lines in every
    world; what follows it only prints. *)
Lemma demo_analyse_debut :
  exists lp lf (k : unit -> IO ascii unit),
    (forall w, demo_analyse w = (x ← rattraper essai_fichier fichier_absent; k x)
                                  (mkMonde (fichiers w) (sortie w ++ lp))) /\
    imprime (k tt) lf /\ [Lit "Nombre de nœuds créés : "; Entier 7] ∈ lp.
Proof.
  do 3 eexists. split_and!; [intros w; unfold demo_analyse; do 15 avancer; rewrite <-!app_assoc; reflexivity|cbv beta; imprime_calcul|].
  assert (length (creer_noeuds_feuilles (calculer_frequences (lettres "HOURRA HOURRA HOURRRRA ?"))) = 7%nat)
    as -> by reflexivity.
  dans_liste.
Qed.

(** C31: the demonstration of [src/analyse_frequences.py] runs its tests
    and its example (whose text has 7 distinct characters) and writes no
    file.  Without [test.txt] it reports the missing file and ends
    normally; on a [test.txt] that is not UTF-8 it ends on [TypeError],
    which its [except FileNotFoundError] does not catch; on a readable
    [test.txt] it ends normally and reports the length of the text read
    and, as the number of unique characters and of nodes, the number of
    distinct characters of that text. *)
Theorem demo_analyse_correct (w : Monde ascii) :
  (dict_get (fichiers w) "test.txt" = None ->
     exists l, demo_analyse w = (mkMonde (fichiers w) (sortie w ++ l), Ok tt) /\
       [Lit "Nombre de nœuds créés : "; Entier 7] ∈ l /\
       [Lit "⚠️  Fichier 'test.txt' non trouvé."] ∈ l) /\
  (dict_get (fichiers w) "test.txt" = Some Illisible ->
     exists l, demo_analyse w = (mkMonde (fichiers w) (sortie w ++ l), Erreur TypeError)) /\
  (forall t, dict_get (fichiers w) "test.txt" = Some (Texte t) ->
     exists l cs, demo_analyse w = (mkMonde (fichiers w) (sortie w ++ l), Ok tt) /\
       NoDup cs /\ (forall c, c ∈ cs <-> c ∈ traduire_fins_de_ligne false t) /\
       [Lit "   - Taille du texte : "; Entier (Z.of_nat (length (traduire_fins_de_ligne false t)));
        Lit " caractères"] ∈ l /\
       [Lit "   - Caractères uniques : "; Entier (Z.of_nat (length cs))] ∈ l /\
       [Lit "   - Nœuds créés : "; Entier (Z.of_nat (length cs))] ∈ l).
Proof.
  destruct demo_analyse_debut as (lp & lf & k & Hd & Hk & Hlp).
  split_and!; [intros H|intros H|intros t H]; rewrite Hd.
  - erewrite bind_io_Ok by (apply essai_absent; exact H).
    rewrite Hk. cbn [fichiers sortie].
    eexists. split; [rewrite <-!app_assoc; reflexivity|]. split; dans_liste.
  - erewrite bind_io_Erreur by (apply essai_illisible; exact H). cbn [fichiers sortie].
    eexists. rewrite <-!app_assoc. reflexivity.
  - erewrite bind_io_Ok by (apply essai_texte; exact H).
    rewrite Hk. cbn [fichiers sortie].
    set (texte := traduire_fins_de_ligne false t).
    eexists; exists (dict_keys (calculer_frequences texte)).
    assert (length (dict_keys (calculer_frequences texte)) = length (calculer_frequences texte)) as E
      by apply length_map.
    rewrite E.
    split_and!; [rewrite <-!app_assoc; reflexivity|apply calculer_frequences_NoDup
      |intros c; apply calculer_frequences_keys|rewrite ?creer_noeuds_feuilles_length; dans_liste..].
Qed.

(** The demonstration of [src/construction_arbre.py] runs its tests and
    prints, last, the tree of the Huffman code of "Bonjour le monde". *)
Lemma demo_construction_imprime :
  exists racine l,
    construire_arbre_huffman (creer_noeuds_feuilles
      (fold_left compter_counter (lettres "Bonjour le monde") [])) = Ok (Some racine) /\
    imprime demo_construction l /\ lignes_arbre racine "" "R" `suffix_of` l.
Proof.
  remember (construire_arbre_huffman (creer_noeuds_feuilles
    (fold_left compter_counter (lettres "Bonjour le monde") []))) as r eqn:Er.
  vm_compute in Er. subst r.
  do 2 eexists. split; [reflexivity|]. split.
  - unfold demo_construction. do 4 (eapply imprime_seq; [imprime_calcul|]). cbv zeta.
    eapply imprime_de_resultat_bind; [vm_compute; reflexivity|].
    do 3 (eapply imprime_seq; [imprime_calcul|]).
    intros w. apply afficher_noeud_lignes.
  - suffixe.
Qed.

(** ** Witness *)

Lemma demo_analyse_correct_witness :
  exists l, demo_analyse (mkMonde [] []) = (mkMonde [] ([] ++ l), Ok tt) /\
    [Lit "Nombre de nœuds créés : "; Entier 7] ∈ l /\
    [Lit "⚠️  Fichier 'test.txt' non trouvé."] ∈ l.
Proof. apply (proj1 (demo_analyse_correct (mkMonde [] []))). reflexivity. Defined.
